(** * all-isbns: a shallow embedding of the ISBN pipeline and its properties

    The development follows the Python sources under [scripts/]:

    - [common.py]: [normalize_isbn], [get_pos], [get_isbn_code_pos],
      [ISBNsBinaryProcessor];
    - [isbn_props_decoder.py]: [ISBNPropsDecoder.decode_stream];
    - [isbn_filter.py]: [filter_invalid_isbns];
    - [processor_most_likely_year.py]: [extract_most_likely_year];
    - [processor_data_handler.py]: [verify_isbn] and [DataHandler];
    - [processor_worker.py], [processor_main.py]: [Worker.run], [write_results];
    - [render_tile_props.py]: [ISBNMatrixProcessor.process_stream].

    Conventions.  Python integers are [Z].  A Python [str] is a Rocq
    [string] whose characters are read as the code points 0..255.  A Python
    [bytes] value is a list of [byte].  A Python [set] is a [gset]; a value
    that may be [None] is an [option]; code that may raise returns a
    [result].  A Python [float] is a binary64, given by its exact value in
    [Q]; float operations round to the nearest binary64.  Loops whose trip count is not structural are defined by
    well-founded recursion, so every function below is total. *)

From Stdlib Require Import ZArith QArith Qpower Qround Qabs Lia Lqa Ascii String.
From Stdlib.Strings Require Import Byte.
From Equations Require Import Equations.
From stdpp Require Import base option list sorting gmap sets strings.

Local Open Scope Z_scope.

(** ** Python values shared by all modules *)

(** The exceptions the modelled code can raise. *)
Inductive exn : Set :=
| ValueError
| StructError.

Inductive result (A : Type) : Type :=
| Ok (a : A)
| Raise (e : exn).
Arguments Ok {A} a.
Arguments Raise {A} e.

#[global] Instance result_ret : MRet result := fun A a => Ok a.
#[global] Instance result_bind : MBind result := fun A B f m =>
  match m with
  | Ok a => f a
  | Raise e => Raise e
  end.
#[global] Instance result_fmap : FMap result := fun A B f m =>
  match m with
  | Ok a => Ok (f a)
  | Raise e => Raise e
  end.

(** [mapM] for [result]: the first failing element decides. *)
Fixpoint result_mapM {A B} (f : A -> result B) (l : list A) : result (list B) :=
  match l with
  | [] => Ok []
  | a :: l' => b ← f a; bs ← result_mapM f l'; Ok (b :: bs)
  end.

Definition bytes : Type := list byte.

(** [b[i]] for a [bytes] value [b]: the integer 0..255. *)
Definition byte_val (b : byte) : Z := Z.of_N (Byte.to_N b).

(** [bytearray([v])] and [bytearray.append(v)]: [ValueError] outside
    [range(256)]. *)
Definition byte_of_Z (v : Z) : result byte :=
  if decide (0 <= v < 256) then
    match Byte.of_N (Z.to_N v) with
    | Some b => Ok b
    | None => Raise ValueError
    end
  else Raise ValueError.

(** [int.from_bytes(data, byteorder='big')]. *)
Definition int_from_bytes_big (data : bytes) : Z :=
  fold_left (fun acc b => acc * 256 + byte_val b) data 0.

(** [int.from_bytes(data, byteorder='little')]. *)
Definition int_from_bytes_little (data : bytes) : Z :=
  fold_right (fun b acc => byte_val b + 256 * acc) 0 data.

(** [struct.pack('>I', v)]: four big-endian bytes, [struct.error] when [v]
    is not an unsigned 32-bit integer. *)
Definition struct_pack_BE_I (v : Z) : result bytes :=
  if decide (0 <= v < 2 ^ 32) then
    result_mapM byte_of_Z
      [Z.land (Z.shiftr v 24) 255; Z.land (Z.shiftr v 16) 255;
       Z.land (Z.shiftr v 8) 255; Z.land v 255]
  else Raise StructError.

(** [range(start, stop, step)] for a positive [step]. *)
Definition range_step (start stop step : nat) : list nat :=
  map (fun k => (start + k * step)%nat)
      (seq 0 ((stop - start + (step - 1)) / step)%nat).

(** [sorted(s)] for a set of integers. *)
Definition sorted (s : gset Z) : list Z := merge_sort Z.le (elements s).

(** The slice [l[i:j]]. *)
Definition slice {A} (l : list A) (i j : nat) : list A :=
  take (j - i) (drop i l).

(** Characters: ASCII decimal digits, the class [[0-9]] and, on the code
    points 0..255, also the regular-expression class [\d]. *)
Definition is_ascii_digit (c : ascii) : bool :=
  let n := Z.of_N (N_of_ascii c) in (48 <=? n) && (n <=? 57).

(** [str.isdigit] on one code point 0..255: the ASCII digits and the
    superscripts U+00B2, U+00B3 and U+00B9, which are digits for [isdigit]
    and which [int] rejects. *)
Definition py_isdigit_char (c : ascii) : bool :=
  let n := Z.of_N (N_of_ascii c) in
  is_ascii_digit c || (n =? 178) || (n =? 179) || (n =? 185).

Definition digit_val (c : ascii) : Z := Z.of_N (N_of_ascii c) - 48.

(** [int(c)] for a one-character string [c]. *)
Definition int_of_char (c : ascii) : result Z :=
  if is_ascii_digit c then Ok (digit_val c) else Raise ValueError.

(** [int(s)] for a non-empty string of ASCII digits. *)
Definition int_of_digits (s : list ascii) : Z :=
  fold_left (fun acc c => acc * 10 + digit_val c) s 0.

Definition chars (s : string) : list ascii := list_ascii_of_string s.

(** ** common.py *)
Module Common.

(** *** normalize_isbn *)

(** [isbn.replace('-', '')]. *)
Definition remove_dashes (isbn : string) : string :=
  string_of_list_ascii (filter (fun c => c <> "-"%char) (chars isbn)).

(** [isbn[4:]]. *)
Definition from_fourth (isbn : string) : string :=
  string_of_list_ascii (drop 4 (chars isbn)).

Definition normalize_isbn (isbn : string) (dashes : bool) : string :=
  let isbn :=
    if String.prefix "978-" isbn then String "0" (from_fourth isbn)
    else if String.prefix "979-" isbn then String "1" (from_fourth isbn)
    else isbn in
  if negb dashes then remove_dashes isbn else isbn.

Definition WIDTH : Z := 50000.
Definition HEIGHT : Z := 40000.

(** *** Python numbers

    [get_pos] computes with Python's [int] and [float].  An [int] is an
    integer of any size.  A [float] is an IEEE 754 binary64 and is given
    here by its exact value, a rational; an operation on floats computes
    the exact result and rounds it to the nearest binary64, ties to even
    ([round64]).  Values of [2^1024] and more, which overflow, infinities
    and NaN do not arise in [get_pos] and are not represented. *)

(** [floor(log2(q))] for a positive [q]. *)
Definition Qlog2 (q : Q) : Z :=
  let k := Z.log2 (Qnum q) - Z.log2 (Zpos (Qden q)) in
  if Qle_bool (2 ^ k) q then k else k - 1.

(** The nearest integer, ties to the even one. *)
Definition round_half_even (q : Q) : Z :=
  let f := Qfloor q in
  match (q - inject_Z f ?= 1 # 2)%Q with
  | Lt => f
  | Eq => if Z.even f then f else f + 1
  | Gt => f + 1
  end.

(** The binary64 nearest to [q]: a multiple of [2^e], where 53 bits hold
    the multiplier and [e] is at least -1074 (the subnormal numbers). *)
Definition round64 (q : Q) : Q :=
  if Qeq_bool q 0 then 0%Q
  else
    let e := Z.max (Qlog2 (Qabs q) - 52) (-1074) in
    Qred (inject_Z (round_half_even (q / 2 ^ e)) * 2 ^ e).

Inductive number : Type :=
| PyInt (z : Z)
| PyFloat (q : Q).

(** The number as a rational. *)
Definition value (a : number) : Q :=
  match a with
  | PyInt z => inject_Z z
  | PyFloat q => q
  end.

(** The operand of a float operation: an [int] is converted. *)
Definition float_of (a : number) : Q :=
  match a with
  | PyInt z => round64 (inject_Z z)
  | PyFloat q => q
  end.

(** [a + b] and [a * b]: exact on two [int]s, a float operation as soon as
    one operand is a [float]. *)
Definition py_add (a b : number) : number :=
  match a, b with
  | PyInt x, PyInt y => PyInt (x + y)
  | _, _ => PyFloat (round64 (float_of a + float_of b))
  end.
Definition py_mul (a b : number) : number :=
  match a, b with
  | PyInt x, PyInt y => PyInt (x * y)
  | _, _ => PyFloat (round64 (float_of a * float_of b))
  end.

(** [10 ** n]: an [int] for [n >= 0]; for a negative [n] Python returns
    the float [pow(10.0, n)], read as the binary64 nearest to [10^n]. *)
Definition py_pow10 (n : Z) : number :=
  if decide (0 <= n) then PyInt (10 ^ n)
  else PyFloat (round64 ((10 # 1) ^ n)).

(** [a // b] and [a % b] for a positive [int] [b].  [get_pos] divides only
    while [x] is an [int] (lemma [get_pos_ints] below); on a float the
    quotient is the floor of the exact quotient. *)
Definition py_floordiv (a : number) (b : Z) : number :=
  match a with
  | PyInt x => PyInt (x / b)
  | PyFloat q => PyFloat (round64 (inject_Z (Qfloor (q / inject_Z b))))
  end.
Definition py_mod (a : number) (b : Z) : number :=
  match a with
  | PyInt x => PyInt (x mod b)
  | PyFloat q =>
      PyFloat (round64 (q - inject_Z b * inject_Z (Qfloor (q / inject_Z b))))
  end.

(** *** get_pos *)
Record get_pos_state : Type := mk_get_pos_state {
  gp_x : number;
  gp_y : number;
  gp_n : Z;
  gp_is_row : bool
}.

(** The body of [for digit in map(int, isbn)]. *)
Definition get_pos_step (st : get_pos_state) (digit : Z) : get_pos_state :=
  let x := gp_x st in
  let y := gp_y st in
  let n := gp_n st in
  if gp_is_row st then
    mk_get_pos_state x (py_add y (py_mul (PyInt digit) (py_pow10 n))) n false
  else
    let x := py_add x (py_mul (PyInt digit) (py_pow10 n)) in
    (* adjust from 10x2 to 5x4 *)
    let y :=
      if n =? 4 then py_add (py_mul (PyInt 2) y) (py_floordiv x 50000)
      else y in
    let x := if n =? 4 then py_mod x 50000 else x in
    mk_get_pos_state x y (n - 1) true.

Definition get_pos_init : get_pos_state :=
  mk_get_pos_state (PyInt 0) (PyInt 0) 4 true.

Definition get_pos_digits (digits : list Z) : number * number :=
  let st := fold_left get_pos_step digits get_pos_init in
  (gp_x st, gp_y st).

Definition get_pos (isbn : string) : result (number * number) :=
  digits ← result_mapM int_of_char (chars isbn);
  Ok (get_pos_digits digits).

(** *** get_isbn_code_pos *)
Equations? get_isbn_code_pos_loop (code x y i : Z) : Z * Z
  by wf (Z.to_nat code) lt :=
  get_isbn_code_pos_loop code x y i with decide (code > 0) := {
    | left _ =>
        let inc := (code mod 10) * 10 ^ (i / 2) in
        if decide (i mod 2 = 0)
        then get_isbn_code_pos_loop (code / 10) (x + inc) y (i + 1)
        else get_isbn_code_pos_loop (code / 10) x (y + inc) (i + 1)
    | right _ => (x, y) }.
Proof.
  all: apply Z2Nat.inj_lt; try lia; try (apply Z.div_pos; lia);
    apply Z.div_lt; lia.
Qed.

Definition get_isbn_code_pos (code : Z) : Z * Z :=
  get_isbn_code_pos_loop code 0 0 0.

(** *** ISBNsBinaryProcessor *)

(** [get_size]: the size of a block, the same for every subclass. *)
Definition get_size : Z * Z := (10000, 10000).

(** The two operations a subclass supplies.  [add_to_block] mutates the
    block in place in Python; here it returns the updated block. *)
Class ISBNsBinaryProcessor (Block : Type) : Type := {
  create_block : Block;
  add_to_block : Block -> Z -> Z -> Block
}.

(** A processor whose block is the log of its [add_to_block] calls. *)
#[global] Instance TraceProcessor : ISBNsBinaryProcessor (list (Z * Z)) := {
  create_block := [];
  add_to_block block x y := block ++ [(x, y)]
}.

(** The subclass of [render_tile_sets.py]: [putpixel((x, y), 1)] on a
    bitmap, a set of lit pixels. *)
#[global] Instance PILProcessor : ISBNsBinaryProcessor (gset (Z * Z)) := {
  create_block := ∅;
  add_to_block block x y := {[ (x, y) ]} ∪ block
}.

Definition N : Z := 100000000.

(** [struct.unpack(f'{len(b) // 4}I', b)]: native byte order, little-endian
    on the platforms the scripts run on; [struct.error] when the length is
    not a multiple of four. *)
Fixpoint unpack_words (b : bytes) : list Z :=
  match b with
  | b0 :: b1 :: b2 :: b3 :: rest =>
      int_from_bytes_little [b0; b1; b2; b3] :: unpack_words rest
  | _ => []
  end.

Definition struct_unpack_I (b : bytes) : result (list Z) :=
  if decide ((4 * (length b / 4))%nat = length b) then Ok (unpack_words b)
  else Raise StructError.

Section Process.
Context {Block : Type} `{ISBNsBinaryProcessor Block}.

(** The local variables of [process] and the blocks yielded so far. *)
Record process_state : Type := mk_process_state {
  position : Z;
  offset : Z;
  block : Block;
  yielded : list (Z * Block)
}.

(** One turn of [for _ in range(0, value)]. *)
Definition present_step (st : process_state) : process_state :=
  let '(x, y) := get_isbn_code_pos (position st - offset st) in
  let block := add_to_block (block st) x y in
  let position := position st + 1 in
  if decide (position - offset st >= N) then
    mk_process_state position (position / N * N) create_block
      (yielded st ++ [((position - 1) / N, block)])
  else
    mk_process_state position (offset st) block (yielded st).

(** The [else] branch: reading [gap_size]. *)
Definition gap_step (value : Z) (st : process_state) : process_state :=
  let position := position st + value in
  if decide (position - offset st >= N) then
    mk_process_state position (position / N * N) create_block
      (yielded st ++ [((position - value) / N, block st)])
  else
    mk_process_state position (offset st) (block st) (yielded st).

Fixpoint process_loop (ints : list Z) (isbn_streak : bool)
    (st : process_state) : process_state :=
  match ints with
  | [] => st
  | value :: ints' =>
      process_loop ints' (negb isbn_streak)
        (if isbn_streak then Nat.iter (Z.to_nat value) present_step st
         else gap_step value st)
  end.

Definition process_ints (ints : list Z) : list (Z * Block) :=
  let st := process_loop ints true (mk_process_state 0 0 create_block []) in
  yielded st ++ [(position st / N, block st)].

Definition process (packed_isbns_binary : bytes) : result (list (Z * Block)) :=
  ints ← struct_unpack_I packed_isbns_binary;
  Ok (process_ints ints).
End Process.

End Common.

(** ** isbn_props_decoder.py *)
Module IsbnPropsDecoder.

Record ISBNPropsRecord : Type := mk_ISBNPropsRecord {
  isbn_positions : list Z;
  holdings_count : option Z;
  year : option Z
}.

(** How the generator ends: it returns at the end of the stream, or raises
    [ValueError("Incomplete record data")]. *)
Inductive stream_end : Set :=
| EndOfStream
| IncompleteRecord.

Definition has_count_of (start_byte : Z) : bool :=
  negb (Z.land start_byte (Z.shiftl 1 7) =? 0).
Definition has_year_of (start_byte : Z) : bool :=
  negb (Z.land start_byte (Z.shiftl 1 6) =? 0).
Definition isbn_count_of (start_byte : Z) : Z := Z.land start_byte 63.

(** [record_size]: the number of bytes that follow the start byte. *)
Definition record_size (start_byte : Z) : Z :=
  isbn_count_of start_byte * 4
  + (if has_count_of start_byte then 1 else 0)
  + (if has_year_of start_byte then 1 else 0).

(** The [for _ in range(isbn_count)] loop over [record_data[pos:pos + 4]]. *)
Fixpoint read_positions (isbn_count : nat) (data : bytes) : list Z :=
  match isbn_count with
  | O => []
  | S k => int_from_bytes_big (take 4 data) :: read_positions k (drop 4 data)
  end.

(** The part of the loop body after the length check: [record_data] holds
    [record_size] bytes. *)
Definition decode_record (start_byte : Z) (record_data : bytes) : ISBNPropsRecord :=
  let has_count := has_count_of start_byte in
  let has_year := has_year_of start_byte in
  let holdings_count :=
    if has_count then byte_val <$> head record_data else None in
  let data := if has_count then drop 1 record_data else record_data in
  let year :=
    if has_year then (fun year_byte => 2025 - byte_val year_byte) <$> head data
    else None in
  let data := if has_year then drop 1 data else data in
  mk_ISBNPropsRecord
    (read_positions (Z.to_nat (isbn_count_of start_byte)) data)
    holdings_count year.

Definition yield {A E} (a : A) (rest : list A * E) : list A * E :=
  (a :: rest.1, rest.2).

(** [decode_stream] on a stream that holds exactly the bytes [stream]
    ([io.BytesIO(stream)], or a buffered binary file): the records yielded,
    in order, and how the generator ends. *)
Equations? decode_stream (stream : bytes) : list ISBNPropsRecord * stream_end
  by wf (length stream) lt :=
  decode_stream [] := ([], EndOfStream);
  decode_stream (b :: rest) :=
    let start_byte := byte_val b in
    let record_size := Z.to_nat (record_size start_byte) in
    let record_data := take record_size rest in
    if decide (length record_data < record_size)%nat then ([], IncompleteRecord)
    else yield (decode_record start_byte record_data)
               (decode_stream (drop record_size rest)).
Proof. rewrite length_drop. simpl. lia. Qed.

Definition decode_bytes (data : bytes) : list ISBNPropsRecord * stream_end :=
  decode_stream data.

End IsbnPropsDecoder.

(** ** isbn_filter.py *)
Module IsbnFilter.

(** [s.startswith(prefix)]. *)
Definition startswith (s prefix : string) : bool := String.prefix prefix s.

(** [any(p(base) for base in bases)]. *)
Definition any_base (p : string -> bool) (bases : gset string) : bool :=
  existsb p (elements bases).

Definition filter_invalid_isbns (isbns : gset string) : gset string :=
  let isbn10s : gset string :=
    filter (fun isbn => String.length isbn = 10%nat) isbns in
  let bases : gset string :=
    set_map (fun isbn => substring 0 9 isbn) isbn10s in
  let valid_isbn13s : gset string :=
    filter (fun isbn13 =>
              String.length isbn13 = 13%nat /\
              any_base (fun base => startswith isbn13 ("978" +:+ base)) bases)
           isbns in
  let remaining_isbn13s : gset string :=
    filter (fun isbn13 =>
              String.length isbn13 = 13%nat /\
              (isbn13 ∉ valid_isbn13s) /\
              ~ any_base (fun base => startswith isbn13 base) bases)
           isbns in
  let isbns_978 : gset string :=
    filter (fun isbn13 => startswith isbn13 "978") remaining_isbn13s in
  let bases : gset string :=
    bases ∪ set_map (fun isbn13 => substring 3 9 isbn13) isbns_978 in
  let remaining_isbn13s : gset string :=
    filter (fun isbn13 => ~ any_base (fun base => startswith isbn13 base) bases)
           remaining_isbn13s in
  let isbns_979 : gset string :=
    filter (fun isbn13 =>
              (isbn13 ∉ isbns_978) /\
              ~ any_base (fun base => startswith isbn13 ("979" +:+ base)) bases)
           remaining_isbn13s in
  isbn10s ∪ valid_isbn13s ∪ isbns_978 ∪ isbns_979.

End IsbnFilter.

(** ** processor_most_likely_year.py *)
Module MostLikelyYear.

(** The tail [(\d{4})(?:[^\d]|$)] of the pattern, tried at the head of [s]:
    group 1 and the text that follows the match. *)
Definition digits_then_boundary (s : list ascii)
    : option (list ascii * list ascii) :=
  match s with
  | a :: b :: c :: d :: rest =>
      if is_ascii_digit a && is_ascii_digit b && is_ascii_digit c
         && is_ascii_digit d
      then match rest with
           | [] => Some ([a; b; c; d], [])
           | e :: rest' =>
               if is_ascii_digit e then None else Some ([a; b; c; d], rest')
           end
      else None
  | _ => None
  end.

(** The whole pattern [(?:^|[^\d])(\d{4})(?:[^\d]|$)] tried at the head of
    [s]; [at_start] tells whether this is offset 0 of the text, where [^]
    matches. *)
Definition match_at (at_start : bool) (s : list ascii)
    : option (list ascii * list ascii) :=
  match (if at_start then digits_then_boundary s else None) with
  | Some m => Some m
  | None =>
      match s with
      | c :: s' => if is_ascii_digit c then None else digits_then_boundary s'
      | [] => None
      end
  end.

Definition inspect {A} (a : A) : {b : A | a = b} := exist _ a eq_refl.

(** [re.finditer(pattern, text)]: the group-1 text of the successive
    non-overlapping matches, scanning left to right; the search resumes
    where the previous match ended. *)
Equations? finditer_groups (at_start : bool) (s : list ascii)
    : list (list ascii) by wf (length s) lt :=
  finditer_groups at_start [] := [];
  finditer_groups at_start (c :: s')
    with inspect (match_at at_start (c :: s')) := {
    | exist _ (Some (g, rest)) Heq => g :: finditer_groups false rest
    | exist _ None _ => finditer_groups false s' }.
Proof.
  - unfold match_at in Heq.
    assert (Hd : forall t g' r', digits_then_boundary t = Some (g', r') ->
                   (length r' < length t)%nat).
    { intros [|x1 [|x2 [|x3 [|x4 [|x5 r]]]]] g' r'; simpl; try discriminate;
        repeat case_match; intros; simplify_eq; simpl; lia. }
    destruct at_start.
    + destruct (digits_then_boundary (c :: s')) as [[g' r']|] eqn:E.
      * simplify_eq. eauto.
      * case_match; [discriminate|]. apply Hd in Heq. simpl. lia.
    + case_match; [discriminate|]. apply Hd in Heq. simpl. lia.
  - simpl. lia.
Qed.

Definition current_year : Z := 2025.

(** The years one text contributes to [years]. *)
Definition years_of_text (text : string) : list Z :=
  filter (fun year => 1450 <= year <= current_year)
         (map int_of_digits (finditer_groups true (chars text))).

(** The list [years] after the extraction loop. *)
Definition extract_years (strings : list string) : list Z :=
  concat (map years_of_text strings).

(** [Counter(years)]: counts keyed in order of first occurrence. *)
Fixpoint counter_add (year : Z) (counts : list (Z * Z)) : list (Z * Z) :=
  match counts with
  | [] => [(year, 1)]
  | (k, n) :: counts' =>
      if decide (k = year) then (k, n + 1) :: counts'
      else (k, n) :: counter_add year counts'
  end.

Definition Counter (years : list Z) : list (Z * Z) :=
  fold_left (fun counts year => counter_add year counts) years [].

(** [max(values)] of a non-empty list. *)
Definition py_max (values : list Z) : Z :=
  match values with
  | [] => 0
  | v :: values' => fold_left Z.max values' v
  end.

(** [for i in range(len(candidates) - 1)]: the first element that is
    within five years of its successor. *)
Fixpoint first_close (candidates : list Z) : option Z :=
  match candidates with
  | a :: (b :: _) as rest =>
      if decide (b - a <= 5) then Some a else first_close rest
  | _ => None
  end.

(** The choice among the extracted [years]: everything after the
    extraction loop. *)
Definition pick_most_likely (years : list Z) : option Z :=
  match years with
  | [] => None
  | _ =>
      let counts := Counter years in
      let max_count := py_max (map snd counts) in
      let candidates :=
        map fst (filter (fun kc => kc.2 = max_count) counts) in
      match candidates with
      | [year] => Some year
      | _ =>
          let candidates := merge_sort Z.le candidates in
          match first_close candidates with
          | Some year => Some year
          | None => last candidates
          end
      end
  end.

Definition extract_most_likely_year (strings : list string) : option Z :=
  pick_most_likely (extract_years strings).

End MostLikelyYear.

(** ** processor_data_handler.py *)
Module DataHandler.

(** [sum(ds[i] * weight(i) for i in range(len(ds)))]. *)
Definition weighted_sum (weight : nat -> Z) (ds : list Z) : Z :=
  foldr Z.add 0 (imap (fun i d => d * weight i) ds).

Definition verify_isbn (isbn : string) : result bool :=
  (* isbn.replace('-', '').replace(' ', '') *)
  let isbn := filter (fun c => c <> "-"%char /\ c <> " "%char) (chars isbn) in
  if decide (length isbn = 10%nat) then
    let body := take 9 isbn in
    let last_char := drop 9 isbn in
    if negb (forallb py_isdigit_char body)
       || negb (bool_decide (Exists (fun c => c ∈ chars "0123456789X") last_char))
    then Ok false
    else
      ds ← result_mapM int_of_char body;
      let sum := weighted_sum (fun i => 10 - Z.of_nat i) ds in
      last_val ← match last_char with
                 | [c] => if decide (c = "X"%char) then Ok 10 else int_of_char c
                 | _ => Raise ValueError
                 end;
      Ok ((sum + last_val) mod 11 =? 0)
  else if decide (length isbn = 13%nat) then
    if negb (forallb py_isdigit_char isbn) then Ok false
    else
      ds ← result_mapM int_of_char (take 12 isbn);
      let sum := weighted_sum (fun i => if Nat.even i then 1 else 3) ds in
      let check_digit := (10 - sum mod 10) mod 10 in
      last_val ← match drop 12 isbn with
                 | [c] => int_of_char c
                 | _ => Raise ValueError
                 end;
      Ok (check_digit =? last_val)
  else Ok false.

(** The fields of [metadata.record] the handler reads; a field that is
    absent from the JSON object is [None]. *)
Record record_fields : Type := mk_record_fields {
  rec_isbns : option (list string);
  rec_isbn13 : option string;
  totalHoldingCount : option Z;
  total_holding_count : option Z;
  machineReadableDate : option string;
  publicationDate : option string;
  date : option string
}.

Definition empty_record : record_fields :=
  mk_record_fields None None None None None None None.

Record metadata : Type := mk_metadata {
  oclc_number : option string;
  record : option record_fields
}.

Definition empty_metadata : metadata := mk_metadata None None.

(** One decoded JSON line. *)
Record line : Type := mk_line {
  aacid : option string;
  line_metadata : option metadata
}.

(** [data.get('metadata', {})] and [.get('record', {})]. *)
Definition get_metadata (data : line) : metadata :=
  default empty_metadata (line_metadata data).
Definition get_record (data : line) : record_fields :=
  default empty_record (record (get_metadata data)).

Definition BASE_ISBN : Z := 978000000000.
Definition MAX_CHUNK_SIZE : nat := 15.

(** The attributes of a [DataHandler]. *)
Record handler : Type := mk_handler {
  current_id : option string;
  isbns : gset string;
  holdings_count : option Z;
  year : option Z;
  total_results : Z;
  records : list metadata
}.

(** [__init__]. *)
Definition init : handler := mk_handler None ∅ None None 0 [].

Definition _get_isbn_position (isbn : string) : option Z :=
  if decide (isbn = ""%string) then None
  else
    (* re.sub(r'[^0-9]', '', isbn)[:-1] *)
    let base := removelast (filter (fun c => is_ascii_digit c) (chars isbn)) in
    match base with
    | [] => None
    | _ =>
        let base :=
          if decide (length base < 12)%nat then chars "978" ++ base else base in
        let position :=
          int_of_digits (drop (length base - 12) base) - 978000000000 in
        if decide (0 <= position < 2 ^ 32) then Some position else None
    end.

Definition _reset_state (h : handler) : handler :=
  mk_handler None ∅ None None (total_results h) [].

(** [{isbn for isbn in self.isbns if verify_isbn(isbn)}]; the comprehension
    raises as soon as one call does. *)
Definition verified_isbns (isbns : gset string) : result (gset string) :=
  checked ← result_mapM (fun isbn => ok ← verify_isbn isbn; Ok (isbn, ok))
                        (elements isbns);
  Ok (list_to_set (map fst (filter (fun p => p.2 = true) checked))).

(** Lines 137-142: a position at or above [10^9] outside the two ranges the
    guard names is moved down by [10^9]. *)
Definition rewrite_prefix (pos : Z) : Z :=
  if decide (pos >= 1000000000
             /\ ~ (pos >= 1100000000 /\ pos < 1140000000)
             /\ ~ (pos >= 1800000000 /\ pos < 1900000000))
  then pos - 1000000000
  else pos.

(** The loop [for isbn in isbns] that fills the set [isbn_positions]. *)
Definition positions_of (isbns : gset string) : gset Z :=
  list_to_set
    (omap (fun isbn => rewrite_prefix <$> _get_isbn_position isbn)
          (elements isbns)).

Definition bool_bit (b : bool) : Z := if b then 1 else 0.

(** The body of [for i in range(0, len(isbn_positions), MAX_CHUNK_SIZE)]. *)
Definition encode_chunk (holdings_count year : option Z) (chunk : list Z)
    : result bytes :=
  let has_count := bool_decide (is_Some holdings_count) in
  let has_year := bool_decide (is_Some year) in
  let isbn_count := Z.of_nat (length chunk) in
  let start_byte :=
    Z.lor (Z.lor (Z.shiftl (bool_bit has_count) 7)
                 (Z.shiftl (bool_bit has_year) 6))
          (Z.land isbn_count 15) in
  start ← byte_of_Z start_byte;
  holdings ← match holdings_count with
             | Some c => b ← byte_of_Z (Z.min 255 (Z.max 0 c)); Ok [b]
             | None => Ok []
             end;
  years ← match year with
          | Some y => b ← byte_of_Z (Z.min 255 (Z.max 0 (2025 - y))); Ok [b]
          | None => Ok []
          end;
  packed ← result_mapM struct_pack_BE_I chunk;
  Ok (start :: holdings ++ years ++ concat packed).

(** Lines 153-194 of [_create_bytes]: from the set [isbn_positions] and the
    two attributes to the bytes. *)
Definition encode_positions (isbn_positions : gset Z)
    (holdings_count year : option Z) : result (option bytes) :=
  let isbn_positions := sorted isbn_positions in
  let has_count := bool_decide (is_Some holdings_count) in
  let has_year := bool_decide (is_Some year) in
  if negb ((0 <? length isbn_positions)%nat && (has_count || has_year))
  then Ok None
  else
    all_chunks ←
      result_mapM
        (fun i => encode_chunk holdings_count year
                    (slice isbn_positions i (i + MAX_CHUNK_SIZE)))
        (range_step 0 (length isbn_positions) MAX_CHUNK_SIZE);
    Ok (match all_chunks with
        | [] => None
        | _ => Some (concat all_chunks)
        end).

Definition _create_bytes (h : handler) : result (option bytes) :=
  if decide (isbns h = ∅) then Ok None
  else
    verified ← verified_isbns (isbns h);
    let isbns := IsbnFilter.filter_invalid_isbns verified in
    encode_positions (positions_of isbns) (holdings_count h) (year h).

(** The [for field in holdings_fields] step for one field. *)
Definition merge_holdings (holdings_count field : option Z) : option Z :=
  match field with
  | Some v =>
      match holdings_count with
      | None => Some v
      | Some c => Some (Z.max c v)
      end
  | None => holdings_count
  end.

Definition _merge_record_data (h : handler) (data : line) : handler :=
  let record := get_record data in
  (* Process and merge ISBNs *)
  let isbns : gset string :=
    match rec_isbns record with
    | Some (i :: l) => list_to_set (i :: l)
    | _ => ∅
    end in
  let isbns : gset string :=
    match rec_isbn13 record with
    | Some i => if decide (i = ""%string) then isbns else isbns ∪ {[ i ]}
    | None => isbns
    end in
  (* Update holdings count (take max) *)
  let holdings :=
    merge_holdings (merge_holdings (holdings_count h) (totalHoldingCount record))
                   (total_holding_count record) in
  (* Update year (take min) *)
  let new_year :=
    MostLikelyYear.extract_most_likely_year
      (omap id [machineReadableDate record; publicationDate record; date record]) in
  let year :=
    match new_year with
    | Some y =>
        if decide (y = 0) then year h
        else match year h with
             | None => Some y
             | Some y0 => Some (Z.min y0 y)
             end
    | None => year h
    end in
  mk_handler (current_id h) (DataHandler.isbns h ∪ isbns) holdings year
             (total_results h) (records h ++ [get_metadata data]).

Definition set_current_id (id : option string) (h : handler) : handler :=
  mk_handler id (isbns h) (holdings_count h) (year h) (total_results h)
             (records h).

Definition incr_total_results (h : handler) : handler :=
  mk_handler (current_id h) (isbns h) (holdings_count h) (year h)
             (total_results h + 1) (records h).

(** [process]: the handler after the call, and what the call returns or
    raises.  An exception leaves the handler as it was. *)
Definition process (h : handler) (data : line)
    : handler * result (option bytes) :=
  match oclc_number (get_metadata data) with
  | None =>
      match current_id h with
      | Some _ =>
          match _create_bytes h with
          | Ok result => (incr_total_results (_reset_state h), Ok result)
          | Raise e => (h, Raise e)
          end
      | None => (h, Ok None)
      end
  | Some oclc_id =>
      if decide (is_Some (current_id h) /\ current_id h <> Some oclc_id) then
        match _create_bytes h with
        | Ok result =>
            let h := incr_total_results
                       (set_current_id (Some oclc_id) (_reset_state h)) in
            (_merge_record_data h data, Ok result)
        | Raise e => (h, Raise e)
        end
      else
        let h := match current_id h with
                 | None => set_current_id (Some oclc_id) h
                 | Some _ => h
                 end in
        (_merge_record_data h data, Ok None)
  end.

(** Feeding a sequence of lines: the handler threads through the calls;
    the run stops at the first exception. *)
Fixpoint process_all (h : handler) (lines : list line)
    : handler * result (list (option bytes)) :=
  match lines with
  | [] => (h, Ok [])
  | data :: lines' =>
      match process h data with
      | (h', Ok r) =>
          match process_all h' lines' with
          | (h'', Ok rs) => (h'', Ok (r :: rs))
          | (h'', Raise e) => (h'', Raise e)
          end
      | (h', Raise e) => (h', Raise e)
      end
  end.

(** The line a worker passes to force the final flush: [{}]. *)
Definition flush_line : line := mk_line None None.

End DataHandler.

(** ** processor_worker.py *)
Module ProcessorWorker.
Import DataHandler.

(** The attributes of a [Worker] that [run] reads on the decoded lines.
    [start_id] and [end_id] are [None] where the split point carries the
    empty string. *)
Record worker : Type := mk_worker {
  worker_id : nat;
  start_id : option string;
  end_id : option string;
  data_handler : handler
}.

(** [self.batch_size], set in [__init__]. *)
Definition batch_size : nat := 4 * 1024.

(** What [run] observes of the other processes and of the file while it
    runs, each list in the order [run] asks:
    - [tells]: the value of [fh.tell()] at the start of each pass of the
      loop; once the list is used up the position no longer moves;
    - [is_set]: the answers of [stop_event.is_set()]; once the list is
      used up the event is not set;
    - [full]: for each [queue.put(..., block=False)], whether it raises
      [queue.Full]; once the list is used up the queue has room.
    A run that ends asks finitely often, so lists describe it. *)
Record environment : Type := mk_environment {
  tells : list Z;
  is_set : list bool;
  full : list bool
}.

(** The next answer of a list, and the answers left. *)
Definition ask {A} (default : A) (answers : list A) : A * list A :=
  match answers with
  | [] => (default, [])
  | a :: answers' => (a, answers')
  end.

(** The [while True] around [self.queue.put(self.bytes_buffer,
    block=False)]: whether the buffer was put ([False]: the stop event was
    found set first), and the answers left. *)
Fixpoint try_put (full is_set : list bool) {struct full}
    : bool * list bool * list bool :=
  let '(stop, is_set') := ask false is_set in
  if stop then (false, full, is_set')
  else
    match full with
    | true :: full' => try_put full' is_set'
    | false :: full' => (true, full', is_set')
    | [] => (true, [], is_set')
    end.

(** The [while True] loop of [run] over the lines [json.loads] decodes:
    the handler, the pending [bytes_buffer] and the buffers put on the
    queue so far.  Blank lines and lines that fail to decode are skipped
    by the loop and are not listed (a pass that stops before reading one
    of them is a pass that stops before the next listed line); progress
    updates are left out. *)
Fixpoint run_loop (end_id : option string)
    (lines : list line) (start_id : option string)
    (tells : list Z) (is_set full : list bool) (prev_fh_tell : option Z)
    (h : handler) (bytes_buffer : bytes) (puts : list bytes)
    : result (handler * bytes * list bytes) :=
  let '(tell, tells) := ask (default 0 prev_fh_tell) tells in
  let moved := bool_decide (Some tell <> prev_fh_tell) in
  let '(stop, is_set) := if moved then ask false is_set else (false, is_set) in
  if stop then Ok (h, bytes_buffer, puts)
  else
    let prev_fh_tell := if moved then Some tell else prev_fh_tell in
    match lines with
    | [] => Ok (h, bytes_buffer, puts)
    | data :: lines' =>
        let reached_start :=
          match start_id with
          | Some s => bool_decide (aacid data = Some s)
          | None => true
          end in
        if negb reached_start then
          run_loop end_id lines' start_id tells is_set full prev_fh_tell
                   h bytes_buffer puts
        else if bool_decide (is_Some end_id /\ aacid data = end_id) then
          Ok (h, bytes_buffer, puts)
        else
          match process h data with
          | (h', Ok (Some result)) =>
              let bytes_buffer := bytes_buffer ++ result in
              if (batch_size <? length bytes_buffer)%nat then
                let '(put, full, is_set) := try_put full is_set in
                run_loop end_id lines' None tells is_set full prev_fh_tell
                         h' []
                         (if put then puts ++ [bytes_buffer] else puts)
              else
                run_loop end_id lines' None tells is_set full prev_fh_tell
                         h' bytes_buffer puts
          | (h', Ok None) =>
              run_loop end_id lines' None tells is_set full prev_fh_tell
                       h' bytes_buffer puts
          | (_, Raise e) => Raise e
          end
    end.

(** [run]: the buffers the worker puts on the result queue, in order.
    However the loop ends, the handler is flushed and the pending buffer
    is put, with a blocking [put]. *)
Definition run (w : worker) (env : environment) (lines : list line)
    : result (list bytes) :=
  '(h, bytes_buffer, puts) ←
    run_loop (end_id w) lines (start_id w)
             (tells env) (is_set env) (full env) None
             (data_handler w) [] [];
  match process h flush_line with
  | (_, Ok (Some final_result)) => Ok (puts ++ [bytes_buffer ++ final_result])
  | (_, Ok None) => Ok (puts ++ [bytes_buffer])
  | (_, Raise e) => Raise e
  end.

End ProcessorWorker.

(** ** processor_main.py *)
Module ProcessorMain.

(** [write_results]: the content of the output file.  [queue] lists the
    items in the order [queue.get()] returns them; [None] is the sentinel
    that stops the writer. *)
Fixpoint write_results (queue : list (option bytes)) : bytes :=
  match queue with
  | [] => []
  | None :: _ => []
  | Some result :: queue' => result ++ write_results queue'
  end.

End ProcessorMain.

(** ** render_tile_props.py *)
Module RenderTileProps.
Import IsbnPropsDecoder.

(** One tensor of [self.tensors]: a 10000 x 10000 x 2 array of bytes,
    created full of zeros.  The map holds the cells that were written, by
    [(row, col, dim)]; a cell never written holds 0.  Every value written
    below is between 0 and 255 for the records [decode_stream] yields, so
    no assignment wraps. *)
Definition tensor : Type := gmap (Z * Z * Z) Z.

(** The attributes of an [ISBNMatrixProcessor]: the two [defaultdict]s,
    keyed by prefix.  A key is present once the prefix was looked up. *)
Record ISBNMatrixProcessor : Type := mk_ISBNMatrixProcessor {
  tensors : gmap Z tensor;
  zero_holdings_mats : gmap Z (gset (Z * Z))
}.

(** [__init__]. *)
Definition init : ISBNMatrixProcessor := mk_ISBNMatrixProcessor ∅ ∅.

(** [matrix[row, col, dim]]. *)
Definition cell (matrix : tensor) (row col dim : Z) : Z :=
  default 0 (matrix !! (row, col, dim)).

(** The body of [for position in record.isbn_positions]. *)
Definition process_position (record : ISBNPropsRecord)
    (self : ISBNMatrixProcessor) (position : Z) : ISBNMatrixProcessor :=
  let prefix := position / 100000000 in
  let remainder := position mod 100000000 in
  let '(col, row) := Common.get_isbn_code_pos remainder in
  (* defaultdict automatically creates matrix if needed *)
  let matrix := default ∅ (tensors self !! prefix) in
  let matrix :=
    match year record with
    | Some y =>
        let year_offset := 2025 - y in
        <[(row, col, 0) :=
            Z.max (cell matrix row col 0) (Z.min 255 (year_offset + 1))]> matrix
    | None => matrix
    end in
  match holdings_count record with
  | Some count =>
      if decide (count > 0) then
        let encoded_count := Z.max 1 (256 - count) in
        let prev_value := cell matrix row col 1 in
        let matrix :=
          <[(row, col, 1) :=
              if decide (prev_value = 0) then encoded_count
              else Z.min prev_value encoded_count]> matrix in
        mk_ISBNMatrixProcessor (<[prefix := matrix]> (tensors self))
                               (zero_holdings_mats self)
      else
        mk_ISBNMatrixProcessor
          (<[prefix := matrix]> (tensors self))
          (<[prefix := {[ (row, col) ]}
                       ∪ default ∅ (zero_holdings_mats self !! prefix)]>
             (zero_holdings_mats self))
  | None =>
      mk_ISBNMatrixProcessor (<[prefix := matrix]> (tensors self))
                             (zero_holdings_mats self)
  end.

(** The body of [for record in self.decoder.decode_stream(stream)]. *)
Definition process_record (self : ISBNMatrixProcessor)
    (record : ISBNPropsRecord) : ISBNMatrixProcessor :=
  if decide (year record = None /\ holdings_count record = Some 0) then self
  else fold_left (process_position record) (isbn_positions record) self.

(** [process_stream]: the processor after the call, and how the decoder
    ended; the records yielded before an incomplete record are processed
    before the exception leaves the loop. *)
Definition process_stream (self : ISBNMatrixProcessor) (stream : bytes)
    : ISBNMatrixProcessor * stream_end :=
  let '(records, e) := decode_stream stream in
  (fold_left process_record records self, e).

End RenderTileProps.

(* ================================================================== *)
(** * Vocabulary of the properties *)

(** ** Decimal digits of a position ([get_isbn_code_pos]) *)

(** The [k]-th decimal digit of [code], least significant first. *)
Definition decimal_digit (code k : Z) : Z := (code / 10 ^ k) mod 10.

(** Splitting the [n] low digits of [c] into the number made of the digits
    at even indices and the number made of those at odd indices, and the
    inverse operation. *)
Fixpoint deinterleave (n : nat) (c : Z) : Z * Z :=
  match n with
  | O => (0, 0)
  | S m => let '(a, b) := deinterleave m (c / 10) in (c mod 10 + 10 * b, a)
  end.

Fixpoint interleave (n : nat) (x y : Z) : Z :=
  match n with
  | O => 0
  | S m => x mod 10 + 10 * interleave m y (x / 10)
  end.

(** How many of [n] digits sit at even and at odd indices. *)
Fixpoint x_digits (n : nat) : nat :=
  match n with
  | O => O
  | S m => S (y_digits m)
  end
with y_digits (n : nat) : nat :=
  match n with
  | O => O
  | S m => x_digits m
  end.

(** ** Digits of an ISBN string ([get_pos]) *)
Definition digit_range (d : Z) : Prop := 0 <= d <= 9.

(** ** Frames of an encoded stream ([decode_stream]) *)

(** The extent a start byte announces: the bytes after the start byte. *)
Definition announced (b : byte) : nat :=
  Z.to_nat (IsbnPropsDecoder.record_size (byte_val b)).

(** A complete frame is one record at its full extent; a partial frame is
    a stream that ends strictly inside a record's extent. *)
Definition complete_frame (f : bytes) : Prop :=
  match f with
  | [] => False
  | b :: body => length body = announced b
  end.

Definition partial_frame (t : bytes) : Prop :=
  match t with
  | [] => False
  | b :: body => (length body < announced b)%nat
  end.

Definition decode_frame (f : bytes) : IsbnPropsDecoder.ISBNPropsRecord :=
  match f with
  | [] => IsbnPropsDecoder.mk_ISBNPropsRecord [] None None
  | b :: body => IsbnPropsDecoder.decode_record (byte_val b) body
  end.

Definition end_of (tail : bytes) : IsbnPropsDecoder.stream_end :=
  match tail with
  | [] => IsbnPropsDecoder.EndOfStream
  | _ => IsbnPropsDecoder.IncompleteRecord
  end.

(** ** Chunks of the encoder ([_create_bytes]) *)
Definition chunks_of {A} (l : list A) : list (list A) :=
  map (fun i => slice l i (i + DataHandler.MAX_CHUNK_SIZE))
      (range_step 0 (length l) DataHandler.MAX_CHUNK_SIZE).

Definition holdings_ok (h : option Z) : Prop :=
  forall v, h = Some v -> 0 <= v <= 255.
Definition year_ok (y : option Z) : Prop :=
  forall v, y = Some v -> 1770 <= v <= 2025.

(** ** Mis-prefixed positions ([_create_bytes]) *)

(** The positions the guard of [rewrite_prefix] selects, as intervals. *)
Definition misprefixed (p : Z) : Prop :=
  1000000000 <= p < 1100000000 \/ 1140000000 <= p < 1800000000 \/
  1900000000 <= p < 2 ^ 32.

(** The set as the specification words it, closed at [2 * 10^9]. *)
Definition spec_misprefixed (p : Z) : Prop :=
  1000000000 <= p < 1100000000 \/ 1140000000 <= p < 1800000000 \/
  1900000000 <= p < 2000000000.

(** ** Year candidates as the specification words them *)

(** The maximal runs of digits of a text, left to right; [run] is the run
    being read, last digit first. *)
Fixpoint digit_runs (run : list ascii) (s : list ascii) : list (list ascii) :=
  match s with
  | [] =>
      match run with
      | [] => []
      | _ => [rev run]
      end
  | c :: s' =>
      if is_ascii_digit c then digit_runs (c :: run) s'
      else
        match run with
        | [] => digit_runs [] s'
        | _ => rev run :: digit_runs [] s'
        end
  end.

(** Every 4-digit run bounded by non-digits or string ends, with
    [1450 <= y <= 2025]. *)
Definition spec_years_of_text (text : string) : list Z :=
  filter (fun year => 1450 <= year <= 2025)
         (map int_of_digits
              (filter (fun run => length run = 4%nat)
                      (digit_runs [] (chars text)))).

Definition spec_extract_years (strings : list string) : list Z :=
  concat (map spec_years_of_text strings).

(** ** Blocks of the runs decoder ([ISBNsBinaryProcessor.process]) *)

(** The number of [add_to_block] calls recorded in the yielded blocks. *)
Definition recorded (blocks : list (Z * list (Z * Z))) : nat :=
  foldr (fun b acc => (length b.2 + acc)%nat) 0%nat blocks.

(** The sum of the integers at even indices: the [present_count]s. *)
Fixpoint present_total (ints : list Z) : Z :=
  match ints with
  | present :: _ :: ints' => present + present_total ints'
  | [present] => present
  | [] => 0
  end.

(** Calls recorded so far: in the yielded blocks and in the open block. *)
Definition calls (st : Common.process_state (Block := list (Z * Z))) : nat :=
  (recorded (Common.yielded st) + length (Common.block st))%nat.

(** ** Intermediate sets of [filter_invalid_isbns] *)
Section FilterSets.
Import IsbnFilter.
Implicit Types S : gset string.

Definition isbn10s_of S : gset string :=
  filter (fun isbn => String.length isbn = 10%nat) S.
Definition bases_of S : gset string :=
  set_map (fun isbn => substring 0 9 isbn) (isbn10s_of S).
Definition valid_isbn13s_of S : gset string :=
  filter (fun isbn13 =>
            String.length isbn13 = 13%nat /\
            any_base (fun base => startswith isbn13 ("978" +:+ base)) (bases_of S))
         S.
Definition remaining_of S : gset string :=
  filter (fun isbn13 =>
            String.length isbn13 = 13%nat /\
            (isbn13 ∉ valid_isbn13s_of S) /\
            ~ any_base (fun base => startswith isbn13 base) (bases_of S))
         S.
Definition isbns_978_of S : gset string :=
  filter (fun isbn13 => startswith isbn13 "978") (remaining_of S).
Definition bases2_of S : gset string :=
  bases_of S ∪ set_map (fun isbn13 => substring 3 9 isbn13) (isbns_978_of S).
Definition remaining2_of S : gset string :=
  filter (fun isbn13 => ~ any_base (fun base => startswith isbn13 base) (bases2_of S))
         (remaining_of S).
Definition isbns_979_of S : gset string :=
  filter (fun isbn13 =>
            (isbn13 ∉ isbns_978_of S) /\
            ~ any_base (fun base => startswith isbn13 ("979" +:+ base)) (bases2_of S))
         (remaining2_of S).
End FilterSets.

(** ** Book groups ([DataHandler]) *)
Section Groups.
Import DataHandler.

(** Two handlers agree when they hold the same group id, ISBN strings,
    holdings and year; [records] and [total_results] are bookkeeping that
    [_create_bytes] does not read. *)
Definition same_book (h1 h2 : handler) : Prop :=
  current_id h1 = current_id h2 /\ isbns h1 = isbns h2 /\
  holdings_count h1 = holdings_count h2 /\ year h1 = year h2.

(** The handler after merging [lines] one after the other. *)
Definition merged (h : handler) (lines : list line) : handler :=
  fold_left _merge_record_data lines h.

(** The line belongs to the group [oclc_id]. *)
Definition in_group (oclc_id : string) (data : line) : Prop :=
  oclc_number (get_metadata data) = Some oclc_id.
End Groups.

(** ** Arrival orders on the result queue ([write_results]) *)

(** The buffers in the order [queue.get()] returns them, each with the id
    of the worker that put it; the id is not part of the queue item. *)
Definition queue_of (arrival : list (nat * bytes)) : list (option bytes) :=
  map (fun p => Some p.2) arrival ++ [None].

(** All the bytes of worker [w], in the order it put them. *)
Definition worker_output (w : nat) (arrival : list (nat * bytes)) : bytes :=
  concat (map snd (filter (fun p => p.1 = w) arrival)).

(** The per-worker outputs of [n] workers, concatenated in id order. *)
Definition worker_id_order (n : nat) (arrival : list (nat * bytes)) : bytes :=
  concat (map (fun w => worker_output w arrival) (seq 0 n)).

(** The arrival in which worker 0's buffers come first, then worker 1's,
    and so on; [puts w] lists the buffers of worker [w]. *)
Definition ordered_arrival (n : nat) (puts : nat -> list bytes)
    : list (nat * bytes) :=
  concat (map (fun w => map (fun b => (w, b)) (puts w)) (seq 0 n)).

(** ** Pixels of the runs decoder ([ISBNsBinaryProcessor.process]) *)

(** The positions the runs mark present: a present count covers the next
    [value] positions, a gap count skips them. *)
Fixpoint present_positions (ints : list Z) (isbn_streak : bool) (position : Z)
    : list Z :=
  match ints with
  | [] => []
  | value :: ints' =>
      if isbn_streak then
        map (fun k => position + Z.of_nat k) (seq 0 (Z.to_nat value))
        ++ present_positions ints' false (position + value)
      else present_positions ints' true (position + value)
  end.

(** The [add_to_block] calls of the yielded blocks, each with the id its
    block is yielded under, in order. *)
Definition pixels (blocks : list (Z * list (Z * Z))) : list (Z * (Z * Z)) :=
  concat (map (fun b => map (fun xy => (b.1, xy)) b.2) blocks).

(** The pixel of a position: the id of its block of [N] positions and the
    place of the remainder inside the block. *)
Definition pixel_of (p : Z) : Z * (Z * Z) :=
  (p / Common.N, Common.get_isbn_code_pos (p mod Common.N)).

(** The yielded blocks together with the open block under the id it would
    be yielded with at the end of the input. *)
Definition all_blocks {Block} (st : Common.process_state (Block := Block))
    : list (Z * Block) :=
  Common.yielded st ++ [(Common.position st / Common.N, Common.block st)].

(** The open block starts at [offset], the multiple of [N] below
    [position]. *)
Definition aligned {Block} (st : Common.process_state (Block := Block)) : Prop :=
  0 <= Common.position st /\
  Common.offset st = Common.position st / Common.N * Common.N.


(** ** Ranges of a decoded record ([decode_stream]) *)

(** What the byte layout allows in a record: at most 63 positions, each an
    unsigned 32-bit integer, holdings of one byte, a year at most 255
    before 2025. *)
Definition record_in_range (r : IsbnPropsDecoder.ISBNPropsRecord) : Prop :=
  (length (IsbnPropsDecoder.isbn_positions r) <= 63)%nat /\
  Forall (fun p => 0 <= p < 2 ^ 32) (IsbnPropsDecoder.isbn_positions r) /\
  (forall v, IsbnPropsDecoder.holdings_count r = Some v -> 0 <= v <= 255) /\
  (forall v, IsbnPropsDecoder.year r = Some v -> 1770 <= v <= 2025).

(** ** Frequencies of the year candidates ([extract_most_likely_year]) *)

(** How often [year] occurs in [years]. *)
Definition occurrences (year : Z) (years : list Z) : Z :=
  Z.of_nat (length (filter (fun y => y = year) years)).

(** [year] is a most frequent element of [years]. *)
Definition most_frequent (year : Z) (years : list Z) : Prop :=
  year ∈ years /\ forall z, occurrences z years <= occurrences year years.

(** [counts] holds, under distinct keys, the frequencies of [years]. *)
Definition counts_of (counts : list (Z * Z)) (years : list Z) : Prop :=
  NoDup (map fst counts) /\
  forall k n, (k, n) ∈ counts <-> n = occurrences k years /\ 0 < n.

(** The list [candidates] of [extract_most_likely_year] before it is
    sorted. *)
Definition candidates_of (years : list Z) : list Z :=
  let counts := MostLikelyYear.Counter years in
  let max_count := MostLikelyYear.py_max (map snd counts) in
  map fst (filter (fun kc => kc.2 = max_count) counts).

(** ** Check digits ([verify_isbn]) *)

(** The character of a decimal digit. *)
Definition digit_char (d : Z) : ascii := ascii_of_N (Z.to_N (48 + d)).

(** A character [str.isdigit] accepts and [int] rejects: one of the
    superscripts U+00B2, U+00B3, U+00B9. *)
Definition superscript_digit (c : ascii) : Prop :=
  py_isdigit_char c = true /\ is_ascii_digit c = false.

(** ** Digits of an ISBN string ([_get_isbn_position]) *)

(** The decimal digits of a string, in order: what is left when
    [re.sub(r'[^0-9]', '', isbn)] has removed everything else. *)
Definition digits_of (isbn : string) : list ascii :=
  filter (fun c => is_ascii_digit c) (chars isbn).

(** ** Stored values of a flushed record ([_create_bytes]) *)

(** What a record keeps of a holdings count and of a year: the count
    clamped to one byte, the year clamped to the 256 years up to 2025. *)
Definition stored_holdings (count : Z) : Z := Z.min 255 (Z.max 0 count).
Definition stored_year (year : Z) : Z :=
  2025 - Z.min 255 (Z.max 0 (2025 - year)).

(** ** The lines a worker handles ([Worker.run]) *)

(** The lines from the one that carries [start_id] on. *)
Fixpoint from_start (start_id : string) (lines : list DataHandler.line)
    : list DataHandler.line :=
  match lines with
  | [] => []
  | data :: lines' =>
      if bool_decide (DataHandler.aacid data = Some start_id) then lines
      else from_start start_id lines'
  end.

(** The lines before the one that carries [end_id]. *)
Fixpoint until_end (end_id : option string) (lines : list DataHandler.line)
    : list DataHandler.line :=
  match lines with
  | [] => []
  | data :: lines' =>
      if bool_decide (is_Some end_id /\ DataHandler.aacid data = end_id) then []
      else data :: until_end end_id lines'
  end.

(** The lines of the worker's range: from its start line on, up to and
    without its end line. *)
Definition window (w : ProcessorWorker.worker) (lines : list DataHandler.line)
    : list DataHandler.line :=
  until_end (ProcessorWorker.end_id w)
    (match ProcessorWorker.start_id w with
     | Some s => from_start s lines
     | None => lines
     end).

(** The worker never finds the stop event set. *)
Definition never_set (env : ProcessorWorker.environment) : Prop :=
  Forall (fun answer => answer = false) (ProcessorWorker.is_set env).

(** Bytes that are a sequence of complete frames. *)
Definition well_framed (b : bytes) : Prop :=
  exists frames, b = concat frames /\ Forall complete_frame frames.

(** A file of [n] lines whose OCLC ids alternate between 1 and 2, each
    with one ISBN and a holdings count: every line after the first
    flushes a record of six bytes. *)
Definition alternating_lines (n : nat) : list DataHandler.line :=
  map (fun i =>
         DataHandler.mk_line None
           (Some (DataHandler.mk_metadata
                    (Some (if Nat.even i then "1" else "2")%string)
                    (Some (DataHandler.mk_record_fields
                             (Some ["9780000000019"%string]) None (Some 5)
                             None None None None)))))
      (seq 0 n).

(** ** What one line contributes to a group ([_merge_record_data]) *)

(** The ISBN strings of a line: the non-empty [isbns] list and the
    non-empty [isbn13]. *)
Definition line_isbns (data : DataHandler.line) : gset string :=
  let record := DataHandler.get_record data in
  match DataHandler.rec_isbns record with
  | Some l => list_to_set l
  | None => ∅
  end ∪
  match DataHandler.rec_isbn13 record with
  | Some i => if decide (i = ""%string) then ∅ else {[ i ]}
  | None => ∅
  end.

(** The holdings fields a line carries. *)
Definition line_holdings (data : DataHandler.line) : list Z :=
  let record := DataHandler.get_record data in
  omap id [DataHandler.totalHoldingCount record;
           DataHandler.total_holding_count record].

(** The year extracted from the date fields of a line. *)
Definition line_year (data : DataHandler.line) : option Z :=
  let record := DataHandler.get_record data in
  match MostLikelyYear.extract_most_likely_year
          (omap id [DataHandler.machineReadableDate record;
                    DataHandler.publicationDate record;
                    DataHandler.date record]) with
  | Some y => if decide (y = 0) then None else Some y
  | None => None
  end.

(** [v] is the largest, the smallest element of [l]. *)
Definition is_max (v : Z) (l : list Z) : Prop :=
  v ∈ l /\ Forall (fun w => w <= v) l.
Definition is_min (v : Z) (l : list Z) : Prop :=
  v ∈ l /\ Forall (fun w => v <= w) l.

(** An optional value is the maximum, the minimum of a list: [None]
    stands for the empty list. *)
Definition max_of (o : option Z) (l : list Z) : Prop :=
  match o with
  | Some v => is_max v l
  | None => l = []
  end.
Definition min_of (o : option Z) (l : list Z) : Prop :=
  match o with
  | Some v => is_min v l
  | None => l = []
  end.

(** ** The binary64 grid ([get_pos]) *)

(** A multiple of [1/1024].  Below [2^20] such a number is a binary64, so
    rounding never moves a value across it. *)
Definition on_grid (g : Q) : Prop := exists m : Z, (g == m # 1024)%Q.

(** ** Room on the canvas ([get_pos]) *)

(** The digits [get_pos] can still add as integers: the exponent [n]
    turns negative after them. *)
Definition digits_left (st : Common.get_pos_state) : Z :=
  2 * (Common.gp_n st + 1) - (if Common.gp_is_row st then 0 else 1).

(** After the first two digits [x] and [y] are [int]s, and the places
    still to be added leave them on the canvas: [x] has [10^(n+1)] to go,
    [y] as much before a row digit and [10^n] after it. *)
Definition room (st : Common.get_pos_state) : Prop :=
  exists x y : Z,
    Common.gp_x st = Common.PyInt x /\ Common.gp_y st = Common.PyInt y /\
    0 <= x /\ 0 <= y /\ -1 <= Common.gp_n st <= 3 /\
    (Common.gp_is_row st = false -> 0 <= Common.gp_n st) /\
    x + 10 ^ (Common.gp_n st + 1) <= 50000 /\
    y + (if Common.gp_is_row st then 10 ^ (Common.gp_n st + 1)
         else 10 ^ Common.gp_n st) <= 40000.

(** ** Cells of the tensors ([process_stream]) *)

(** What the processor holds for position [p], at the place the loop
    computes for it: the year byte and the holdings byte of the tensor of
    its prefix (a tensor not created yet is all zeros), and its mark in
    the zero-holdings matrix. *)
Definition year_at (self : RenderTileProps.ISBNMatrixProcessor) (p : Z) : Z :=
  let '(col, row) := Common.get_isbn_code_pos (p mod 100000000) in
  RenderTileProps.cell
    (default ∅ (RenderTileProps.tensors self !! (p / 100000000))) row col 0.
Definition holdings_at (self : RenderTileProps.ISBNMatrixProcessor) (p : Z) : Z :=
  let '(col, row) := Common.get_isbn_code_pos (p mod 100000000) in
  RenderTileProps.cell
    (default ∅ (RenderTileProps.tensors self !! (p / 100000000))) row col 1.
Definition zero_holdings_at (self : RenderTileProps.ISBNMatrixProcessor)
    (p : Z) : Prop :=
  let '(col, row) := Common.get_isbn_code_pos (p mod 100000000) in
  (row, col) ∈
    default ∅ (RenderTileProps.zero_holdings_mats self !! (p / 100000000)).

(** The records that list position [p], their years, and their holdings
    counts above zero. *)
Definition records_at (p : Z) (records : list IsbnPropsDecoder.ISBNPropsRecord)
    : list IsbnPropsDecoder.ISBNPropsRecord :=
  filter (fun r => p ∈ IsbnPropsDecoder.isbn_positions r) records.
Definition years_at (p : Z) (records : list IsbnPropsDecoder.ISBNPropsRecord)
    : list Z :=
  omap IsbnPropsDecoder.year (records_at p records).
Definition holdings_at_least_one (p : Z)
    (records : list IsbnPropsDecoder.ISBNPropsRecord) : list Z :=
  filter (fun c => c > 0)
         (omap IsbnPropsDecoder.holdings_count (records_at p records)).

(** What one visit of the loop body does to the year byte and to the
    holdings byte of its cell. *)
Definition merge_year (prev : Z) (y : option Z) : Z :=
  match y with
  | Some y => Z.max prev (Z.min 255 (2025 - y + 1))
  | None => prev
  end.

Definition merge_count (prev : Z) (c : option Z) : Z :=
  match c with
  | Some c =>
      if decide (c > 0) then
        if decide (prev = 0) then Z.max 1 (256 - c)
        else Z.min prev (Z.max 1 (256 - c))
      else prev
  | None => prev
  end.

(* ================================================================== *)
(** * Properties *)

(** ** get_isbn_code_pos *)
Section GetIsbnCodePos.
Import Common.

Lemma get_isbn_code_pos_loop_unfold code x y i :
  get_isbn_code_pos_loop code x y i =
  if decide (code > 0) then
    let inc := (code mod 10) * 10 ^ (i / 2) in
    if decide (i mod 2 = 0)
    then get_isbn_code_pos_loop (code / 10) (x + inc) y (i + 1)
    else get_isbn_code_pos_loop (code / 10) x (y + inc) (i + 1)
  else (x, y).
Proof.
  rewrite get_isbn_code_pos_loop_equation_1.
  destruct (decide (code > 0)); reflexivity.
Qed.

Lemma deinterleave_0 n : deinterleave n 0 = (0, 0).
Proof.
  induction n as [|n IH]; [done|].
  cbn [deinterleave]. change (0 / 10) with 0. rewrite IH. reflexivity.
Qed.

Lemma loop_deinterleave n : forall c x y k,
  0 <= c < 10 ^ Z.of_nat n -> 0 <= k ->
  get_isbn_code_pos_loop c x y (2 * k) =
    (x + 10 ^ k * (deinterleave n c).1, y + 10 ^ k * (deinterleave n c).2) /\
  get_isbn_code_pos_loop c x y (2 * k + 1) =
    (x + 10 ^ (k + 1) * (deinterleave n c).2, y + 10 ^ k * (deinterleave n c).1).
Proof.
  induction n as [|n IH]; intros c x y k Hc Hk.
  - assert (c = 0) by (simpl in Hc; lia). subst c.
    rewrite !get_isbn_code_pos_loop_unfold. simpl.
    split; f_equal; lia.
  - rewrite !get_isbn_code_pos_loop_unfold.
    destruct (decide (c > 0)) as [Hpos|Hnpos].
    + assert (Hc' : 0 <= c / 10 < 10 ^ Z.of_nat n).
      { rewrite Nat2Z.inj_succ, Z.pow_succ_r in Hc by lia.
        split; [apply Z.div_pos; lia|apply Z.div_lt_upper_bound; lia]. }
      cbn zeta.
      replace (2 * k / 2) with k by (apply Z.div_unique_exact; lia).
      replace ((2 * k + 1) / 2) with k
        by (apply Z.div_unique with (r := 1); lia).
      destruct (decide ((2 * k) mod 2 = 0)) as [_|Hne];
        [|exfalso; apply Hne; rewrite Z.mul_comm; apply Z.mod_mul; lia].
      destruct (decide ((2 * k + 1) mod 2 = 0)) as [He|_];
        [exfalso; rewrite Z.add_comm, Z.mul_comm, Z.mod_add in He by lia;
         discriminate|].
      destruct (IH (c / 10) (x + c mod 10 * 10 ^ k) y k Hc' Hk) as [_ IH1].
      destruct (IH (c / 10) x (y + c mod 10 * 10 ^ k) (k + 1) Hc' ltac:(lia))
        as [IH2 _].
      replace (2 * k + 1 + 1) with (2 * (k + 1)) by lia.
      rewrite IH1, IH2. simpl.
      destruct (deinterleave n (c / 10)) as [a b]. simpl.
      rewrite Z.pow_add_r by lia.
      split; f_equal; lia.
    + assert (c = 0) by lia. subst c. rewrite deinterleave_0. simpl.
      split; f_equal; lia.
Qed.

Lemma deinterleave_range n : forall c,
  0 <= c < 10 ^ Z.of_nat n ->
  0 <= (deinterleave n c).1 < 10 ^ Z.of_nat (x_digits n) /\
  0 <= (deinterleave n c).2 < 10 ^ Z.of_nat (y_digits n).
Proof.
  induction n as [|n IH]; intros c Hc; [simpl; lia|].
  assert (Hc' : 0 <= c / 10 < 10 ^ Z.of_nat n).
  { rewrite Nat2Z.inj_succ, Z.pow_succ_r in Hc by lia.
    split; [apply Z.div_pos; lia|apply Z.div_lt_upper_bound; lia]. }
  specialize (IH _ Hc'). cbn [deinterleave].
  destruct (deinterleave n (c / 10)) as [a b]. cbn [fst snd] in *.
  change (x_digits (S n)) with (S (y_digits n)).
  change (y_digits (S n)) with (x_digits n).
  rewrite Nat2Z.inj_succ, Z.pow_succ_r by lia.
  pose proof (Z.mod_pos_bound c 10). lia.
Qed.

Lemma interleave_deinterleave n : forall c,
  0 <= c < 10 ^ Z.of_nat n ->
  interleave n (deinterleave n c).1 (deinterleave n c).2 = c.
Proof.
  induction n as [|n IH]; intros c Hc; [simpl in *; lia|].
  assert (Hc' : 0 <= c / 10 < 10 ^ Z.of_nat n).
  { rewrite Nat2Z.inj_succ, Z.pow_succ_r in Hc by lia.
    split; [apply Z.div_pos; lia|apply Z.div_lt_upper_bound; lia]. }
  specialize (IH _ Hc'). cbn [deinterleave interleave].
  destruct (deinterleave n (c / 10)) as [a b]. cbn [fst snd] in *.
  pose proof (Z.mod_pos_bound c 10 ltac:(lia)).
  replace ((c mod 10 + 10 * b) mod 10) with (c mod 10)
    by (apply Z.mod_unique with (q := b); lia).
  replace ((c mod 10 + 10 * b) / 10) with b
    by (apply Z.div_unique with (r := c mod 10); lia).
  rewrite IH. pose proof (Z.div_mod c 10). lia.
Qed.

Lemma deinterleave_interleave n : forall x y,
  0 <= x < 10 ^ Z.of_nat (x_digits n) ->
  0 <= y < 10 ^ Z.of_nat (y_digits n) ->
  0 <= interleave n x y < 10 ^ Z.of_nat n /\
  deinterleave n (interleave n x y) = (x, y).
Proof.
  induction n as [|n IH]; intros x y Hx Hy.
  - simpl in *. split; [lia|]. f_equal; lia.
  - change (x_digits (S n)) with (S (y_digits n)) in Hx.
    change (y_digits (S n)) with (x_digits n) in Hy.
    rewrite Nat2Z.inj_succ, Z.pow_succ_r in Hx by lia.
    assert (Hx' : 0 <= x / 10 < 10 ^ Z.of_nat (y_digits n)).
    { split; [apply Z.div_pos; lia|apply Z.div_lt_upper_bound; lia]. }
    destruct (IH y (x / 10) Hy Hx') as [Hr Hd].
    cbn [deinterleave interleave].
    pose proof (Z.mod_pos_bound x 10 ltac:(lia)).
    set (I := interleave n y (x / 10)) in *.
    replace ((x mod 10 + 10 * I) mod 10) with (x mod 10)
      by (apply Z.mod_unique with (q := I); lia).
    replace ((x mod 10 + 10 * I) / 10) with I
      by (apply Z.div_unique with (r := x mod 10); lia).
    rewrite Hd. rewrite Nat2Z.inj_succ, Z.pow_succ_r by lia.
    split; [lia|]. f_equal. pose proof (Z.div_mod x 10). lia.
Qed.

Lemma get_isbn_code_pos_deinterleave n code :
  0 <= code < 10 ^ Z.of_nat n ->
  get_isbn_code_pos code = deinterleave n code.
Proof.
  intros Hc. unfold get_isbn_code_pos.
  destruct (loop_deinterleave n code 0 0 0 Hc ltac:(lia)) as [Hl _].
  change (2 * 0) with 0 in Hl. rewrite Hl.
  destruct (deinterleave n code) as [a b]. simpl. f_equal; lia.
Qed.

Lemma deinterleave_8_digits code :
  deinterleave 8 code =
    (decimal_digit code 0 + 10 * decimal_digit code 2
       + 100 * decimal_digit code 4 + 1000 * decimal_digit code 6,
     decimal_digit code 1 + 10 * decimal_digit code 3
       + 100 * decimal_digit code 5 + 1000 * decimal_digit code 7).
Proof.
  unfold decimal_digit. cbn [deinterleave].
  rewrite !Z.div_div by lia.
  change (10 ^ 0) with 1. change (10 ^ 1) with 10. change (10 ^ 2) with 100.
  change (10 ^ 3) with 1000. change (10 ^ 4) with 10000.
  change (10 ^ 5) with 100000. change (10 ^ 6) with 1000000.
  change (10 ^ 7) with 10000000.
  rewrite Z.div_1_r.
  change (10 * 10) with 100. change (100 * 10) with 1000.
  change (100 * 100) with 10000. change (10000 * 10) with 100000.
  change (10000 * 100) with 1000000. change (1000000 * 10) with 10000000.
  f_equal; lia.
Qed.

(** C5: restricted to [0, 10^8), [get_isbn_code_pos] is a bijection onto
    [0, 10^4) x [0, 10^4); [x] is made of the decimal digits at even indices
    (least significant first) and [y] of those at odd indices. *)
Theorem get_isbn_code_pos_bijection :
  (forall code, 0 <= code < 10 ^ 8 ->
     get_isbn_code_pos code =
       (decimal_digit code 0 + 10 * decimal_digit code 2
          + 100 * decimal_digit code 4 + 1000 * decimal_digit code 6,
        decimal_digit code 1 + 10 * decimal_digit code 3
          + 100 * decimal_digit code 5 + 1000 * decimal_digit code 7) /\
     0 <= (get_isbn_code_pos code).1 < 10 ^ 4 /\
     0 <= (get_isbn_code_pos code).2 < 10 ^ 4) /\
  (forall c1 c2, 0 <= c1 < 10 ^ 8 -> 0 <= c2 < 10 ^ 8 ->
     get_isbn_code_pos c1 = get_isbn_code_pos c2 -> c1 = c2) /\
  (forall x y, 0 <= x < 10 ^ 4 -> 0 <= y < 10 ^ 4 ->
     exists code, 0 <= code < 10 ^ 8 /\ get_isbn_code_pos code = (x, y)).
Proof.
  split; [|split].
  - intros code Hc.
    rewrite (get_isbn_code_pos_deinterleave 8 code Hc).
    split; [apply deinterleave_8_digits|].
    apply (deinterleave_range 8 code Hc).
  - intros c1 c2 H1 H2 Heq.
    rewrite (get_isbn_code_pos_deinterleave 8 c1 H1) in Heq.
    rewrite (get_isbn_code_pos_deinterleave 8 c2 H2) in Heq.
    rewrite <- (interleave_deinterleave 8 c1 H1).
    rewrite <- (interleave_deinterleave 8 c2 H2).
    by rewrite Heq.
  - intros x y Hx Hy.
    destruct (deinterleave_interleave 8 x y Hx Hy) as [Hr Hd].
    exists (interleave 8 x y). split; [exact Hr|].
    by rewrite (get_isbn_code_pos_deinterleave 8 _ Hr).
Qed.

Lemma get_isbn_code_pos_bijection_witness :
  0 <= 12345678 < 10 ^ 8 /\
  get_isbn_code_pos 12345678 =
    (decimal_digit 12345678 0 + 10 * decimal_digit 12345678 2
       + 100 * decimal_digit 12345678 4 + 1000 * decimal_digit 12345678 6,
     decimal_digit 12345678 1 + 10 * decimal_digit 12345678 3
       + 100 * decimal_digit 12345678 5 + 1000 * decimal_digit 12345678 7).
Proof.
  split; [lia|].
  apply (proj1 get_isbn_code_pos_bijection 12345678). lia.
Defined.

End GetIsbnCodePos.

(** ** get_pos *)
Section GetPos.
Import Common.

(** *** Rounding to binary64 *)

Lemma Qpow2_pos e : (0 < 2 ^ e)%Q.
Proof. apply Qpower_0_lt. reflexivity. Qed.

Lemma Qpow2_nonneg_exp k : 0 <= k -> (2 ^ k == inject_Z (2 ^ k))%Q.
Proof. intros Hk. symmetry. apply (Zpower_Qpower 2 k Hk). Qed.

Lemma Qpow2_mono a b : a <= b -> (2 ^ a <= 2 ^ b)%Q.
Proof.
  intros Hab. replace b with (a + (b - a)) by lia.
  rewrite Qpower_plus by discriminate.
  rewrite (Qpow2_nonneg_exp (b - a)) by lia.
  pose proof (Qpow2_pos a) as Ha.
  assert (H1 : (1 <= inject_Z (2 ^ (b - a)))%Q).
  { change 1%Q with (inject_Z 1). rewrite <- Zle_Qle.
    pose proof (Z.pow_pos_nonneg 2 (b - a)). lia. }
  rewrite <- (Qmult_1_r (2 ^ a)) at 1.
  apply Qmult_le_l; assumption.
Qed.

Lemma Qlog2_lower q : (0 < q)%Q -> (2 ^ Qlog2 q <= q)%Q.
Proof.
  intros Hq. unfold Qlog2.
  set (a := Z.log2 (Qnum q)). set (b := Z.log2 (Zpos (Qden q))).
  destruct (Qle_bool (2 ^ (a - b)) q) eqn:E.
  - by apply Qle_bool_iff.
  - clear E. destruct q as [n d]. unfold a, b in *. clear a b.
    simpl Qnum. simpl Qden.
    assert (Hn : 0 < n) by (unfold Qlt in Hq; simpl in Hq; lia).
    pose proof (Z.log2_nonneg n) as Ha.
    pose proof (Z.log2_nonneg (Zpos d)) as Hb.
    destruct (Z.log2_spec n Hn) as [Hn1 _].
    destruct (Z.log2_spec (Zpos d) ltac:(lia)) as [_ Hd2].
    replace (Z.log2 n - Z.log2 (Z.pos d) - 1)
      with (Z.log2 n + - (Z.log2 (Z.pos d) + 1)) by lia.
    rewrite Qpower_plus by discriminate.
    rewrite Qpower_opp.
    rewrite !Qpow2_nonneg_exp by lia.
    replace (Z.succ (Z.log2 (Z.pos d))) with (Z.log2 (Z.pos d) + 1) in Hd2
      by lia.
    set (A := 2 ^ Z.log2 n) in *.
    set (B := 2 ^ (Z.log2 (Z.pos d) + 1)) in *.
    assert (HB : 0 < B) by lia.
    apply Qle_shift_div_r.
    + change 0%Q with (inject_Z 0). rewrite <- Zlt_Qlt. exact HB.
    + unfold Qle, Qmult, inject_Z. simpl. nia.
Qed.

(** [Qlog2] is the floor of the binary logarithm. *)
Lemma Qlog2_spec q :
  (0 < q)%Q -> (2 ^ Qlog2 q <= q)%Q /\ (q < 2 ^ (Qlog2 q + 1))%Q.
Proof.
  intros Hq. split; [by apply Qlog2_lower|]. unfold Qlog2.
  set (a := Z.log2 (Qnum q)). set (b := Z.log2 (Zpos (Qden q))).
  destruct (Qle_bool (2 ^ (a - b)) q) eqn:E.
  - clear E. destruct q as [n d]. unfold a, b in *. clear a b.
    simpl Qnum. simpl Qden.
    assert (Hn : 0 < n) by (unfold Qlt in Hq; simpl in Hq; lia).
    pose proof (Z.log2_nonneg n) as Ha.
    pose proof (Z.log2_nonneg (Zpos d)) as Hb.
    destruct (Z.log2_spec n Hn) as [_ Hn2].
    destruct (Z.log2_spec (Zpos d) ltac:(lia)) as [Hd1 _].
    replace (Z.log2 n - Z.log2 (Z.pos d) + 1)
      with (Z.log2 n + 1 + - Z.log2 (Z.pos d)) by lia.
    rewrite Qpower_plus by discriminate.
    rewrite Qpower_opp.
    rewrite !Qpow2_nonneg_exp by lia.
    replace (Z.succ (Z.log2 n)) with (Z.log2 n + 1) in Hn2 by lia.
    set (A := 2 ^ (Z.log2 n + 1)) in *.
    set (B := 2 ^ Z.log2 (Z.pos d)) in *.
    assert (HB : 0 < B) by lia.
    apply Qlt_shift_div_l.
    + change 0%Q with (inject_Z 0). rewrite <- Zlt_Qlt. exact HB.
    + unfold Qlt, Qmult, inject_Z. simpl. nia.
  - replace (a - b - 1 + 1) with (a - b) by lia.
    apply Qnot_le_lt. intros Hle. apply Qle_bool_iff in Hle. congruence.
Qed.

Lemma round_half_even_ge q (M : Z) :
  (inject_Z M <= q)%Q -> M <= round_half_even q.
Proof.
  intros HM. unfold round_half_even.
  pose proof (Qlt_floor q) as Hf.
  assert (M <= Qfloor q).
  { assert (inject_Z M < inject_Z (Qfloor q + 1))%Q as Hlt by lra.
    rewrite <- Zlt_Qlt in Hlt. lia. }
  destruct (_ ?= _)%Q; [destruct (Z.even _)|..]; lia.
Qed.

Lemma round_half_even_le q (M : Z) :
  (q <= inject_Z M)%Q -> round_half_even q <= M.
Proof.
  intros HM. unfold round_half_even.
  pose proof (Qfloor_le q) as Hf.
  assert (Hle : Qfloor q <= M).
  { assert (inject_Z (Qfloor q) <= inject_Z M)%Q as Hle by lra.
    by rewrite <- Zle_Qle in Hle. }
  assert (Hup : (inject_Z (Qfloor q) < q)%Q -> Qfloor q + 1 <= M).
  { intros Hlt. assert (inject_Z (Qfloor q) < inject_Z M)%Q as H by lra.
    rewrite <- Zlt_Qlt in H. lia. }
  destruct (_ ?= _)%Q eqn:E.
  - apply Qeq_alt in E. destruct (Z.even _); [lia|]. apply Hup. lra.
  - lia.
  - apply Qgt_alt in E. apply Hup. lra.
Qed.

Lemma on_grid_scaled g e :
  on_grid g -> e <= -10 -> exists M : Z, (g == inject_Z M * 2 ^ e)%Q.
Proof.
  intros [m Hm] He. exists (m * 2 ^ (-10 - e)).
  rewrite Hm, inject_Z_mult, <- Qpow2_nonneg_exp by lia.
  rewrite <- Qmult_assoc, <- Qpower_plus by discriminate.
  replace (-10 - e + e) with (-10) by lia.
  unfold Qeq. simpl. lia.
Qed.

(** Rounding keeps a value below [2^20] between the grid points around
    it. *)
Lemma round64_between (t lo hi : Q) :
  on_grid lo -> on_grid hi ->
  (0 <= t)%Q -> (lo <= t)%Q -> (t <= hi)%Q -> (t < 1048576)%Q ->
  (lo <= round64 t)%Q /\ (round64 t <= hi)%Q.
Proof.
  intros Hlo Hhi H0 Hl Hh Hb. unfold round64.
  destruct (Qeq_bool t 0) eqn:E.
  - apply Qeq_bool_iff in E. split; lra.
  - assert (Ht : (0 < t)%Q).
    { apply Qeq_bool_neq in E. destruct (Qlt_le_dec 0 t) as [|Hle]; [done|].
      exfalso. apply E. lra. }
    set (e := Z.max (Qlog2 (Qabs t) - 52) (-1074)).
    assert (He : e <= -10).
    { assert (Hlog : Qlog2 (Qabs t) < 20).
      { destruct (Z_lt_le_dec (Qlog2 (Qabs t)) 20) as [|Hge]; [done|].
        exfalso.
        assert (Ha : (0 < Qabs t)%Q) by (rewrite Qabs_pos; lra).
        pose proof (Qlog2_lower _ Ha) as Hlow.
        pose proof (Qpow2_mono _ _ Hge) as Hm.
        assert (Habs : (Qabs t == t)%Q) by (apply Qabs_pos; lra).
        change (2 ^ 20)%Q with 1048576%Q in Hm. lra. }
      unfold e. lia. }
    pose proof (Qpow2_pos e) as Hu.
    rewrite Qred_correct.
    destruct (on_grid_scaled lo e Hlo He) as [Ml HMl].
    destruct (on_grid_scaled hi e Hhi He) as [Mh HMh].
    split.
    + rewrite HMl. apply Qmult_le_compat_r; [|lra].
      rewrite <- Zle_Qle. apply round_half_even_ge.
      apply Qle_shift_div_l; [done|]. by rewrite <- HMl.
    + rewrite HMh. apply Qmult_le_compat_r; [|lra].
      rewrite <- Zle_Qle. apply round_half_even_le.
      apply Qle_shift_div_r; [done|]. by rewrite <- HMh.
Qed.

Lemma on_grid_int (z : Z) : on_grid (inject_Z z).
Proof. exists (z * 1024). unfold Qeq. simpl. lia. Qed.

Lemma on_grid_plus (z m : Z) : on_grid (inject_Z z + (m # 1024)).
Proof. exists (z * 1024 + m). unfold Qeq. simpl. lia. Qed.

Lemma on_grid_frac (m : Z) : on_grid (m # 1024).
Proof. by exists m. Qed.

(** An [int] of [get_pos] is converted to float without rounding. *)
Lemma round64_int (z : Z) :
  0 <= z < 1048576 ->
  (inject_Z z <= round64 (inject_Z z))%Q /\
  (round64 (inject_Z z) <= inject_Z z)%Q.
Proof.
  intros [H0 H1].
  assert ((0 <= inject_Z z)%Q)
    by (change 0%Q with (inject_Z 0); by rewrite <- Zle_Qle).
  assert ((inject_Z z < 1048576)%Q)
    by (change 1048576%Q with (inject_Z 1048576); by rewrite <- Zlt_Qlt).
  apply round64_between; try apply on_grid_int; lra.
Qed.

(** [digit * 10 ** n] for a negative [n]: the product is between 0 and 9
    times the grid point above the power. *)
Lemma digit_times_pow (d k : Z) (p : Q) :
  digit_range d -> 0 <= k <= 1024 ->
  (0 <= p)%Q -> (p <= k # 1024)%Q ->
  (0 <= round64 (round64 (inject_Z d) * p))%Q /\
  (round64 (round64 (inject_Z d) * p) <= 9 * k # 1024)%Q.
Proof.
  intros [Hd0 Hd9] Hk Hp0 Hp1.
  destruct (round64_int d ltac:(lia)) as [Hr0 Hr1].
  assert (Hd0' : (0 <= inject_Z d)%Q)
    by (change 0%Q with (inject_Z 0); by rewrite <- Zle_Qle).
  assert (Hd9' : (inject_Z d <= 9)%Q)
    by (change 9%Q with (inject_Z 9); by rewrite <- Zle_Qle).
  set (r := round64 (inject_Z d)) in *.
  assert (Hk1 : ((k # 1024) <= 1)%Q) by (unfold Qle; simpl; lia).
  assert (Hk9 : ((9 * k # 1024) == 9 * (k # 1024))%Q)
    by (unfold Qeq; simpl; lia).
  assert (Hprod0 : (0 <= r * p)%Q) by (apply Qmult_le_0_compat; lra).
  assert (Hprod1 : (r * p <= 9 * (k # 1024))%Q).
  { apply Qle_trans with (9 * p)%Q.
    - apply Qmult_le_compat_r; lra.
    - apply Qmult_le_l; [reflexivity|done]. }
  apply round64_between.
  - apply (on_grid_int 0).
  - apply on_grid_frac.
  - done.
  - done.
  - lra.
  - lra.
Qed.

(** [10 ** -1] and [10 ** -2] between their neighbours on the grid. *)
Lemma pow10_minus_1 :
  (0 <= round64 ((10 # 1) ^ (-1)))%Q /\
  (round64 ((10 # 1) ^ (-1)) <= 103 # 1024)%Q.
Proof.
  apply round64_between;
    [apply (on_grid_int 0)|apply on_grid_frac|..];
    unfold Qle, Qlt; simpl; lia.
Qed.

Lemma pow10_minus_2 :
  (0 <= round64 ((10 # 1) ^ (-2)))%Q /\
  (round64 ((10 # 1) ^ (-2)) <= 11 # 1024)%Q.
Proof.
  apply round64_between;
    [apply (on_grid_int 0)|apply on_grid_frac|..];
    unfold Qle, Qlt; simpl; lia.
Qed.

(** Adding a float between 0 and [m/1024] to an [int] [z]. *)
Lemma int_plus_float (z m : Z) (a : Q) :
  0 <= z < 1000000 -> 0 <= m <= 1024 ->
  (0 <= a)%Q -> (a <= m # 1024)%Q ->
  (inject_Z z <= round64 (round64 (inject_Z z) + a))%Q /\
  (round64 (round64 (inject_Z z) + a) <= inject_Z z + (m # 1024))%Q.
Proof.
  intros Hz Hm Ha0 Ha1.
  destruct (round64_int z ltac:(lia)) as [Hr0 Hr1].
  assert ((0 <= inject_Z z)%Q)
    by (change 0%Q with (inject_Z 0); rewrite <- Zle_Qle; lia).
  assert ((inject_Z z < 1000000)%Q)
    by (change 1000000%Q with (inject_Z 1000000); rewrite <- Zlt_Qlt; lia).
  assert (((m # 1024) <= 1)%Q) by (unfold Qle; simpl; lia).
  apply round64_between.
  - apply on_grid_int.
  - apply on_grid_plus.
  - lra.
  - lra.
  - lra.
  - lra.
Qed.

(** *** The loop *)

Lemma get_pos_step_row x y n d :
  get_pos_step (mk_get_pos_state x y n true) d =
  mk_get_pos_state x (py_add y (py_mul (PyInt d) (py_pow10 n))) n false.
Proof. reflexivity. Qed.

Lemma get_pos_step_col_fold x y d :
  get_pos_step (mk_get_pos_state x y 4 false) d =
  mk_get_pos_state
    (py_mod (py_add x (py_mul (PyInt d) (py_pow10 4))) 50000)
    (py_add (py_mul (PyInt 2) y)
            (py_floordiv (py_add x (py_mul (PyInt d) (py_pow10 4))) 50000))
    3 true.
Proof. reflexivity. Qed.

Lemma get_pos_step_col x y n d :
  n <> 4 ->
  get_pos_step (mk_get_pos_state x y n false) d =
  mk_get_pos_state (py_add x (py_mul (PyInt d) (py_pow10 n))) y (n - 1) true.
Proof.
  intros Hn. unfold get_pos_step. simpl.
  by destruct (Z.eqb_spec n 4).
Qed.

Lemma py_pow10_int n : 0 <= n -> py_pow10 n = PyInt (10 ^ n).
Proof. intros Hn. unfold py_pow10. by rewrite decide_True. Qed.

(** While [n] is not negative, [x] and [y] are [int]s: no float has been
    added yet.  In particular [x] is an [int] where [get_pos] divides. *)
Lemma get_pos_ints digits :
  0 <= gp_n (fold_left get_pos_step digits get_pos_init) ->
  exists zx zy,
    gp_x (fold_left get_pos_step digits get_pos_init) = PyInt zx /\
    gp_y (fold_left get_pos_step digits get_pos_init) = PyInt zy.
Proof.
  induction digits as [|d digits IH] using rev_ind.
  - intros _. by exists 0, 0.
  - rewrite fold_left_app. simpl fold_left.
    destruct (fold_left get_pos_step digits get_pos_init) as [x y n is_row].
    simpl in IH. destruct is_row.
    + rewrite get_pos_step_row. simpl. intros Hn.
      destruct (IH Hn) as (zx & zy & -> & ->).
      rewrite py_pow10_int by done. by eexists _, _.
    + destruct (decide (n = 4)) as [->|Hne].
      * rewrite get_pos_step_col_fold. simpl. intros _.
        destruct IH as (zx & zy & -> & ->); [done|]. by eexists _, _.
      * rewrite get_pos_step_col by done. simpl. intros Hn.
        destruct IH as (zx & zy & -> & ->); [lia|].
        rewrite py_pow10_int by lia. by eexists _, _.
Qed.

Lemma get_pos_digits_13 d0 d1 d2 d3 d4 d5 d6 d7 d8 d9 d10 d11 d12 :
  get_pos_digits [d0; d1; d2; d3; d4; d5; d6; d7; d8; d9; d10; d11; d12] =
  (PyFloat
     (round64
        (round64
           (inject_Z ((0 + d1 * 10000) mod 50000
                      + d3 * 1000 + d5 * 100 + d7 * 10 + d9 * 1))
         + round64 (round64 (inject_Z d11) * round64 ((10 # 1) ^ (-1))))),
   PyFloat
     (round64
        (round64
           (round64
              (inject_Z (2 * (0 + d0 * 10000) + (0 + d1 * 10000) / 50000
                         + d2 * 1000 + d4 * 100 + d6 * 10 + d8 * 1))
            + round64 (round64 (inject_Z d10) * round64 ((10 # 1) ^ (-1))))
         + round64 (round64 (inject_Z d12) * round64 ((10 # 1) ^ (-2)))))).
Proof.
  unfold get_pos_digits, get_pos_init. cbn [fold_left].
  rewrite get_pos_step_row, get_pos_step_col_fold.
  rewrite get_pos_step_row, get_pos_step_col by done.
  rewrite get_pos_step_row, get_pos_step_col by done.
  rewrite get_pos_step_row, get_pos_step_col by done.
  rewrite get_pos_step_row, get_pos_step_col by done.
  rewrite get_pos_step_row, get_pos_step_col by done.
  rewrite get_pos_step_row.
  reflexivity.
Qed.

Lemma get_pos_digits_bounds d0 d1 d2 d3 d4 d5 d6 d7 d8 d9 d10 d11 d12 :
  Forall digit_range [d0; d1; d2; d3; d4; d5; d6; d7; d8; d9; d10; d11; d12] ->
  let '(x, y) :=
    get_pos_digits [d0; d1; d2; d3; d4; d5; d6; d7; d8; d9; d10; d11; d12] in
  (0 <= value x)%Q /\ (value x < 50000)%Q /\ (0 <= value y)%Q /\
  ((value y < 40000)%Q <-> d0 <= 1).
Proof.
  intros Hall. rewrite get_pos_digits_13.
  repeat (apply Forall_cons in Hall as [? Hall]).
  unfold digit_range in *.
  set (X := (0 + d1 * 10000) mod 50000
            + d3 * 1000 + d5 * 100 + d7 * 10 + d9 * 1).
  set (Y := 2 * (0 + d0 * 10000) + (0 + d1 * 10000) / 50000
            + d2 * 1000 + d4 * 100 + d6 * 10 + d8 * 1).
  assert (HX : 0 <= X <= 49999).
  { unfold X. pose proof (Z.div_mod (0 + d1 * 10000) 50000 ltac:(lia)).
    pose proof (Z.mod_pos_bound (0 + d1 * 10000) 50000 ltac:(lia)). lia. }
  assert (HY : 20000 * d0 <= Y <= 20000 * d0 + 10000).
  { unfold Y. pose proof (Z.div_mod (0 + d1 * 10000) 50000 ltac:(lia)).
    pose proof (Z.mod_pos_bound (0 + d1 * 10000) 50000 ltac:(lia)). lia. }
  clearbody X Y.
  destruct pow10_minus_1 as [Hp1 Hp1'], pow10_minus_2 as [Hp2 Hp2'].
  destruct (digit_times_pow d11 103 _ ltac:(done) ltac:(lia) Hp1 Hp1')
    as [Ha0 Ha1].
  destruct (digit_times_pow d10 103 _ ltac:(done) ltac:(lia) Hp1 Hp1')
    as [Hb0 Hb1].
  destruct (digit_times_pow d12 11 _ ltac:(done) ltac:(lia) Hp2 Hp2')
    as [Hc0 Hc1].
  change (9 * 103) with 927 in *. change (9 * 11) with 99 in *.
  destruct (int_plus_float X 927 _ ltac:(lia) ltac:(lia) Ha0 Ha1)
    as [Hx0 Hx1].
  destruct (int_plus_float Y 927 _ ltac:(lia) ltac:(lia) Hb0 Hb1)
    as [Hy0 Hy1].
  set (a := round64 (round64 (inject_Z d11) * _)) in *.
  set (b := round64 (round64 (inject_Z d10) * _)) in *.
  set (c := round64 (round64 (inject_Z d12) * _)) in *.
  set (x := round64 (round64 (inject_Z X) + a)) in *.
  set (y1 := round64 (round64 (inject_Z Y) + b)) in *.
  assert (HXq : (0 <= inject_Z X)%Q /\ (inject_Z X <= 49999)%Q).
  { split; [change 0%Q with (inject_Z 0)|change 49999%Q with (inject_Z 49999)];
      rewrite <- Zle_Qle; lia. }
  assert (HYq : (0 <= inject_Z Y)%Q /\ (inject_Z Y <= 190000)%Q).
  { split; [change 0%Q with (inject_Z 0)|change 190000%Q with (inject_Z 190000)];
      rewrite <- Zle_Qle; lia. }
  assert (Hy : (inject_Z Y <= round64 (y1 + c))%Q /\
               (round64 (y1 + c) <= inject_Z Y + (1026 # 1024))%Q).
  { apply round64_between.
    - apply on_grid_int.
    - apply on_grid_plus.
    - lra.
    - lra.
    - assert (((927 # 1024) + (99 # 1024) == 1026 # 1024)%Q) by reflexivity.
      lra.
    - assert (((927 # 1024) < 1)%Q) by reflexivity.
      assert (((99 # 1024) < 1)%Q) by reflexivity. lra. }
  simpl value.
  assert (((927 # 1024) < 1)%Q) by reflexivity.
  assert (((1026 # 1024) < 2)%Q) by reflexivity.
  split; [lra|]. split; [lra|]. split; [lra|]. split.
  - intros Hlt. destruct (decide (d0 <= 1)) as [|Hn]; [done|]. exfalso.
    assert ((40000 <= inject_Z Y)%Q)
      by (change 40000%Q with (inject_Z 40000); rewrite <- Zle_Qle; lia).
    lra.
  - intros Hd0.
    assert ((inject_Z Y <= 30000)%Q)
      by (change 30000%Q with (inject_Z 30000); rewrite <- Zle_Qle; lia).
    lra.
Qed.

Lemma is_ascii_digit_range c :
  is_ascii_digit c = true -> digit_range (digit_val c).
Proof.
  unfold is_ascii_digit, digit_range, digit_val.
  intros [H1 H2]%andb_true_iff. apply Z.leb_le in H1, H2. lia.
Qed.

Lemma digit_val_le_1 c :
  is_ascii_digit c = true ->
  digit_val c <= 1 <-> c = "0"%char \/ c = "1"%char.
Proof.
  intros Hd%is_ascii_digit_range. unfold digit_range, digit_val in *. split.
  - intros Hle.
    assert (N_of_ascii c = 48%N \/ N_of_ascii c = 49%N) as [H|H] by lia;
      [left|right]; rewrite <- (ascii_N_embedding c), H; reflexivity.
  - intros [->| ->]; vm_compute; discriminate.
Qed.

Lemma mapM_int_of_char cs :
  Forall (fun c => is_ascii_digit c = true) cs ->
  result_mapM int_of_char cs = Ok (map digit_val cs).
Proof.
  induction 1 as [|c cs Hc _ IH]; [done|].
  cbn [result_mapM map]. rewrite IH. unfold int_of_char. rewrite Hc.
  reflexivity.
Qed.

Lemma chars_length s : length (chars s) = String.length s.
Proof. induction s as [|c s IH]; simpl; [done|]. by rewrite IH. Qed.

(** C9, amended: for every string of 13 decimal digits [get_pos] returns
    [(x, y)] with [0 <= x < 50000] and [0 <= y], and [y < 40000] holds
    exactly when the first digit is 0 or 1.  [x] and [y] are the floats
    the program returns: the last three digits are added in binary64. *)
Theorem get_pos_canvas (isbn : string) :
  String.length isbn = 13%nat ->
  Forall (fun c => is_ascii_digit c = true) (chars isbn) ->
  exists x y,
    get_pos isbn = Ok (x, y) /\
    (0 <= value x)%Q /\ (value x < inject_Z WIDTH)%Q /\ (0 <= value y)%Q /\
    ((value y < inject_Z HEIGHT)%Q <->
     String.get 0 isbn = Some "0"%char \/ String.get 0 isbn = Some "1"%char).
Proof.
  intros Hlen Hdig. unfold get_pos. rewrite mapM_int_of_char by done.
  rewrite <- chars_length in Hlen.
  assert (Hget : forall c, String.get 0 isbn = Some c <-> head (chars isbn) = Some c).
  { intros c. destruct isbn; simpl; done. }
  destruct (chars isbn)
    as [|c0 [|c1 [|c2 [|c3 [|c4 [|c5 [|c6 [|c7 [|c8 [|c9 [|c10 [|c11 [|c12 [|]]]]]]]]]]]]]];
    try discriminate.
  pose proof (get_pos_digits_bounds
                (digit_val c0) (digit_val c1) (digit_val c2) (digit_val c3)
                (digit_val c4) (digit_val c5) (digit_val c6) (digit_val c7)
                (digit_val c8) (digit_val c9) (digit_val c10) (digit_val c11)
                (digit_val c12)) as Hb.
  simpl map. simpl mbind.
  destruct (get_pos_digits _) as [x y].
  destruct Hb as (Hx0 & Hx1 & Hy0 & Hy1).
  { change (Forall digit_range
              (map digit_val [c0; c1; c2; c3; c4; c5; c6; c7; c8; c9; c10; c11; c12])).
    apply Forall_map. eapply Forall_impl; [exact Hdig|].
    intros c Hc. by apply is_ascii_digit_range. }
  exists x, y. split; [reflexivity|]. repeat split; try done.
  - intros Hy. apply Hy1 in Hy. apply Forall_cons in Hdig as [Hc0 _].
    apply digit_val_le_1 in Hy; [|done].
    rewrite !Hget. simpl. destruct Hy as [->| ->]; auto.
  - intros Hf. apply Hy1. apply Forall_cons in Hdig as [Hc0 _].
    apply digit_val_le_1; [done|]. rewrite !Hget in Hf. simpl in Hf.
    destruct Hf as [Hf|Hf]; injection Hf as ->; auto.
Qed.

Lemma get_pos_canvas_witness :
  exists x y,
    get_pos "0123456789012" = Ok (x, y) /\
    (0 <= value x)%Q /\ (value x < inject_Z WIDTH)%Q /\ (0 <= value y)%Q /\
    ((value y < inject_Z HEIGHT)%Q <->
     String.get 0 "0123456789012" = Some "0"%char \/
     String.get 0 "0123456789012" = Some "1"%char).
Proof.
  apply (get_pos_canvas "0123456789012").
  - reflexivity.
  - repeat constructor.
Defined.

(** C9 as stated fails: thirteen digits that start with 9 land at
    [y = 180000]. *)
Lemma get_pos_canvas_counterexample :
  String.length "9000000000000" = 13%nat /\
  Forall (fun c => is_ascii_digit c = true) (chars "9000000000000") /\
  exists x y, get_pos "9000000000000" = Ok (x, y) /\
              ~ (value y < inject_Z HEIGHT)%Q.
Proof.
  split; [reflexivity|]. split.
  - repeat constructor.
  - eexists _, _. split; [vm_compute; reflexivity|]. by vm_compute.
Qed.

(** The floats of a 13-digit string: on [0123456789999] Python returns
    [(13579.9, 2468.9900000000002)], the binary64 values below; the exact
    sums would be [13579.9] and [2468.99]. *)
Example get_pos_floats :
  get_pos "0123456789999" =
    Ok (PyFloat (7465628977017651 # 549755813888),
        PyFloat (5429366427725333 # 2199023255552)).
Proof. vm_compute. reflexivity. Qed.

End GetPos.

(** ** ISBNsBinaryProcessor.process *)
Section RunsConservation.
Import Common.

Lemma recorded_app b1 b2 : recorded (b1 ++ b2) = (recorded b1 + recorded b2)%nat.
Proof. induction b1 as [|b b1 IH]; simpl; [done|]. rewrite IH. lia. Qed.

Lemma present_step_calls st : calls (present_step st) = S (calls st).
Proof.
  unfold present_step, calls.
  destruct (get_isbn_code_pos (position st - offset st)) as [x y].
  case_decide; simpl; rewrite ?recorded_app; simpl; rewrite ?length_app;
    simpl; lia.
Qed.

Lemma streak_calls n st :
  calls (Nat.iter n present_step st) = (n + calls st)%nat.
Proof.
  induction n as [|n IH]; simpl; [done|]. by rewrite present_step_calls, IH.
Qed.

Lemma gap_step_calls value st : calls (gap_step value st) = calls st.
Proof.
  unfold gap_step, calls.
  case_decide; simpl; rewrite ?recorded_app; simpl; lia.
Qed.

Lemma process_loop_calls ints : forall st,
  Forall (fun v => 0 <= v) ints ->
  Z.of_nat (calls (process_loop ints true st))
    = Z.of_nat (calls st) + present_total ints.
Proof.
  induction ints as [ints IH] using (induction_ltof1 _ (@length Z)).
  unfold ltof in IH. intros st Hpos.
  destruct ints as [|present [|gap ints]]; simpl.
  - lia.
  - rewrite streak_calls. apply Forall_cons in Hpos as [? _]. lia.
  - apply Forall_cons in Hpos as [? Hpos]. apply Forall_cons in Hpos as [? Hpos].
    rewrite IH by (simpl; lia || done).
    rewrite gap_step_calls, streak_calls. lia.
Qed.

Lemma int_from_bytes_little_nonneg bs : 0 <= int_from_bytes_little bs.
Proof.
  induction bs as [|b bs IH]; simpl; [done|].
  unfold byte_val. lia.
Qed.

Lemma unpack_words_nonneg : forall b, Forall (fun v => 0 <= v) (unpack_words b).
Proof.
  fix IH 1. intros [|b0 [|b1 [|b2 [|b3 rest]]]]; simpl; try constructor.
  - apply (int_from_bytes_little_nonneg [b0; b1; b2; b3]).
  - apply IH.
Qed.

(** C4: for a blob whose length is a multiple of four, read as
    little-endian 32-bit integers that alternate present and gap counts,
    the [add_to_block] calls recorded in the yielded blocks number the sum
    of the present counts. *)
Theorem runs_conservation (packed_isbns_binary : bytes) :
  (length packed_isbns_binary mod 4 = 0)%nat ->
  exists blocks,
    process (Block := list (Z * Z)) packed_isbns_binary = Ok blocks /\
    Z.of_nat (recorded blocks) = present_total (unpack_words packed_isbns_binary).
Proof.
  intros Hlen. unfold process, struct_unpack_I.
  rewrite decide_True.
  2:{ pose proof (Nat.div_mod_eq (length packed_isbns_binary) 4). lia. }
  simpl. eexists. split; [done|].
  unfold process_ints. rewrite recorded_app. simpl.
  pose proof (process_loop_calls (unpack_words packed_isbns_binary)
                (mk_process_state 0 0 create_block [])
                (unpack_words_nonneg _)) as H.
  unfold calls in H at 1 2. simpl in H. lia.
Qed.

Lemma runs_conservation_witness :
  exists blocks,
    process (Block := list (Z * Z))
      ["002"; "000"; "000"; "000"; "003"; "000"; "000"; "000"]%byte
      = Ok blocks /\
    Z.of_nat (recorded blocks) =
      present_total
        (unpack_words ["002"; "000"; "000"; "000"; "003"; "000"; "000"; "000"]%byte).
Proof.
  apply (runs_conservation
           ["002"; "000"; "000"; "000"; "003"; "000"; "000"; "000"]%byte).
  reflexivity.
Defined.

Example runs_example :
  process (Block := list (Z * Z))
    ["002"; "000"; "000"; "000"; "003"; "000"; "000"; "000";
     "001"; "000"; "000"; "000"]%byte
  = Ok [(0, [(0, 0); (1, 0); (5, 0)])].
Proof. vm_compute. reflexivity. Qed.
End RunsConservation.

(** ** decode_stream *)
Section DecoderFrames.
Import IsbnPropsDecoder.

Lemma decode_stream_cons b rest :
  decode_stream (b :: rest) =
  let size := Z.to_nat (record_size (byte_val b)) in
  if decide (length (take size rest) < size)%nat then ([], IncompleteRecord)
  else yield (decode_record (byte_val b) (take size rest))
             (decode_stream (drop size rest)).
Proof. by rewrite decode_stream_equation_2. Qed.

Lemma decode_stream_partial tail :
  tail = [] \/ partial_frame tail ->
  decode_stream tail = ([], end_of tail).
Proof.
  intros [->|Hp]; [by rewrite decode_stream_equation_1|].
  destruct tail as [|b body]; [done|].
  rewrite decode_stream_cons. cbn zeta. simpl in Hp. unfold announced in Hp.
  rewrite length_take. rewrite decide_True by lia. done.
Qed.

Lemma decode_stream_frame f rest :
  complete_frame f ->
  decode_stream (f ++ rest) = yield (decode_frame f) (decode_stream rest).
Proof.
  destruct f as [|b body]; [done|]. simpl. unfold announced. intros Hlen.
  rewrite decode_stream_cons. cbn zeta. rewrite <- Hlen.
  rewrite take_app_length, drop_app_length.
  rewrite decide_False by lia. done.
Qed.

Lemma decode_stream_frames frames tail :
  Forall complete_frame frames ->
  tail = [] \/ partial_frame tail ->
  decode_stream (concat frames ++ tail) = (map decode_frame frames, end_of tail).
Proof.
  intros Hf Ht. induction Hf as [|f frames Hc _ IH]; simpl.
  - by apply decode_stream_partial.
  - rewrite <- app_assoc, decode_stream_frame, IH by done. done.
Qed.

Lemma stream_frames_exist (stream : bytes) :
  exists frames tail,
    stream = concat frames ++ tail /\
    Forall complete_frame frames /\
    (tail = [] \/ partial_frame tail).
Proof.
  induction stream as [stream IH] using (induction_ltof1 _ (@length byte)).
  unfold ltof in IH. destruct stream as [|b rest].
  - exists [], []. auto.
  - destruct (decide (length rest < announced b)%nat) as [Hlt|Hge].
    + exists [], (b :: rest). simpl. auto.
    + destruct (IH (drop (announced b) rest)) as (frames & tail & Hs & Hf & Ht).
      { rewrite length_drop. simpl. lia. }
      exists ((b :: take (announced b) rest) :: frames), tail.
      split; [|split; [|done]].
      * simpl. rewrite <- app_assoc, <- Hs, take_drop. done.
      * constructor; [|done]. simpl. rewrite length_take. lia.
Qed.



Example decode_stream_test_single_record :
  decode_stream ["193"; "042"; "005"; "000"; "000"; "003"; "232"]%byte
  = ([mk_ISBNPropsRecord [1000] (Some 42) (Some 2020)], EndOfStream).
Proof. vm_compute. reflexivity. Qed.

Example decode_stream_test_incomplete :
  decode_stream ["193"; "042"; "005"; "000"; "000"]%byte
  = ([], IncompleteRecord).
Proof. vm_compute. reflexivity. Qed.
End DecoderFrames.

(** ** The record codec *)
Section Codec.
Import IsbnPropsDecoder DataHandler.

Lemma byte_of_Z_ok v :
  0 <= v < 256 -> exists b, byte_of_Z v = Ok b /\ byte_val b = v.
Proof.
  intros Hv. unfold byte_of_Z. rewrite decide_True by done.
  pose proof (Byte.to_of_N_option_map (Z.to_N v)) as Hm.
  replace (Z.to_N v <=? 255)%N with true in Hm by (symmetry; apply N.leb_le; lia).
  destruct (Byte.of_N (Z.to_N v)) as [b|]; [|discriminate].
  exists b. split; [done|]. unfold byte_val. simpl in Hm. injection Hm as ->. lia.
Qed.

Lemma byte_val_range b : 0 <= byte_val b < 256.
Proof. unfold byte_val. pose proof (Byte.to_N_bounded b). lia. Qed.

Lemma result_mapM_ok {A B} (f : A -> result B) (R : A -> B -> Prop) l :
  Forall (fun a => exists b, f a = Ok b /\ R a b) l ->
  exists bs, result_mapM f l = Ok bs /\ Forall2 R l bs.
Proof.
  induction 1 as [|a l (b & Hb & HR) _ (bs & Hbs & HF)]; simpl.
  - exists []. auto.
  - exists (b :: bs). rewrite Hb, Hbs. simpl. auto.
Qed.

Lemma result_mapM_map {A B C} (f : B -> result C) (g : A -> B) l :
  result_mapM (fun a => f (g a)) l = result_mapM f (map g l).
Proof. induction l as [|a l IH]; simpl; [done|]. by rewrite IH. Qed.

Lemma struct_pack_BE_I_ok v :
  0 <= v < 2 ^ 32 ->
  exists bs, struct_pack_BE_I v = Ok bs /\ length bs = 4%nat /\
             int_from_bytes_big bs = v.
Proof.
  intros Hv. unfold struct_pack_BE_I. rewrite decide_True by done.
  change 255 with (Z.ones 8). rewrite !Z.land_ones, !Z.shiftr_div_pow2 by lia.
  simpl result_mapM.
  destruct (byte_of_Z_ok ((v / 2 ^ 24) mod 2 ^ 8)) as (b3 & -> & H3);
    [apply Z.mod_pos_bound; lia|].
  destruct (byte_of_Z_ok ((v / 2 ^ 16) mod 2 ^ 8)) as (b2 & -> & H2);
    [apply Z.mod_pos_bound; lia|].
  destruct (byte_of_Z_ok ((v / 2 ^ 8) mod 2 ^ 8)) as (b1 & -> & H1);
    [apply Z.mod_pos_bound; lia|].
  destruct (byte_of_Z_ok (v mod 2 ^ 8)) as (b0 & -> & H0);
    [apply Z.mod_pos_bound; lia|].
  exists [b3; b2; b1; b0]. split; [done|]. split; [done|].
  unfold int_from_bytes_big. simpl. rewrite H3, H2, H1, H0.
  change (2 ^ 32) with 4294967296 in Hv.
  change (2 ^ 24) with 16777216. change (2 ^ 16) with 65536.
  change (2 ^ 8) with 256.
  Z.div_mod_to_equations. lia.
Qed.

(** The start byte the encoder writes carries the two flags and the
    count, and the decoder reads them back. *)
Lemma start_byte_fields (hc hy : bool) (n : Z) :
  0 <= n <= 15 ->
  let sb := Z.lor (Z.lor (Z.shiftl (bool_bit hc) 7) (Z.shiftl (bool_bit hy) 6))
                  (Z.land n 15) in
  0 <= sb < 256 /\ has_count_of sb = hc /\ has_year_of sb = hy /\
  isbn_count_of sb = n.
Proof.
  intros Hn.
  assert (Hcases : Exists (fun k => n = k) [0;1;2;3;4;5;6;7;8;9;10;11;12;13;14;15]).
  { apply Exists_exists. exists n. split; [|done].
    repeat (rewrite elem_of_cons). rewrite elem_of_nil. lia. }
  repeat (apply Exists_cons in Hcases as [->|Hcases]);
    [..|by apply Exists_nil in Hcases];
    destruct hc, hy; vm_compute; repeat split; congruence.
Qed.

Lemma read_positions_packed chunk packed :
  Forall2 (fun p bs => length bs = 4%nat /\ int_from_bytes_big bs = p) chunk packed ->
  read_positions (length chunk) (concat packed) = chunk.
Proof.
  induction 1 as [|p bs chunk packed [Hl Hv] _ IH]; simpl; [done|].
  rewrite <- Hl, take_app_length, drop_app_length. by rewrite Hv, IH.
Qed.

Lemma length_concat_packed (chunk : list Z) (packed : list bytes) :
  Forall2 (fun p bs => length bs = 4%nat /\ int_from_bytes_big bs = p) chunk packed ->
  length (concat packed) = (4 * length chunk)%nat.
Proof.
  induction 1 as [|p bs chunk packed [Hl Hv] _ IH]; simpl; [done|].
  rewrite length_app, IH, Hl. lia.
Qed.

Lemma encode_chunk_frame h y chunk :
  (length chunk <= 15)%nat ->
  Forall (fun p => 0 <= p < 2 ^ 32) chunk ->
  holdings_ok h -> year_ok y ->
  exists bs, encode_chunk h y chunk = Ok bs /\ complete_frame bs /\
             decode_frame bs = mk_ISBNPropsRecord chunk h y.
Proof.
  intros Hlen Hpos Hh Hy. unfold encode_chunk.
  destruct (start_byte_fields (bool_decide (is_Some h)) (bool_decide (is_Some y))
              (Z.of_nat (length chunk)) ltac:(lia)) as (Hsb & Hc & Hyr & Hn).
  cbn zeta in *.
  set (sb := Z.lor _ _) in *.
  destruct (byte_of_Z_ok sb Hsb) as (start & -> & Hstart).
  destruct (result_mapM_ok struct_pack_BE_I
              (fun p bs => length bs = 4%nat /\ int_from_bytes_big bs = p) chunk)
    as (packed & Hpacked & HF).
  { eapply Forall_impl; [exact Hpos|]. intros p Hp. simpl.
    destruct (struct_pack_BE_I_ok p Hp) as (bs & ? & ? & ?). eauto. }
  pose proof (read_positions_packed _ _ HF) as Hread.
  pose proof (length_concat_packed _ _ HF) as Hlenp.
  assert (Hsize : record_size sb =
            Z.of_nat (length chunk) * 4
            + (if bool_decide (is_Some h) then 1 else 0)
            + (if bool_decide (is_Some y) then 1 else 0)).
  { unfold record_size. by rewrite Hc, Hyr, Hn. }
  assert (Hfin : forall hdr : bytes,
            length hdr = ((if bool_decide (is_Some h) then 1 else 0)
                          + (if bool_decide (is_Some y) then 1 else 0))%nat ->
            complete_frame (start :: hdr ++ concat packed)).
  { intros hdr Hhdr. simpl. unfold announced.
    rewrite Hstart, Hsize, length_app, Hlenp, Hhdr.
    destruct (bool_decide (is_Some h)), (bool_decide (is_Some y)); lia. }
  destruct h as [hv|], y as [yv|]; simpl in *.
  - destruct (byte_of_Z_ok (Z.min 255 (Z.max 0 hv))) as (hb & -> & Hhb);
      [specialize (Hh hv eq_refl); lia|].
    destruct (byte_of_Z_ok (Z.min 255 (Z.max 0 (2025 - yv)))) as (yb & -> & Hyb);
      [specialize (Hy yv eq_refl); lia|].
    simpl. rewrite Hpacked. simpl. eexists. split; [done|].
    split; [apply (Hfin [hb; yb]); done|].
    simpl. rewrite Hstart. unfold decode_record. rewrite Hc, Hyr, Hn. simpl.
    rewrite Nat2Z.id, ?drop_0, Hread, Hhb, Hyb.
    specialize (Hh hv eq_refl). specialize (Hy yv eq_refl).
    f_equal; f_equal; lia.
  - destruct (byte_of_Z_ok (Z.min 255 (Z.max 0 hv))) as (hb & -> & Hhb);
      [specialize (Hh hv eq_refl); lia|].
    simpl. rewrite Hpacked. simpl. eexists. split; [done|].
    split; [apply (Hfin [hb]); done|].
    simpl. rewrite Hstart. unfold decode_record. rewrite Hc, Hyr, Hn. simpl.
    rewrite Nat2Z.id, ?drop_0, Hread, Hhb.
    specialize (Hh hv eq_refl).
    f_equal; f_equal; lia.
  - destruct (byte_of_Z_ok (Z.min 255 (Z.max 0 (2025 - yv)))) as (yb & -> & Hyb);
      [specialize (Hy yv eq_refl); lia|].
    simpl. rewrite Hpacked. simpl. eexists. split; [done|].
    split; [apply (Hfin [yb]); done|].
    simpl. rewrite Hstart. unfold decode_record. rewrite Hc, Hyr, Hn. simpl.
    rewrite Nat2Z.id, ?drop_0, Hread, Hyb.
    specialize (Hy yv eq_refl).
    f_equal; f_equal; lia.
  - simpl. rewrite Hpacked. simpl. eexists. split; [done|].
    split; [apply (Hfin []); done|].
    simpl. rewrite Hstart. unfold decode_record. rewrite Hc, Hyr, Hn. simpl.
    rewrite Nat2Z.id, ?drop_0, Hread. done.
Qed.

Lemma chunks_prefix {A} (l : list A) (m : nat) :
  concat (map (fun i => slice l i (i + 15))
              (map (fun k => (0 + k * 15)%nat) (seq 0 m)))
  = take (m * 15) l.
Proof.
  induction m as [|m IH]; [done|].
  rewrite seq_S, !map_app, concat_app, IH. simpl.
  unfold slice. rewrite app_nil_r.
  replace (m * 15 + 15 - m * 15)%nat with 15%nat by lia.
  rewrite take_take_drop. f_equal. lia.
Qed.

Lemma chunks_of_concat {A} (l : list A) : concat (chunks_of l) = l.
Proof.
  unfold chunks_of, range_step, MAX_CHUNK_SIZE. rewrite chunks_prefix.
  apply take_ge.
  pose proof (Nat.div_mod_eq (length l - 0 + (15 - 1)) 15).
  pose proof (Nat.mod_upper_bound (length l - 0 + (15 - 1)) 15). lia.
Qed.

Lemma chunks_of_Forall {A} (P : A -> Prop) (l : list A) :
  Forall P l ->
  Forall (fun c => (length c <= 15)%nat /\ Forall P c) (chunks_of l).
Proof.
  intros HP. unfold chunks_of. apply Forall_map, Forall_forall. intros i _.
  unfold slice, MAX_CHUNK_SIZE. split.
  - rewrite length_take. lia.
  - by apply Forall_take, Forall_drop.
Qed.

(** C1: for a non-empty set [P] of positions in [0, 2^32), holdings in
    [0, 255] and a year in [1770, 2025], at least one of the two present,
    decoding the bytes the encoder writes ends normally and yields records
    of at most fifteen positions each, all with that holdings count and
    year, whose positions concatenate to [sorted P]. *)
Theorem codec_round_trip (P : gset Z) (h y : option Z) :
  P <> ∅ ->
  (forall p, p ∈ P -> 0 <= p < 2 ^ 32) ->
  (forall v, h = Some v -> 0 <= v <= 255) ->
  (forall v, y = Some v -> 1770 <= v <= 2025) ->
  is_Some h \/ is_Some y ->
  exists encoded decoded,
    encode_positions P h y = Ok (Some encoded) /\
    decode_stream encoded = (decoded, EndOfStream) /\
    Forall (fun r => (length (isbn_positions r) <= 15)%nat /\
                     IsbnPropsDecoder.holdings_count r = h /\
                     IsbnPropsDecoder.year r = y) decoded /\
    concat (map isbn_positions decoded) = sorted P.
Proof.
  intros Hne Hrange Hh Hy Hsome. unfold encode_positions.
  set (l := sorted P).
  assert (Hl : Forall (fun p => 0 <= p < 2 ^ 32) l).
  { apply Forall_forall. intros p Hp. apply Hrange.
    unfold l, sorted in Hp. rewrite merge_sort_Permutation in Hp.
    by apply elem_of_elements in Hp. }
  assert (Hlen : (0 < length l)%nat).
  { unfold l, sorted. rewrite merge_sort_Permutation.
    destruct (elements P) as [|p ps] eqn:E; [|simpl; lia].
    apply elements_empty_inv in E. by apply leibniz_equiv in E. }
  replace (0 <? length l)%nat with true by (symmetry; by apply Nat.ltb_lt).
  replace (bool_decide (is_Some h) || bool_decide (is_Some y)) with true.
  2:{ symmetry. destruct Hsome as [H|H].
      - by rewrite (bool_decide_eq_true_2 _ H).
      - rewrite (bool_decide_eq_true_2 _ H). by destruct (bool_decide _). }
  simpl negb. cbv iota.
  rewrite (result_mapM_map (encode_chunk h y)
             (fun i => slice l i (i + MAX_CHUNK_SIZE))).
  fold (chunks_of l).
  destruct (result_mapM_ok (encode_chunk h y)
              (fun chunk bs => complete_frame bs /\
                               decode_frame bs = mk_ISBNPropsRecord chunk h y)
              (chunks_of l)) as (all_chunks & -> & HF).
  { eapply Forall_impl; [exact (chunks_of_Forall _ l Hl)|].
    intros chunk [Hc Hp]. by apply encode_chunk_frame. }
  assert (Hdec : map decode_frame all_chunks
                 = map (fun chunk => mk_ISBNPropsRecord chunk h y) (chunks_of l)).
  { clear -HF. induction HF as [|c bs cs bss [_ Hd] _ IH]; simpl; [done|].
    by rewrite Hd, IH. }
  assert (Hframes : Forall complete_frame all_chunks).
  { clear -HF. induction HF as [|c bs cs bss [Hc _] _ IH]; constructor; done. }
  assert (Hnonempty : all_chunks <> []).
  { intros ->. apply Forall2_nil_inv_r in HF.
    pose proof (chunks_of_concat l) as Hc. rewrite HF in Hc. simpl in Hc.
    rewrite <- Hc in Hlen. simpl in Hlen. lia. }
  exists (concat all_chunks),
         (map (fun chunk => mk_ISBNPropsRecord chunk h y) (chunks_of l)).
  split; [simpl; by destruct all_chunks|].
  split.
  { rewrite <- (app_nil_r (concat all_chunks)).
    rewrite decode_stream_frames by auto. by rewrite Hdec. }
  split.
  { apply Forall_map. eapply Forall_impl; [exact (chunks_of_Forall _ l Hl)|].
    intros chunk [Hc _]. simpl. done. }
  rewrite map_map. simpl. rewrite map_id. apply chunks_of_concat.
Qed.

Lemma codec_round_trip_witness :
  exists encoded decoded,
    encode_positions {[ 5; 1 ]} (Some 5) (Some 2000) = Ok (Some encoded) /\
    decode_stream encoded = (decoded, EndOfStream) /\
    Forall (fun r => (length (isbn_positions r) <= 15)%nat /\
                     IsbnPropsDecoder.holdings_count r = Some 5 /\
                     IsbnPropsDecoder.year r = Some 2000) decoded /\
    concat (map isbn_positions decoded) = sorted {[ 5; 1 ]}.
Proof.
  apply (codec_round_trip {[ 5; 1 ]} (Some 5) (Some 2000)).
  - intros H. apply (f_equal elements) in H. vm_compute in H. discriminate.
  - intros p Hp. apply elem_of_union in Hp as [Hp|Hp];
      apply elem_of_singleton in Hp; lia.
  - intros v Hv. injection Hv as <-. lia.
  - intros v Hv. injection Hv as <-. lia.
  - left. eexists. reflexivity.
Defined.

(** [sorted P] lists the elements of [P] in ascending order, each once. *)
Lemma sorted_spec (P : gset Z) :
  StronglySorted Z.le (sorted P) /\ NoDup (sorted P) /\
  forall p, p ∈ sorted P <-> p ∈ P.
Proof.
  unfold sorted. split; [apply StronglySorted_merge_sort; apply _|].
  split.
  - rewrite merge_sort_Permutation. apply NoDup_elements.
  - intros p. rewrite merge_sort_Permutation. apply elem_of_elements.
Qed.
End Codec.

(** ** filter_invalid_isbns *)
Section FilterIdempotent.
Import IsbnFilter.
Implicit Types S : gset string.

Lemma filter_invalid_isbns_unfold S :
  filter_invalid_isbns S =
  isbn10s_of S ∪ valid_isbn13s_of S ∪ isbns_978_of S ∪ isbns_979_of S.
Proof. reflexivity. Qed.

Lemma elem_of_filtered S x :
  x ∈ filter_invalid_isbns S <->
  x ∈ isbn10s_of S \/ x ∈ valid_isbn13s_of S \/ x ∈ isbns_978_of S \/
  x ∈ isbns_979_of S.
Proof. rewrite filter_invalid_isbns_unfold, !elem_of_union. tauto. Qed.

Lemma isbn10s_filtered S :
  isbn10s_of (filter_invalid_isbns S) = isbn10s_of S.
Proof.
  apply set_eq. intros x. unfold isbn10s_of at 1.
  rewrite elem_of_filter, elem_of_filtered.
  unfold isbn10s_of, valid_isbn13s_of, isbns_978_of, isbns_979_of,
    remaining2_of, remaining_of.
  rewrite !elem_of_filter. split; [|tauto].
  intros [H10 H]. repeat split; try done.
  destruct H as [?|[?|[?|?]]]; [tauto|..]; exfalso; intuition congruence.
Qed.

Lemma bases_filtered S : bases_of (filter_invalid_isbns S) = bases_of S.
Proof. unfold bases_of. by rewrite isbn10s_filtered. Qed.

Lemma valid_isbn13s_filtered S :
  valid_isbn13s_of (filter_invalid_isbns S) = valid_isbn13s_of S.
Proof.
  apply set_eq. intros x. unfold valid_isbn13s_of at 1.
  rewrite bases_filtered, elem_of_filter, elem_of_filtered.
  unfold isbns_979_of, remaining2_of, isbns_978_of, remaining_of, isbn10s_of.
  rewrite !elem_of_filter.
  unfold valid_isbn13s_of. rewrite !elem_of_filter.
  split; [|tauto]. intros [[H13 Hv] H]. repeat split; try done.
  destruct H as [?|[?|[?|?]]]; tauto || (exfalso; intuition congruence).
Qed.

Lemma isbns_978_remaining S x : x ∈ isbns_978_of S -> x ∈ remaining_of S.
Proof. unfold isbns_978_of. rewrite elem_of_filter. tauto. Qed.

Lemma isbns_979_remaining S x : x ∈ isbns_979_of S -> x ∈ remaining_of S.
Proof.
  unfold isbns_979_of, remaining2_of. rewrite !elem_of_filter. tauto.
Qed.

Lemma remaining_filtered S :
  remaining_of (filter_invalid_isbns S) = isbns_978_of S ∪ isbns_979_of S.
Proof.
  apply set_eq. intros x. unfold remaining_of at 1.
  rewrite valid_isbn13s_filtered, bases_filtered, elem_of_filter,
    elem_of_filtered, elem_of_union.
  split.
  - intros [(H13 & Hnv & Hnb) [H|[H|[H|H]]]]; [|done|tauto..].
    unfold isbn10s_of in H. apply elem_of_filter in H as [H10 _]. congruence.
  - intros H.
    assert (Hr : x ∈ remaining_of S)
      by (destruct H; eauto using isbns_978_remaining, isbns_979_remaining).
    unfold remaining_of in Hr. apply elem_of_filter in Hr as [Hp _].
    split; [exact Hp|tauto].
Qed.

Lemma isbns_978_filtered S :
  isbns_978_of (filter_invalid_isbns S) = isbns_978_of S.
Proof.
  apply set_eq. intros x. unfold isbns_978_of at 1.
  rewrite remaining_filtered, elem_of_filter, elem_of_union.
  unfold isbns_979_of, remaining2_of, isbns_978_of.
  rewrite !elem_of_filter. tauto.
Qed.

Lemma bases2_filtered S : bases2_of (filter_invalid_isbns S) = bases2_of S.
Proof. unfold bases2_of. by rewrite bases_filtered, isbns_978_filtered. Qed.

Lemma isbns_979_filtered S :
  isbns_979_of (filter_invalid_isbns S) = isbns_979_of S.
Proof.
  apply set_eq. intros x. unfold isbns_979_of at 1, remaining2_of at 1.
  rewrite remaining_filtered, bases2_filtered, isbns_978_filtered.
  rewrite !elem_of_filter, elem_of_union.
  unfold isbns_979_of, remaining2_of. rewrite !elem_of_filter. tauto.
Qed.

(** C8: filtering a filtered set changes nothing. *)
Theorem filter_invalid_isbns_idempotent S :
  filter_invalid_isbns (filter_invalid_isbns S) = filter_invalid_isbns S.
Proof.
  rewrite (filter_invalid_isbns_unfold (filter_invalid_isbns S)).
  rewrite isbn10s_filtered, valid_isbn13s_filtered, isbns_978_filtered,
    isbns_979_filtered.
  reflexivity.
Qed.
End FilterIdempotent.

(** ** Year candidates *)
Section YearCandidates.
Import MostLikelyYear.

(** C3: the pattern consumes the non-digit that ends a match, so a run
    that shares that character with the run before it is not extracted:
    on ["1966-1967"] the code keeps [1966] only where the claim names both
    years, and on ["1500-2000"] it returns 1500 where the claim's
    candidates give 2000. *)
Theorem extract_years_shared_boundary :
  extract_years ["1966-1967"] = [1966] /\
  spec_extract_years ["1966-1967"] = [1966; 1967] /\
  extract_most_likely_year ["1500-2000"] = Some 1500 /\
  pick_most_likely (spec_extract_years ["1500-2000"]) = Some 2000.
Proof. repeat split; vm_compute; reflexivity. Qed.

(** The literal scenarios of the year extractor. *)
Example year_scenarios :
  extract_most_likely_year ["1966"; "1966"; "1967"] = Some 1966 /\
  extract_most_likely_year ["1555"; "1555"; "1966"; "1966"] = Some 1966 /\
  extract_most_likely_year ["1965"; "1966"; "1967"] = Some 1965 /\
  extract_most_likely_year ["1449"] = None /\
  extract_most_likely_year ["19661967"] = None.
Proof. repeat split; vm_compute; reflexivity. Qed.
End YearCandidates.

(** ** The mis-prefix rewrite of the flush *)
Section Misprefix.
Import DataHandler.


Lemma _get_isbn_position_range isbn p :
  _get_isbn_position isbn = Some p -> 0 <= p < 2 ^ 32.
Proof.
  unfold _get_isbn_position. repeat case_match; intros; simplify_eq; done.
Qed.



(** Below [2 * 10^9] the guard and the claim's intervals agree. *)
Lemma rewrite_prefix_below_979 p :
  0 <= p < 2000000000 -> (misprefixed p <-> spec_misprefixed p).
Proof. unfold misprefixed, spec_misprefixed. lia. Qed.
End Misprefix.

(** ** _merge_record_data: what a group holds *)
Section MergedContent.
Import DataHandler.

Lemma merged_snoc h lines data :
  merged h (lines ++ [data]) = _merge_record_data (merged h lines) data.
Proof. unfold merged. by rewrite fold_left_app. Qed.

Lemma merge_isbns h data :
  isbns (_merge_record_data h data) = isbns h ∪ line_isbns data.
Proof.
  unfold _merge_record_data, line_isbns. simpl. f_equal.
  destruct (rec_isbns (get_record data)) as [[|i l]|],
           (rec_isbn13 (get_record data)) as [i13|];
    try case_decide; simpl; try done;
    by rewrite (right_id_L ∅ (∪)).
Qed.

Lemma max_of_snoc o l w :
  max_of o l -> max_of (merge_holdings o (Some w)) (l ++ [w]).
Proof.
  unfold max_of, is_max. destruct o as [v|]; simpl.
  - intros [Hin Hall]. destruct (Z.max_spec v w) as [[Hlt ->]|[Hle ->]].
    + split; [apply elem_of_app; right; by left|].
      apply Forall_app. split; [|by constructor].
      eapply Forall_impl; [exact Hall|]. simpl. intros; lia.
    + split; [apply elem_of_app; by left|].
      apply Forall_app. split; [done|]. constructor; [lia|done].
  - intros ->. simpl. split; [by left|]. by constructor.
Qed.

Lemma merge_holdings_max o l data :
  max_of o l ->
  max_of (merge_holdings (merge_holdings o (totalHoldingCount (get_record data)))
                         (total_holding_count (get_record data)))
         (l ++ line_holdings data).
Proof.
  intros Ho. unfold line_holdings.
  destruct (totalHoldingCount (get_record data)) as [a|],
           (total_holding_count (get_record data)) as [b|]; simpl.
  - rewrite (cons_middle a), app_assoc. by do 2 apply max_of_snoc.
  - by apply max_of_snoc.
  - by apply max_of_snoc.
  - by rewrite app_nil_r.
Qed.

Lemma merge_year_min h l data :
  min_of (year h) l ->
  min_of (year (_merge_record_data h data)) (l ++ omap id [line_year data]).
Proof.
  unfold _merge_record_data, line_year. simpl.
  destruct (MostLikelyYear.extract_most_likely_year _) as [y|]; simpl;
    [|by rewrite app_nil_r].
  case_decide; simpl; [by rewrite app_nil_r|].
  unfold min_of, is_min. destruct (year h) as [y0|].
  - intros [Hin Hall]. destruct (Z.min_spec y0 y) as [[Hlt ->]|[Hle ->]].
    + split; [apply elem_of_app; by left|].
      apply Forall_app. split; [done|]. constructor; [lia|done].
    + split; [apply elem_of_app; right; by left|].
      apply Forall_app. split; [|by constructor].
      eapply Forall_impl; [exact Hall|]. simpl. intros; lia.
  - intros ->. simpl. split; [by left|]. by constructor.
Qed.

(** The lines merged into a handler that holds nothing yet. *)
Lemma merged_content h lines :
  isbns h = ∅ -> holdings_count h = None -> year h = None ->
  isbns (merged h lines) = ⋃ (map line_isbns lines) /\
  max_of (holdings_count (merged h lines))
         (concat (map line_holdings lines)) /\
  min_of (year (merged h lines)) (omap line_year lines).
Proof.
  intros Hi0 Hh0 Hy0.
  induction lines as [|data lines IH] using rev_ind.
  - simpl. by rewrite Hi0, Hh0, Hy0.
  - destruct IH as (Hi & Hh & Hy). rewrite merged_snoc.
    split; [|split].
    + rewrite merge_isbns, Hi, map_app, union_list_app_L. simpl.
      by rewrite (right_id_L ∅ (∪)).
    + rewrite map_app, concat_app. simpl. rewrite app_nil_r.
      by apply merge_holdings_max.
    + rewrite omap_app.
      replace (omap line_year [data]) with (omap id [line_year data])
        by (simpl; by destruct (line_year data)).
      by apply merge_year_min.
Qed.

End MergedContent.

(** ** DataHandler: merging a group *)
Section MergeOrder.
Import DataHandler.

#[local] Instance same_book_equiv : Equivalence same_book.
Proof.
  split.
  - by intros h.
  - intros h1 h2 (?&?&?&?). by repeat split.
  - intros h1 h2 h3 (?&?&?&?) (?&?&?&?). repeat split; congruence.
Qed.

Lemma _create_bytes_same_book h1 h2 :
  same_book h1 h2 -> _create_bytes h1 = _create_bytes h2.
Proof. intros (_ & Hi & Hh & Hy). unfold _create_bytes. by rewrite Hi, Hh, Hy. Qed.

Lemma merge_same_book h1 h2 data :
  same_book h1 h2 ->
  same_book (_merge_record_data h1 data) (_merge_record_data h2 data).
Proof.
  intros (Hc & Hi & Hh & Hy). unfold _merge_record_data, same_book. simpl.
  by rewrite Hc, Hi, Hh, Hy.
Qed.

Lemma merge_holdings_swap h a b c d :
  merge_holdings (merge_holdings (merge_holdings (merge_holdings h a) b) c) d =
  merge_holdings (merge_holdings (merge_holdings (merge_holdings h c) d) a) b.
Proof.
  destruct h, a, b, c, d; simpl; try reflexivity; f_equal; lia.
Qed.

Lemma union_swap (X A B : gset string) : X ∪ A ∪ B = X ∪ B ∪ A.
Proof. by rewrite <- (assoc_L (∪)), (comm_L (∪) A B), (assoc_L (∪)). Qed.

Lemma merge_swap h d1 d2 :
  same_book (_merge_record_data (_merge_record_data h d1) d2)
            (_merge_record_data (_merge_record_data h d2) d1).
Proof.
  unfold _merge_record_data, same_book. simpl.
  split; [done|].
  split; [apply union_swap|].
  split; [apply merge_holdings_swap|].
  destruct (MostLikelyYear.extract_most_likely_year _) as [y1|],
           (MostLikelyYear.extract_most_likely_year _) as [y2|];
    repeat case_decide; destruct (year h); simpl; try reflexivity;
    f_equal; lia.
Qed.

Lemma merged_same_book lines : forall h1 h2,
  same_book h1 h2 -> same_book (merged h1 lines) (merged h2 lines).
Proof.
  induction lines as [|d lines IH]; intros h1 h2 Hs; simpl; [done|].
  apply IH. by apply merge_same_book.
Qed.

Lemma process_in_group oclc_id h data :
  in_group oclc_id data ->
  current_id h = None \/ current_id h = Some oclc_id ->
  process h data =
    (_merge_record_data (set_current_id (Some oclc_id) h) data, Ok None).
Proof.
  unfold in_group, process. intros -> [Hc|Hc].
  - rewrite decide_False by (rewrite Hc; intros [[? ?] _]; done).
    by rewrite Hc.
  - rewrite decide_False by (rewrite Hc; intros [_ ?]; done).
    rewrite Hc. destruct h; simpl in *. by subst.
Qed.

Lemma process_all_in_group oclc_id lines : forall h,
  Forall (in_group oclc_id) lines ->
  current_id h = None \/ current_id h = Some oclc_id ->
  exists h',
    process_all h lines = (h', Ok (map (fun _ => None) lines)) /\
    same_book h' (merged (if lines is [] then h
                          else set_current_id (Some oclc_id) h) lines).
Proof.
  induction lines as [|data lines IH]; intros h Hg Hc; simpl.
  - by exists h.
  - apply Forall_cons in Hg as [Hd Hg].
    rewrite (process_in_group oclc_id) by done.
    destruct (IH (_merge_record_data (set_current_id (Some oclc_id) h) data) Hg)
      as (h' & -> & Hsame); [by right|].
    exists h'. split; [done|]. etrans; [exact Hsame|].
    change (merged (set_current_id (Some oclc_id) h) (data :: lines))
      with (merged (_merge_record_data (set_current_id (Some oclc_id) h) data)
                   lines).
    destruct lines as [|d2 lines]; [done|].
    apply merged_same_book. unfold same_book. simpl. auto.
Qed.

Lemma merged_Permutation lines lines' :
  lines ≡ₚ lines' -> forall h, same_book (merged h lines) (merged h lines').
Proof.
  induction 1 as [|d l l' _ IH|d1 d2 l|l1 l2 l3 _ IH1 _ IH2]; intros h; simpl.
  - done.
  - apply IH.
  - apply merged_same_book, merge_swap.
  - etrans; [apply IH1|apply IH2].
Qed.

Lemma merged_current_id lines : forall h,
  current_id (merged h lines) = current_id h.
Proof. induction lines as [|d lines IH]; intros h; simpl; [done|]. by rewrite IH. Qed.

Lemma process_all_app l1 l2 : forall h,
  process_all h (l1 ++ l2) =
  match process_all h l1 with
  | (h', Ok rs) =>
      match process_all h' l2 with
      | (h'', Ok rs') => (h'', Ok (rs ++ rs'))
      | (h'', Raise e) => (h'', Raise e)
      end
  | (h', Raise e) => (h', Raise e)
  end.
Proof.
  induction l1 as [|d l1 IH]; intros h; simpl.
  - by destruct (process_all h l2) as [h'' [rs'|e]].
  - destruct (process h d) as [h1 [r|e]]; [|done].
    rewrite IH. destruct (process_all h1 l1) as [h' [rs|e]]; [|done].
    by destruct (process_all h' l2) as [h'' [rs'|e]].
Qed.

(** What a run over one group followed by the flushing line returns. *)
Lemma process_group_then_flush oclc_id lines :
  Forall (in_group oclc_id) lines ->
  (process_all init (lines ++ [flush_line])).2 =
  match lines with
  | [] => Ok [None]
  | _ =>
      match _create_bytes (merged (set_current_id (Some oclc_id) init) lines) with
      | Ok r => Ok (map (fun _ => None) lines ++ [r])
      | Raise e => Raise e
      end
  end.
Proof.
  intros Hg. rewrite process_all_app.
  destruct (process_all_in_group oclc_id lines init Hg) as (h' & -> & Hsame);
    [by left|].
  destruct lines as [|d lines].
  - destruct Hsame as (Hc & _). simpl in *. unfold process. simpl.
    by rewrite Hc.
  - rewrite <- (_create_bytes_same_book _ _ Hsame).
    pose proof Hsame as (Hc & _). rewrite merged_current_id in Hc.
    simpl in Hc. simpl process_all. unfold process. simpl oclc_number.
    cbv iota. rewrite Hc. by destruct (_create_bytes h').
Qed.

(** C7: lines that share one OCLC id, fed to a fresh handler in any
    order and followed by the flushing line, give the same encoded
    bytes (and the same exception, if verification raises).  The bytes
    are those [_create_bytes] makes of the union of the lines' ISBN
    strings, of the largest holdings field of the lines and of the
    smallest year extracted from a line. *)
Theorem merge_order_invariant (oclc_id : string) (lines lines' : list line) :
  Forall (in_group oclc_id) lines ->
  lines ≡ₚ lines' ->
  (process_all init (lines ++ [flush_line])).2 =
    (process_all init (lines' ++ [flush_line])).2 /\
  exists h,
    isbns h = ⋃ (map line_isbns lines) /\
    max_of (holdings_count h) (concat (map line_holdings lines)) /\
    min_of (year h) (omap line_year lines) /\
    (process_all init (lines ++ [flush_line])).2 =
      match lines with
      | [] => Ok [None]
      | _ => r ← _create_bytes h; Ok (map (fun _ => None) lines ++ [r])
      end.
Proof.
  intros Hg Hperm.
  assert (Hg' : Forall (in_group oclc_id) lines') by by rewrite <- Hperm.
  rewrite !(process_group_then_flush oclc_id) by done.
  split.
  - destruct lines as [|d l].
    + apply Permutation_nil_l in Hperm. by subst.
    + destruct lines' as [|d' l']; [by apply Permutation_nil_r in Hperm|].
      rewrite (_create_bytes_same_book _ _
                 (merged_Permutation _ _ Hperm
                    (set_current_id (Some oclc_id) init))).
      destruct (_create_bytes _); [|done].
      do 2 f_equal. apply Permutation_length in Hperm.
      clear -Hperm. revert Hperm. generalize (d :: l) (d' :: l').
      induction l0 as [|? ? IH]; intros [|? ?] ?; simpl in *; try lia; [done|].
      f_equal. apply IH. lia.
  - exists (merged (set_current_id (Some oclc_id) init) lines).
    destruct (merged_content (set_current_id (Some oclc_id) init) lines)
      as (Hi & Hh & Hy); [done..|].
    split; [done|]. split; [done|]. split; [done|].
    destruct lines as [|d l]; [done|].
    by destruct (_create_bytes _).
Qed.

Lemma merge_order_invariant_witness :
  (process_all init
     ([mk_line None (Some (mk_metadata (Some "1")
         (Some (mk_record_fields (Some ["9780000000019"]) None (Some 5)
                  None None None None))));
       mk_line None (Some (mk_metadata (Some "1")
         (Some (mk_record_fields None None None None None (Some "2000")
                  None))))]
      ++ [flush_line])).2 =
  (process_all init
     ([mk_line None (Some (mk_metadata (Some "1")
         (Some (mk_record_fields None None None None None (Some "2000")
                  None))));
       mk_line None (Some (mk_metadata (Some "1")
         (Some (mk_record_fields (Some ["9780000000019"]) None (Some 5)
                  None None None None))))]
      ++ [flush_line])).2 /\
  exists h,
    isbns h = {[ "9780000000019" ]} /\
    max_of (holdings_count h) [5] /\
    min_of (year h) [2000] /\
    (process_all init
       ([mk_line None (Some (mk_metadata (Some "1")
           (Some (mk_record_fields (Some ["9780000000019"]) None (Some 5)
                    None None None None))));
         mk_line None (Some (mk_metadata (Some "1")
           (Some (mk_record_fields None None None None None (Some "2000")
                    None))))]
        ++ [flush_line])).2 =
      (r ← _create_bytes h; Ok ([None; None] ++ [r])).
Proof.
  destruct (merge_order_invariant "1"
    [mk_line None (Some (mk_metadata (Some "1")
       (Some (mk_record_fields (Some ["9780000000019"]) None (Some 5)
                None None None None))));
     mk_line None (Some (mk_metadata (Some "1")
       (Some (mk_record_fields None None None None None (Some "2000")
                None))))]
    [mk_line None (Some (mk_metadata (Some "1")
       (Some (mk_record_fields None None None None None (Some "2000")
                None))));
     mk_line None (Some (mk_metadata (Some "1")
       (Some (mk_record_fields (Some ["9780000000019"]) None (Some 5)
                None None None None))))])
    as (Heq & h & Hi & Hh & Hy & Hout).
  - repeat constructor.
  - apply perm_swap.
  - split; [exact Heq|]. exists h.
    split; [rewrite Hi; vm_compute; reflexivity|].
    split; [exact Hh|]. split; [exact Hy|]. exact Hout.
Defined.

(** The scenario of the two lines above: one record, start byte [0xC1],
    holdings 5, year byte 25, position 1. *)
Example two_lines_one_record :
  (process_all init
     [mk_line None (Some (mk_metadata (Some "1")
        (Some (mk_record_fields (Some ["9780000000019"]) None (Some 5)
                 None None None None))));
      mk_line None (Some (mk_metadata (Some "1")
        (Some (mk_record_fields None None None None None (Some "2000")
                 None))));
      flush_line]).2
  = Ok [None; None;
        Some ["193"; "005"; "025"; "000"; "000"; "000"; "001"]%byte].
Proof. vm_compute. reflexivity. Qed.
End MergeOrder.

(** ** write_results *)
Section OutputOrder.
Import ProcessorMain.

Lemma write_results_queue arrival :
  write_results (queue_of arrival) = concat (map snd arrival).
Proof.
  unfold queue_of. induction arrival as [|[w b] arrival IH]; simpl; [done|].
  by rewrite IH.
Qed.

Lemma concat_ordered_arrival (puts : nat -> list bytes) (ws : list nat) :
  concat (map snd (concat (map (fun w => map (fun b => (w, b)) (puts w)) ws)))
  = concat (map (fun w => concat (puts w)) ws).
Proof.
  induction ws as [|w ws IH]; simpl; [done|].
  rewrite map_app, concat_app, IH, map_map. simpl. by rewrite map_id.
Qed.

(** C10, amended: the output file holds the buffers in the order they
    arrive on the result queue; it is the concatenation of the per-worker
    outputs in worker-id order when the buffers arrive in that order. *)
Theorem write_results_arrival_order :
  (forall arrival : list (nat * bytes),
     write_results (queue_of arrival) = concat (map snd arrival)) /\
  (forall (n : nat) (puts : nat -> list bytes),
     write_results (queue_of (ordered_arrival n puts))
     = concat (map (fun w => concat (puts w)) (seq 0 n))).
Proof.
  split; [apply write_results_queue|].
  intros n puts. rewrite write_results_queue. apply concat_ordered_arrival.
Qed.

(** C10 as stated fails: worker 1's buffer arrives before worker 0's. *)
Lemma write_results_counterexample :
  write_results (queue_of [(1%nat, ["001"%byte]); (0%nat, ["000"%byte])])
    = ["001"; "000"]%byte /\
  worker_id_order 2 [(1%nat, ["001"%byte]); (0%nat, ["000"%byte])]
    = ["000"; "001"]%byte /\
  write_results (queue_of [(1%nat, ["001"%byte]); (0%nat, ["000"%byte])])
    <> worker_id_order 2 [(1%nat, ["001"%byte]); (0%nat, ["000"%byte])].
Proof. repeat split; try (vm_compute; reflexivity). vm_compute. discriminate. Qed.

(** A worker whose range holds no line still puts one, empty, buffer. *)
Example run_empty_range :
  ProcessorWorker.run
    (ProcessorWorker.mk_worker 0 None None DataHandler.init)
    (ProcessorWorker.mk_environment [] [] []) []
  = Ok [[]].
Proof. vm_compute. reflexivity. Qed.
End OutputOrder.

(** ** process: pixels, bounds and block ids *)
Section RunsPixels.
Import Common.

Lemma pixels_app b1 b2 : pixels (b1 ++ b2) = pixels b1 ++ pixels b2.
Proof. unfold pixels. by rewrite map_app, concat_app. Qed.

Lemma pixels_snoc bs i blk xy :
  pixels (bs ++ [(i, blk ++ [xy])]) = pixels (bs ++ [(i, blk)]) ++ [(i, xy)].
Proof.
  rewrite !pixels_app. unfold pixels. simpl. rewrite !app_nil_r, map_app.
  simpl. by rewrite app_assoc.
Qed.

Lemma N_div_same p q : 0 <= p -> p / N * N <= q < p / N * N + N -> q / N = p / N.
Proof.
  unfold N. intros Hp Hq. symmetry.
  apply (Z.div_unique q 100000000 (p / 100000000) (q - p / 100000000 * 100000000));
    lia.
Qed.

Lemma present_step_aligned {Block} `{ISBNsBinaryProcessor Block}
    (st : process_state (Block := Block)) :
  aligned st -> aligned (present_step st).
Proof.
  unfold aligned, present_step. intros [Hp Ho].
  destruct (get_isbn_code_pos _) as [x y].
  case_decide; simpl; (split; [lia|]); [done|].
  rewrite Ho. symmetry. f_equal. apply N_div_same; [done|].
  pose proof (Z.mul_div_le (position st) N). unfold N in *. lia.
Qed.

Lemma gap_step_aligned {Block} `{ISBNsBinaryProcessor Block}
    value (st : process_state (Block := Block)) :
  0 <= value -> aligned st -> aligned (gap_step value st).
Proof.
  unfold aligned, gap_step. intros Hv [Hp Ho].
  case_decide; simpl; (split; [lia|]); [done|].
  rewrite Ho. symmetry. f_equal. apply N_div_same; [done|].
  pose proof (Z.mul_div_le (position st) N). unfold N in *. lia.
Qed.

Lemma present_step_position {Block} `{ISBNsBinaryProcessor Block}
    (st : process_state (Block := Block)) :
  position (present_step st) = position st + 1.
Proof.
  unfold present_step. destruct (get_isbn_code_pos _). by case_decide.
Qed.

Lemma streak_position {Block} `{ISBNsBinaryProcessor Block}
    n (st : process_state (Block := Block)) :
  position (Nat.iter n present_step st) = position st + Z.of_nat n.
Proof.
  induction n as [|n IH]; [simpl; lia|].
  rewrite Nat.iter_succ, present_step_position, IH. lia.
Qed.

Lemma streak_aligned {Block} `{ISBNsBinaryProcessor Block}
    n (st : process_state (Block := Block)) :
  aligned st -> aligned (Nat.iter n present_step st).
Proof.
  intros Hst. induction n as [|n IH]; [done|].
  rewrite Nat.iter_succ. by apply present_step_aligned.
Qed.

Lemma gap_step_position {Block} `{ISBNsBinaryProcessor Block}
    value (st : process_state (Block := Block)) :
  position (gap_step value st) = position st + value.
Proof. unfold gap_step. by case_decide. Qed.

Lemma mod_offset p : p - p / N * N = p mod N.
Proof. unfold N. pose proof (Z.div_mod p 100000000). lia. Qed.

(** One present position adds its pixel. *)
Lemma present_step_pixels (st : process_state (Block := list (Z * Z))) :
  aligned st ->
  pixels (all_blocks (present_step st))
  = pixels (all_blocks st) ++ [pixel_of (position st)].
Proof.
  unfold aligned, all_blocks, present_step, pixel_of. intros [Hp Ho].
  rewrite Ho, mod_offset.
  destruct (get_isbn_code_pos (position st mod N)) as [x y].
  pose proof (Z.mul_div_le (position st) N) as Hle.
  pose proof (Z.mod_pos_bound (position st) N) as Hm.
  pose proof (mod_offset (position st)) as Hmo.
  case_decide as Hflush; simpl.
  - replace ((position st + 1 - 1) / N) with (position st / N) by (f_equal; lia).
    rewrite <- (app_assoc (yielded st)). simpl.
    rewrite pixels_app. rewrite (pixels_app (yielded st)).
    rewrite <- app_assoc. f_equal. unfold pixels. simpl.
    rewrite !app_nil_r, map_app. done.
  - rewrite (N_div_same (position st) (position st + 1)); [|done|unfold N in *; lia].
    apply pixels_snoc.
Qed.

Lemma streak_pixels n : forall (st : process_state (Block := list (Z * Z))),
  aligned st ->
  pixels (all_blocks (Nat.iter n present_step st))
  = pixels (all_blocks st)
    ++ map pixel_of (map (fun k => position st + Z.of_nat k) (seq 0 n)).
Proof.
  induction n as [|n IH]; intros st Hst.
  - simpl. by rewrite app_nil_r.
  - rewrite Nat.iter_succ, present_step_pixels by by apply streak_aligned.
    rewrite IH by done. rewrite seq_S, !map_app, app_assoc. simpl.
    by rewrite streak_position.
Qed.

Lemma gap_step_pixels value (st : process_state (Block := list (Z * Z))) :
  0 <= value -> aligned st ->
  pixels (all_blocks (gap_step value st)) = pixels (all_blocks st).
Proof.
  unfold aligned, all_blocks, gap_step. intros Hv [Hp Ho].
  pose proof (Z.mul_div_le (position st) N) as Hle.
  case_decide as Hflush; simpl.
  - replace (position st + value - value) with (position st) by lia.
    rewrite <- (app_assoc (yielded st)). rewrite !pixels_app.
    f_equal. unfold pixels. simpl. by rewrite !app_nil_r.
  - rewrite (N_div_same (position st) (position st + value));
      [done|done|unfold N in *; lia].
Qed.

Lemma process_loop_pixels ints : forall isbn_streak st,
  Forall (fun v => 0 <= v) ints -> aligned st ->
  pixels (all_blocks (process_loop ints isbn_streak st))
  = pixels (all_blocks st)
    ++ map pixel_of (present_positions ints isbn_streak (position st)).
Proof.
  induction ints as [|value ints IH]; intros isbn_streak st Hpos Hst.
  - simpl. by rewrite app_nil_r.
  - apply Forall_cons in Hpos as [Hv Hpos]. simpl.
    destruct isbn_streak; simpl.
    + rewrite IH by (done || by apply streak_aligned).
      rewrite streak_pixels, streak_position by done.
      rewrite Z2Nat.id by done. by rewrite map_app, app_assoc.
    + rewrite IH by (done || by apply gap_step_aligned).
      by rewrite gap_step_pixels, gap_step_position.
Qed.

Lemma struct_unpack_I_ok (b : bytes) :
  (length b mod 4 = 0)%nat -> struct_unpack_I b = Ok (unpack_words b).
Proof.
  intros Hlen. unfold struct_unpack_I. rewrite decide_True; [done|].
  pose proof (Nat.div_mod_eq (length b) 4). lia.
Qed.

Lemma pixels_of_process (b : bytes) :
  (length b mod 4 = 0)%nat ->
  exists blocks,
    process (Block := list (Z * Z)) b = Ok blocks /\
    pixels blocks = map pixel_of (present_positions (unpack_words b) true 0).
Proof.
  intros Hlen. unfold process. rewrite struct_unpack_I_ok by done. simpl.
  eexists. split; [done|].
  pose proof (process_loop_pixels (unpack_words b) true
                (mk_process_state 0 0 create_block [])
                (unpack_words_nonneg _)) as H.
  unfold all_blocks in H. unfold process_ints. rewrite H; [|by split].
  done.
Qed.

(** X1: every position the runs mark present is recorded once, in run
    order, in the block of its prefix and at the place of its remainder. *)
Theorem process_pixels (packed_isbns_binary : bytes) :
  (length packed_isbns_binary mod 4 = 0)%nat ->
  exists blocks,
    process (Block := list (Z * Z)) packed_isbns_binary = Ok blocks /\
    pixels blocks =
      map (fun p => (p / N, get_isbn_code_pos (p mod N)))
          (present_positions (unpack_words packed_isbns_binary) true 0).
Proof. apply pixels_of_process. Qed.

Lemma process_pixels_witness :
  exists blocks,
    process (Block := list (Z * Z))
      ["002"; "000"; "000"; "000"; "003"; "000"; "000"; "000"]%byte
      = Ok blocks /\
    pixels blocks =
      map (fun p => (p / N, get_isbn_code_pos (p mod N)))
          (present_positions
             (unpack_words
                ["002"; "000"; "000"; "000"; "003"; "000"; "000"; "000"]%byte)
             true 0).
Proof.
  apply (process_pixels
           ["002"; "000"; "000"; "000"; "003"; "000"; "000"; "000"]%byte).
  reflexivity.
Defined.

End RunsPixels.

Section RunsBlocks.
Import Common.

Lemma get_isbn_code_pos_in_block r :
  0 <= r < N ->
  0 <= (get_isbn_code_pos r).1 < 10000 /\ 0 <= (get_isbn_code_pos r).2 < 10000.
Proof.
  intros Hr. rewrite (get_isbn_code_pos_deinterleave 8) by (unfold N in Hr; simpl; lia).
  apply (deinterleave_range 8). unfold N in Hr. simpl. lia.
Qed.

(** X2: every [add_to_block] call of [process] is inside the block,
    whose size [get_size] gives. *)
Theorem process_in_block (packed_isbns_binary : bytes) :
  (length packed_isbns_binary mod 4 = 0)%nat ->
  exists blocks,
    process (Block := list (Z * Z)) packed_isbns_binary = Ok blocks /\
    forall id block x y,
      (id, block) ∈ blocks -> (x, y) ∈ block ->
      0 <= x < get_size.1 /\ 0 <= y < get_size.2.
Proof.
  intros Hlen. destruct (pixels_of_process _ Hlen) as (blocks & Hp & Hpx).
  exists blocks. split; [done|]. intros id blk x y Hb Hxy.
  assert (Hin : (id, (x, y)) ∈ pixels blocks).
  { unfold pixels. apply list_elem_of_In, in_concat.
    exists (map (fun xy => (id, xy)) blk). split.
    - apply list_elem_of_In, list_elem_of_fmap. by exists (id, blk).
    - apply list_elem_of_In, list_elem_of_fmap. by exists (x, y). }
  rewrite Hpx in Hin. apply list_elem_of_fmap in Hin as (p & Heq & _).
  unfold pixel_of in Heq. injection Heq as _ Heq.
  pose proof (get_isbn_code_pos_in_block (p mod N)) as Hr.
  rewrite <- Heq in Hr. apply Hr. apply Z.mod_pos_bound. by unfold N.
Qed.

Lemma process_in_block_witness :
  exists blocks,
    process (Block := list (Z * Z))
      ["002"; "000"; "000"; "000"; "003"; "000"; "000"; "000"]%byte
      = Ok blocks /\
    forall id block x y,
      (id, block) ∈ blocks -> (x, y) ∈ block ->
      0 <= x < get_size.1 /\ 0 <= y < get_size.2.
Proof.
  apply (process_in_block
           ["002"; "000"; "000"; "000"; "003"; "000"; "000"; "000"]%byte).
  reflexivity.
Defined.

Context {Block : Type} `{ISBNsBinaryProcessor Block}.
Implicit Types st : process_state (Block := Block).






End RunsBlocks.

(** ** get_isbn_code_pos outside the block range *)
Section GetIsbnCodePosAll.
Import Common.

(** X4: [get_isbn_code_pos] returns the origin for every code that is not
    positive, and it sends no two non-negative codes, of any size, to the
    same place. *)
Theorem get_isbn_code_pos_injective :
  (forall code, code <= 0 -> get_isbn_code_pos code = (0, 0)) /\
  (forall c1 c2, 0 <= c1 -> 0 <= c2 ->
     get_isbn_code_pos c1 = get_isbn_code_pos c2 -> c1 = c2).
Proof.
  split.
  - intros code Hc. unfold get_isbn_code_pos.
    rewrite get_isbn_code_pos_loop_equation_1.
    destruct (decide (code > 0)); [lia|reflexivity].
  - intros c1 c2 H1 H2 Heq.
    set (n := Z.to_nat (Z.max c1 c2)).
    assert (Hn : Z.max c1 c2 < 10 ^ Z.of_nat n).
    { unfold n. rewrite Z2Nat.id by lia. apply Z.pow_gt_lin_r; lia. }
    rewrite (get_isbn_code_pos_deinterleave n c1) in Heq by lia.
    rewrite (get_isbn_code_pos_deinterleave n c2) in Heq by lia.
    rewrite <- (interleave_deinterleave n c1) by lia.
    rewrite <- (interleave_deinterleave n c2) by lia.
    by rewrite Heq.
Qed.

Lemma get_isbn_code_pos_injective_witness :
  get_isbn_code_pos (-5) = (0, 0) /\
  (get_isbn_code_pos 1234567890 = get_isbn_code_pos 1234567890 ->
   1234567890 = 1234567890).
Proof.
  split.
  - apply (proj1 get_isbn_code_pos_injective). lia.
  - apply (proj2 get_isbn_code_pos_injective); lia.
Defined.

End GetIsbnCodePosAll.

(** ** decode_stream: concatenation and ranges *)
Section DecoderCompose.
Import IsbnPropsDecoder.

Lemma decode_stream_frames_app frames rest :
  Forall complete_frame frames ->
  decode_stream (concat frames ++ rest) =
    (map decode_frame frames ++ (decode_stream rest).1, (decode_stream rest).2).
Proof.
  induction 1 as [|f frames Hf _ IH]; simpl.
  - by destruct (decode_stream rest).
  - rewrite <- app_assoc, decode_stream_frame by done. by rewrite IH.
Qed.

Lemma decode_stream_complete stream records :
  decode_stream stream = (records, EndOfStream) ->
  exists frames,
    stream = concat frames /\ Forall complete_frame frames /\
    records = map decode_frame frames.
Proof.
  intros Hdec.
  destruct (stream_frames_exist stream) as (frames & tail & -> & Hf & Ht).
  rewrite decode_stream_frames in Hdec by done.
  injection Hdec as <- Hend. exists frames.
  destruct tail; [by rewrite app_nil_r|done].
Qed.

Lemma complete_frames_decode frames :
  Forall complete_frame frames ->
  decode_stream (concat frames) = (map decode_frame frames, EndOfStream).
Proof.
  intros Hf. rewrite <- (app_nil_r (concat frames)).
  by rewrite decode_stream_frames by (done || by left).
Qed.

Lemma decode_stream_after_complete (stream rest : bytes) records :
  decode_stream stream = (records, EndOfStream) ->
  decode_stream (stream ++ rest) =
    (records ++ (decode_stream rest).1, (decode_stream rest).2).
Proof.
  intros Hdec.
  destruct (decode_stream_complete _ _ Hdec) as (frames & -> & Hf & ->).
  by apply decode_stream_frames_app.
Qed.

(** X5: a stream that decodes to the end, followed by any further bytes,
    decodes to its own records followed by what the further bytes decode
    to, and ends as they end. *)
Theorem decode_stream_app (stream rest : bytes) records :
  decode_stream stream = (records, EndOfStream) ->
  decode_stream (stream ++ rest) =
    (records ++ (decode_stream rest).1, (decode_stream rest).2).
Proof. apply decode_stream_after_complete. Qed.

Lemma decode_stream_app_witness :
  decode_stream (["193"; "042"; "005"; "000"; "000"; "003"; "232"]%byte
                 ++ ["065"; "010"; "000"; "000"; "007"; "208"]%byte) =
    ([mk_ISBNPropsRecord [1000] (Some 42) (Some 2020)]
     ++ (decode_stream ["065"; "010"; "000"; "000"; "007"; "208"]%byte).1,
     (decode_stream ["065"; "010"; "000"; "000"; "007"; "208"]%byte).2).
Proof.
  apply (decode_stream_app
           ["193"; "042"; "005"; "000"; "000"; "003"; "232"]%byte).
  vm_compute. reflexivity.
Defined.

Lemma int_from_bytes_big_range (data : bytes) :
  0 <= int_from_bytes_big data < 256 ^ Z.of_nat (length data).
Proof.
  unfold int_from_bytes_big.
  assert (H : forall acc k, 0 <= acc < 256 ^ k -> 0 <= k ->
            0 <= fold_left (fun acc b => acc * 256 + byte_val b) data acc
              < 256 ^ (k + Z.of_nat (length data))).
  { induction data as [|b data IH]; intros acc k Hacc Hk; simpl.
    - by rewrite Z.add_0_r.
    - pose proof (byte_val_range b).
      replace (k + Z.of_nat (S (length data)))
        with ((k + 1) + Z.of_nat (length data)) by lia.
      apply IH; [|lia]. rewrite Z.pow_add_r by lia. lia. }
  apply (H 0 0); lia.
Qed.

Lemma read_positions_range k : forall data,
  length (read_positions k data) = k /\
  Forall (fun p => 0 <= p < 2 ^ 32) (read_positions k data).
Proof.
  induction k as [|k IH]; intros data; simpl; [by split|].
  destruct (IH (drop 4 data)) as [Hl Hf]. split; [by rewrite Hl|].
  constructor; [|done].
  pose proof (int_from_bytes_big_range (take 4 data)) as Hr.
  assert (Hlen : (length (take 4 data) <= 4)%nat) by (rewrite length_take; lia).
  assert (256 ^ Z.of_nat (length (take 4 data)) <= 4294967296)
    by (change 4294967296 with (256 ^ 4); apply Z.pow_le_mono_r; lia).
  change (2 ^ 32) with 4294967296. lia.
Qed.

Lemma decode_record_in_range start_byte record_data :
  0 <= start_byte < 256 ->
  record_in_range (decode_record start_byte record_data).
Proof.
  intros Hsb. unfold record_in_range, decode_record. simpl.
  pose proof (read_positions_range (Z.to_nat (isbn_count_of start_byte))) as Hr.
  assert (Hc : 0 <= isbn_count_of start_byte <= 63).
  { unfold isbn_count_of.
    assert (Z.land start_byte 63 = start_byte mod 64) as ->
      by (change 63 with (Z.ones 6); by rewrite Z.land_ones by lia).
    pose proof (Z.mod_pos_bound start_byte 64). lia. }
  split; [|split; [|split]].
  - rewrite (proj1 (Hr _)). lia.
  - apply Hr.
  - destruct (has_count_of start_byte); [|done].
    destruct record_data as [|b ?]; simpl; [done|].
    pose proof (byte_val_range b). intros v [= <-]. lia.
  - destruct (has_year_of start_byte); [|done].
    destruct (if has_count_of start_byte then _ else _) as [|b ?];
      simpl; [done|].
    pose proof (byte_val_range b). intros v [= <-]. lia.
Qed.

(** X6: whatever the bytes, every record [decode_stream] yields has at
    most 63 positions, each below [2^32], holdings between 0 and 255 and a
    year between 1770 and 2025. *)
Theorem decode_stream_in_range (stream : bytes) :
  Forall record_in_range (decode_stream stream).1.
Proof.
  destruct (stream_frames_exist stream) as (frames & tail & -> & Hf & Ht).
  rewrite decode_stream_frames by done. simpl.
  apply Forall_fmap. eapply Forall_impl; [exact Hf|].
  intros [|b body] Hc; [done|]. simpl.
  apply decode_record_in_range, byte_val_range.
Qed.

End DecoderCompose.

(** ** filter_invalid_isbns: what is kept and what is dropped *)
Section FilterKeeps.
Import IsbnFilter.
Implicit Types S : gset string.

Lemma any_base_exists (p : string -> bool) (bases : gset string) :
  any_base p bases <-> exists base, base ∈ bases /\ p base = true.
Proof.
  unfold any_base. rewrite Is_true_true, existsb_exists.
  split; intros (base & Hin & Hp); exists base; split; try done.
  - by apply elem_of_elements, list_elem_of_In.
  - by apply list_elem_of_In, elem_of_elements.
Qed.

Lemma filtered_cases S x :
  x ∈ filter_invalid_isbns S ->
  x ∈ S /\ (String.length x = 10%nat \/ String.length x = 13%nat).
Proof.
  rewrite elem_of_filtered.
  unfold isbns_979_of, remaining2_of, isbns_978_of, remaining_of,
    valid_isbn13s_of, isbn10s_of.
  rewrite !elem_of_filter. tauto.
Qed.

(** X7: [filter_invalid_isbns] only removes: what it returns is part of
    its input, and every string it returns has 10 or 13 characters. *)
Theorem filter_invalid_isbns_subset S :
  filter_invalid_isbns S ⊆ S /\
  forall x, x ∈ filter_invalid_isbns S ->
            String.length x = 10%nat \/ String.length x = 13%nat.
Proof.
  split; intros x Hx; by apply filtered_cases in Hx as [? ?].
Qed.

Lemma filter_invalid_isbns_subset_witness :
  String.length "9789686708578" = 10%nat \/
  String.length "9789686708578" = 13%nat.
Proof.
  apply (proj2 (filter_invalid_isbns_subset
                  {[ "968670857X"; "9789686708578"; "9799686708577" ]})).
  vm_compute. reflexivity.
Defined.

Lemma bases_of_elem S x :
  x ∈ S -> String.length x = 10%nat -> substring 0 9 x ∈ bases_of S.
Proof.
  intros Hx Hl. unfold bases_of. apply elem_of_map. exists x. split; [done|].
  unfold isbn10s_of. by apply elem_of_filter.
Qed.

(** X8: every 10-character string of the input is kept, and so is every
    13-character string that is 978 followed by the first nine characters
    of a 10-character string of the input. *)
Theorem filter_invalid_isbns_keeps S :
  (forall x, x ∈ S -> String.length x = 10%nat -> x ∈ filter_invalid_isbns S) /\
  (forall x y,
     x ∈ S -> String.length x = 10%nat ->
     y ∈ S -> String.length y = 13%nat ->
     startswith y ("978" +:+ substring 0 9 x) = true ->
     y ∈ filter_invalid_isbns S).
Proof.
  split.
  - intros x Hx Hl. apply elem_of_filtered. left.
    unfold isbn10s_of. by apply elem_of_filter.
  - intros x y Hx Hlx Hy Hly Hp. apply elem_of_filtered. right. left.
    unfold valid_isbn13s_of. apply elem_of_filter. split; [|done].
    split; [done|]. apply any_base_exists.
    exists (substring 0 9 x). split; [by apply bases_of_elem|done].
Qed.

Lemma filter_invalid_isbns_keeps_witness :
  "9789686708578" ∈
    filter_invalid_isbns {[ "968670857X"; "9789686708578"; "9799686708577" ]}.
Proof.
  apply (proj2 (filter_invalid_isbns_keeps
                  {[ "968670857X"; "9789686708578"; "9799686708577" ]})
               "968670857X" "9789686708578").
  - set_solver.
  - reflexivity.
  - set_solver.
  - reflexivity.
  - reflexivity.
Defined.

Lemma length_substring n m s :
  (n + m <= String.length s)%nat -> String.length (substring n m s) = m.
Proof.
  revert n m. induction s as [|c s IH]; intros [|n] [|m] Hl; simpl in *;
    try done; try lia.
  - f_equal. apply (IH 0%nat). lia.
  - apply IH. lia.
  - apply IH. lia.
Qed.

Lemma prefix_substring base s :
  String.prefix base s = true ->
  substring 0 (String.length base) s = base.
Proof. apply prefix_correct. Qed.

Lemma bases_of_length S base : base ∈ bases_of S -> String.length base = 9%nat.
Proof.
  unfold bases_of. intros (x & -> & Hx)%elem_of_map.
  unfold isbn10s_of in Hx. apply elem_of_filter in Hx as [Hl _].
  apply length_substring. lia.
Qed.

Lemma startswith_978_body x base :
  String.length base = 9%nat ->
  startswith x ("978" +:+ base) = true ->
  startswith x "978" = true /\ substring 3 9 x = base.
Proof.
  intros Hl. unfold startswith.
  destruct x as [|c1 [|c2 [|c3 x]]]; simpl; try done;
    repeat (case_match; try done).
  intros Hp. split; [by destruct x|].
  rewrite <- Hl. by apply prefix_substring.
Qed.

Lemma startswith_979_not_978 y b s :
  startswith y ("979" +:+ b) = true -> startswith y ("978" +:+ s) = false.
Proof.
  unfold startswith.
  destruct y as [|c1 [|c2 [|c3 y]]]; simpl; try done;
    repeat (case_match; try done); congruence.
Qed.

Lemma string_prefix_length a : forall s,
  String.prefix a s = true -> (String.length a <= String.length s)%nat.
Proof.
  induction a as [|c a IH]; intros [|d s]; simpl; try done; try lia.
  case_match; [|done]. intros Hp%IH. lia.
Qed.

Lemma startswith_979_length y b :
  String.length b = 9%nat ->
  startswith y ("979" +:+ b) = true -> (12 <= String.length y)%nat.
Proof.
  intros Hl Hp%string_prefix_length.
  change ("979" +:+ b) with (String "9" (String "7" (String "9" b))) in Hp.
  simpl in Hp. lia.
Qed.

(** X9: next to a kept 10-character string, or a kept 13-character string
    that starts with 978, no string is kept that starts with 979 followed
    by the same nine-character body. *)
Theorem filter_invalid_isbns_drops_979 S x y b :
  x ∈ filter_invalid_isbns S ->
  (String.length x = 10%nat /\ substring 0 9 x = b) \/
  (String.length x = 13%nat /\ startswith x "978" = true /\
   substring 3 9 x = b) ->
  startswith y ("979" +:+ b) = true ->
  y ∉ filter_invalid_isbns S.
Proof.
  intros Hx Hb Hy.
  assert (Hbl : String.length b = 9%nat).
  { destruct Hb as [[Hl <-]|(Hl & _ & <-)]; apply length_substring; lia. }
  assert (Hb2 : b ∈ bases2_of S).
  { unfold bases2_of. apply elem_of_union.
    destruct Hb as [[Hl <-]|(Hl & H978 & <-)].
    - left. apply filtered_cases in Hx as [Hx _]. by apply bases_of_elem.
    - apply elem_of_filtered in Hx as [Hx|[Hx|[Hx|Hx]]].
      + unfold isbn10s_of in Hx. apply elem_of_filter in Hx as [? _]. lia.
      + left. unfold valid_isbn13s_of in Hx.
        apply elem_of_filter in Hx as [[_ Hany] _].
        apply any_base_exists in Hany as (base & Hbase & Hp).
        apply startswith_978_body in Hp as [_ ->];
          [done|by eapply bases_of_length].
      + right. apply elem_of_map. by exists x.
      + exfalso. unfold isbns_979_of in Hx.
        apply elem_of_filter in Hx as [[Hn _] Hr]. apply Hn.
        unfold isbns_978_of. apply elem_of_filter. split; [by rewrite H978|].
        unfold remaining2_of in Hr. by apply elem_of_filter in Hr as [_ ?]. }
  intros Hin. apply elem_of_filtered in Hin as [Hin|[Hin|[Hin|Hin]]].
  - unfold isbn10s_of in Hin. apply elem_of_filter in Hin as [Hl _].
    pose proof (startswith_979_length _ _ Hbl Hy). lia.
  - unfold valid_isbn13s_of in Hin. apply elem_of_filter in Hin as [[_ Hany] _].
    apply any_base_exists in Hany as (base & _ & Hp).
    by rewrite (startswith_979_not_978 _ _ _ Hy) in Hp.
  - unfold isbns_978_of in Hin. apply elem_of_filter in Hin as [Hp _].
    pose proof (startswith_979_not_978 _ _ "" Hy) as Hn.
    change ("978" +:+ "") with "978" in Hn. by rewrite Hn in Hp.
  - unfold isbns_979_of in Hin. apply elem_of_filter in Hin as [[_ Hn] _].
    apply Hn, any_base_exists. by exists b.
Qed.

Lemma filter_invalid_isbns_drops_979_witness :
  "9799686708577" ∉
    filter_invalid_isbns {[ "968670857X"; "9789686708578"; "9799686708577" ]}.
Proof.
  apply (filter_invalid_isbns_drops_979
           {[ "968670857X"; "9789686708578"; "9799686708577" ]}
           "968670857X" "9799686708577" "968670857").
  - vm_compute. reflexivity.
  - left. split; reflexivity.
  - reflexivity.
Defined.

End FilterKeeps.

(** ** extract_most_likely_year: the choice among the candidates *)
Section MostFrequent.
Import MostLikelyYear.

Lemma occurrences_nonneg k years : 0 <= occurrences k years.
Proof. unfold occurrences. lia. Qed.

Lemma occurrences_snoc k years y :
  occurrences k (years ++ [y]) =
  occurrences k years + (if decide (y = k) then 1 else 0).
Proof.
  unfold occurrences. rewrite filter_app, length_app.
  rewrite filter_cons, filter_nil. case_decide; simpl; lia.
Qed.

Lemma occurrences_pos k years : 0 < occurrences k years <-> k ∈ years.
Proof.
  unfold occurrences. induction years as [|y years IH].
  - simpl. split; [lia|by intros ?%elem_of_nil].
  - rewrite filter_cons, elem_of_cons. case_decide; simpl.
    + subst. split; [by left|lia].
    + rewrite IH. split; [by right|by intros [->|?]].
Qed.

Lemma occurrences_Permutation k years years' :
  years ≡ₚ years' -> occurrences k years = occurrences k years'.
Proof. intros Hp. unfold occurrences. by rewrite Hp. Qed.

Lemma elem_of_keys (counts : list (Z * Z)) k :
  k ∈ map fst counts <-> exists n, (k, n) ∈ counts.
Proof.
  rewrite list_elem_of_fmap. split.
  - intros ([k' n] & -> & Hin). by exists n.
  - intros (n & Hin). by exists (k, n).
Qed.

Lemma counter_add_keys y counts :
  map fst (counter_add y counts) =
  if decide (y ∈ map fst counts) then map fst counts else map fst counts ++ [y].
Proof.
  induction counts as [|[k n] counts IH]; simpl.
  - done.
  - destruct (decide (k = y)) as [->|Hne]; simpl.
    + rewrite decide_True; [done|by left].
    + rewrite IH. destruct (decide (y ∈ map fst counts)) as [Hin|Hnin].
      * rewrite decide_True; [done|by right].
      * rewrite decide_False; [done|].
        intros Hin. apply elem_of_cons in Hin as [?|?]; [congruence|done].
Qed.

Lemma counter_add_elem y counts k n :
  NoDup (map fst counts) ->
  (k, n) ∈ counter_add y counts <->
  (k <> y /\ (k, n) ∈ counts) \/
  (k = y /\ (y, n - 1) ∈ counts) \/
  (k = y /\ n = 1 /\ y ∉ map fst counts).
Proof.
  induction counts as [|[k0 n0] counts IH]; simpl; intros Hnd.
  - rewrite list_elem_of_singleton. split.
    + intros [= -> ->]. right. right. repeat split. by intros ?%elem_of_nil.
    + intros [[_ []%elem_of_nil]|[[_ []%elem_of_nil]|(-> & -> & _)]]. done.
  - apply NoDup_cons in Hnd as [Hk0 Hnd].
    assert (Hfresh : forall m, (k0, m) ∉ counts).
    { intros m Hin. apply Hk0, elem_of_keys. by exists m. }
    destruct (decide (k0 = y)) as [->|Hne].
    + rewrite !elem_of_cons. split.
      * intros [[= -> ->]|Hin].
        -- right. left. split; [done|]. left. f_equal. lia.
        -- left. split; [|by right]. intros ->. by eapply Hfresh.
      * intros [[Hk [[= -> ->]|Hin]]|[[-> [[= Hn]|Hin]]|(-> & -> & Hnin)]].
        -- done.
        -- by right.
        -- left. f_equal. lia.
        -- by apply Hfresh in Hin.
        -- exfalso. apply Hnin. by left.
    + rewrite !elem_of_cons, (IH Hnd). split.
      * intros [[= -> ->]|[[Hk Hin]|[[-> Hin]|(-> & -> & Hnin)]]].
        -- left. split; [done|by left].
        -- left. split; [done|by right].
        -- right. left. split; [done|by right].
        -- right. right. repeat split.
           intros [?|?]; [congruence|done].
      * intros [[Hk [[= -> ->]|Hin]]|[[-> [[= ? ?]|Hin]]|(-> & -> & Hnin)]].
        -- by left.
        -- right. left. by split.
        -- congruence.
        -- right. right. left. by split.
        -- right. right. right. repeat split.
           intros Hin. apply Hnin. by right.
Qed.

Lemma counter_add_counts_of y counts years :
  counts_of counts years -> counts_of (counter_add y counts) (years ++ [y]).
Proof.
  intros [Hnd Hc]. split.
  - rewrite counter_add_keys. case_decide as Hin; [done|].
    apply NoDup_app. split; [done|]. split; [|apply NoDup_singleton].
    intros k Hk ->%list_elem_of_singleton. done.
  - intros k n. rewrite counter_add_elem, occurrences_snoc by done.
    rewrite !Hc.
    assert (Hkeys : y ∈ map fst counts <-> 0 < occurrences y years).
    { rewrite elem_of_keys. split.
      - intros (m & Hm). apply Hc in Hm as [-> ?]. done.
      - intros Hpos. exists (occurrences y years). by apply Hc. }
    pose proof (occurrences_nonneg y years).
    destruct (decide (y = k)) as [->|Hne].
    + rewrite Hkeys. split; [|intros [-> Hn]].
      * intros [[? _]|[[_ Hn]|(_ & -> & Hz)]]; [done|lia|lia].
      * destruct (decide (0 < occurrences k years)); [right; left|right; right];
          repeat split; lia.
    + split.
      * intros [[_ [-> ?]]|[[-> _]|[-> _]]]; [|done..]. split; [lia|done].
      * intros [-> ?]. left. split; [congruence|]. split; [lia|done].
Qed.

Lemma Counter_counts_of years : counts_of (Counter years) years.
Proof.
  unfold Counter.
  assert (H : forall done counts,
            counts_of counts done ->
            counts_of (fold_left (fun counts year => counter_add year counts)
                                 years counts) (done ++ years)).
  { induction years as [|y years IH]; intros done counts Hc; simpl.
    - by rewrite app_nil_r.
    - rewrite (cons_middle y), app_assoc. apply IH.
      by apply counter_add_counts_of. }
  apply (H [] []). split; [constructor|].
  intros k n. split; [by intros ?%elem_of_nil|].
  unfold occurrences. simpl. lia.
Qed.

Lemma fold_left_max l : forall a,
  (fold_left Z.max l a = a \/ fold_left Z.max l a ∈ l) /\
  a <= fold_left Z.max l a /\
  Forall (fun v => v <= fold_left Z.max l a) l.
Proof.
  induction l as [|v l IH]; intros a; simpl.
  - split; [by left|]. split; [lia|constructor].
  - destruct (IH (Z.max a v)) as (Hm & Hle & Hall).
    split; [|split; [lia|constructor; [lia|done]]].
    destruct Hm as [Hm|Hm]; [|right; by right].
    rewrite Hm. destruct (Z.max_spec a v) as [[_ ->]|[_ ->]];
      [right; by left|by left].
Qed.

Lemma py_max_spec v l :
  py_max (v :: l) ∈ v :: l /\ Forall (fun w => w <= py_max (v :: l)) (v :: l).
Proof.
  unfold py_max. destruct (fold_left_max l v) as (Hm & Hle & Hall). split.
  - destruct Hm as [->|Hm]; [by left|by right].
  - by constructor.
Qed.

Lemma NoDup_keys_filter (P : Z * Z -> Prop) `{forall kc, Decision (P kc)}
    (counts : list (Z * Z)) :
  NoDup (map fst counts) -> NoDup (map fst (filter P counts)).
Proof.
  induction counts as [|[k n] counts IH]; simpl; intros Hnd.
  - constructor.
  - apply NoDup_cons in Hnd as [Hk Hnd]. rewrite filter_cons.
    case_decide; simpl; [|by apply IH]. constructor; [|by apply IH].
    intros Hin. apply Hk. apply list_elem_of_fmap in Hin as (p & -> & Hp).
    apply list_elem_of_filter in Hp as [_ Hp].
    apply list_elem_of_fmap. by exists p.
Qed.

(** The candidates are the most frequent years, each listed once. *)
Lemma candidates_of_spec years :
  NoDup (candidates_of years) /\
  forall k, k ∈ candidates_of years <-> most_frequent k years.
Proof.
  unfold candidates_of.
  destruct (Counter_counts_of years) as [Hnd Hc].
  set (counts := Counter years) in *.
  set (max_count := py_max (map snd counts)).
  split.
  - by apply NoDup_keys_filter.
  - intros k.
    assert (Hcand : k ∈ map fst (filter (fun kc => kc.2 = max_count) counts)
                    <-> (k, max_count) ∈ counts).
    { rewrite list_elem_of_fmap. split.
      - intros ([k' n] & -> & Hp). apply list_elem_of_filter in Hp as [Hn Hp].
        simpl in *. by subst.
      - intros Hin. exists (k, max_count). split; [done|].
        by apply list_elem_of_filter. }
    rewrite Hcand. unfold most_frequent.
    destruct counts as [|[k0 n0] counts'] eqn:Ecounts.
    { split.
      - by intros ?%elem_of_nil.
      - intros [Hin _]. apply occurrences_pos in Hin.
        exfalso. eapply elem_of_nil. apply Hc. split; [reflexivity|done]. }
    rewrite <- Ecounts in *.
    assert (Hmax : max_count ∈ map snd counts /\
                   Forall (fun w => w <= max_count) (map snd counts)).
    { unfold max_count. rewrite Ecounts. simpl map. apply py_max_spec. }
    destruct Hmax as [Hmin Hmall].
    apply list_elem_of_fmap in Hmin as ([km nm] & Hnm & Hmin). simpl in Hnm.
    subst nm. pose proof Hmin as Hkm. apply Hc in Hkm as [Hkm Hpos].
    assert (Hbound : forall z, occurrences z years <= max_count).
    { intros z. destruct (decide (0 < occurrences z years)) as [Hz|Hz].
      - assert (Hin : (z, occurrences z years) ∈ counts) by by apply Hc.
        rewrite Forall_forall in Hmall. apply Hmall.
        apply list_elem_of_fmap. by exists (z, occurrences z years).
      - pose proof (occurrences_nonneg z years). lia. }
    split.
    + intros Hin. apply Hc in Hin as [Hk Hp]. split.
      * apply occurrences_pos. lia.
      * intros z. rewrite <- Hk. apply Hbound.
    + intros [Hin Hmost]. apply Hc. split.
      * specialize (Hmost km). specialize (Hbound k). lia.
      * lia.
Qed.

Lemma first_close_elem_of l y : first_close l = Some y -> y ∈ l.
Proof.
  induction l as [|a [|b l] IH]; simpl; try done.
  case_decide; [intros [= ->]; by left|]. intros Hf. right. by apply IH.
Qed.

(** What [pick_most_likely] does with the candidates. *)
Lemma pick_most_likely_candidates years :
  years <> [] ->
  pick_most_likely years =
  match candidates_of years with
  | [year] => Some year
  | _ =>
      match first_close (merge_sort Z.le (candidates_of years)) with
      | Some year => Some year
      | None => last (merge_sort Z.le (candidates_of years))
      end
  end.
Proof. by destruct years. Qed.

Lemma pick_most_likely_in_candidates years y :
  pick_most_likely years = Some y -> y ∈ candidates_of years.
Proof.
  destruct (decide (years = [])) as [->|Hne]; [done|].
  rewrite pick_most_likely_candidates by done.
  destruct (candidates_of years) as [|a [|b l]] eqn:E.
  - by vm_compute.
  - intros [= ->]. by left.
  - set (c := a :: b :: l).
    destruct (first_close (merge_sort Z.le c)) as [z|] eqn:Ef.
    + intros [= ->]. apply first_close_elem_of in Ef.
      by rewrite merge_sort_Permutation in Ef.
    + intros Hl%last_Some_elem_of. by rewrite merge_sort_Permutation in Hl.
Qed.

Lemma candidates_of_nonempty years : years <> [] -> candidates_of years <> [].
Proof.
  intros Hne. unfold candidates_of.
  destruct (Counter_counts_of years) as [_ Hcounts].
  destruct (Counter years) as [|[k0 n0] counts] eqn:Ec.
  - destruct years as [|y years]; [done|]. exfalso.
    eapply elem_of_nil, (Hcounts y). split; [done|].
    apply occurrences_pos. by left.
  - destruct (py_max_spec n0 (map snd counts)) as [Hm _].
    change (n0 :: map snd counts) with (map snd ((k0, n0) :: counts)) in Hm.
    apply list_elem_of_fmap in Hm as (p & Hp & Hpin).
    intros Hnil. eapply elem_of_nil. rewrite <- Hnil.
    apply list_elem_of_fmap. exists p. split; [done|].
    by apply list_elem_of_filter.
Qed.

Lemma pick_most_likely_is_Some years :
  years <> [] -> is_Some (pick_most_likely years).
Proof.
  intros Hne. rewrite pick_most_likely_candidates by done.
  destruct (candidates_of years) as [|a [|b l]] eqn:E.
  - by apply candidates_of_nonempty in E.
  - done.
  - set (c := a :: b :: l).
    destruct (first_close (merge_sort Z.le c)); [done|].
    apply last_is_Some. intros Hnil.
    pose proof (merge_sort_Permutation Z.le c) as Hp. rewrite Hnil in Hp.
    by apply Permutation_nil_l in Hp.
Qed.

(** X10: [extract_most_likely_year] returns [None] exactly when no string
    holds a candidate; what it returns is one of the extracted years,
    hence between 1450 and 2025, and no extracted year is more frequent. *)
Theorem extract_most_likely_year_most_frequent (strings : list string) :
  (extract_most_likely_year strings = None <-> extract_years strings = []) /\
  forall year,
    extract_most_likely_year strings = Some year ->
    most_frequent year (extract_years strings) /\ 1450 <= year <= 2025.
Proof.
  unfold extract_most_likely_year. split.
  - split.
    + intros Hnone. destruct (decide (extract_years strings = [])); [done|].
      destruct (pick_most_likely_is_Some (extract_years strings)) as [? Hs];
        [done|congruence].
    + by intros ->.
  - intros year Hy. apply pick_most_likely_in_candidates in Hy.
    apply candidates_of_spec in Hy. split; [done|].
    destruct Hy as [Hin _]. unfold extract_years in Hin.
    apply list_elem_of_In, in_concat in Hin as (ys & Hys & Hin).
    apply list_elem_of_In, list_elem_of_fmap in Hys as (text & -> & _).
    unfold years_of_text in Hin.
    apply list_elem_of_In, list_elem_of_filter in Hin as [Hr _].
    by unfold current_year in Hr.
Qed.

Lemma extract_most_likely_year_most_frequent_witness :
  most_frequent 1966 (extract_years ["1966"; "1966 or 1967"]) /\
  1450 <= 1966 <= 2025.
Proof.
  apply (proj2 (extract_most_likely_year_most_frequent
                  ["1966"; "1966 or 1967"])).
  vm_compute. reflexivity.
Defined.

Lemma candidates_of_Permutation years years' :
  years ≡ₚ years' -> candidates_of years ≡ₚ candidates_of years'.
Proof.
  intros Hp.
  destruct (candidates_of_spec years) as [Hnd Hc].
  destruct (candidates_of_spec years') as [Hnd' Hc'].
  apply NoDup_Permutation; [done..|]. intros k. rewrite Hc, Hc'.
  unfold most_frequent. rewrite Hp.
  by setoid_rewrite (occurrences_Permutation _ _ _ Hp).
Qed.

Lemma pick_most_likely_Permutation years years' :
  years ≡ₚ years' -> pick_most_likely years = pick_most_likely years'.
Proof.
  intros Hp.
  destruct (decide (years = [])) as [->|Hne].
  { apply Permutation_nil_l in Hp. by subst. }
  assert (Hne' : years' <> []).
  { intros ->. by apply Permutation_nil_r in Hp. }
  rewrite !pick_most_likely_candidates by done.
  pose proof (candidates_of_Permutation _ _ Hp) as Hc.
  assert (Hs : merge_sort Z.le (candidates_of years)
               = merge_sort Z.le (candidates_of years')).
  { apply (StronglySorted_unique Z.le).
    - apply StronglySorted_merge_sort; apply _.
    - apply StronglySorted_merge_sort; apply _.
    - by rewrite !merge_sort_Permutation. }
  rewrite Hs.
  destruct (candidates_of years) as [|a [|b l]];
    destruct (candidates_of years') as [|a' [|b' l']]; try done;
    try (apply Permutation_length in Hc; simpl in Hc; lia).
  apply Permutation_singleton_inj in Hc. by subst.
Qed.

(** X11: the year chosen does not depend on the order of the strings. *)
Theorem extract_most_likely_year_Permutation (strings strings' : list string) :
  strings ≡ₚ strings' ->
  extract_most_likely_year strings = extract_most_likely_year strings'.
Proof.
  intros Hp. unfold extract_most_likely_year, extract_years.
  apply pick_most_likely_Permutation.
  induction Hp; simpl.
  - done.
  - by apply Permutation_app_head.
  - rewrite !app_assoc. apply Permutation_app_tail, Permutation_app_comm.
  - by etrans.
Qed.

Lemma extract_most_likely_year_Permutation_witness :
  extract_most_likely_year ["1555"; "c1966"; "1967"]
  = extract_most_likely_year ["1967"; "1555"; "c1966"].
Proof.
  apply (extract_most_likely_year_Permutation
           ["1555"; "c1966"; "1967"] ["1967"; "1555"; "c1966"]).
  symmetry. apply (Permutation_cons_append ["1555"; "c1966"] "1967").
Defined.

End MostFrequent.

(** ** verify_isbn: check digits and exceptions *)
Section VerifyIsbn.
Import DataHandler.

Lemma chars_str l : chars (string_of_list_ascii l) = l.
Proof. apply list_ascii_of_string_of_list_ascii. Qed.

Lemma digit_not_sep c :
  is_ascii_digit c = true -> c <> "-"%char /\ c <> " "%char.
Proof. intros Hd. split; intros ->; done. Qed.

Lemma filter_sep_digits body :
  Forall (fun c => is_ascii_digit c = true) body ->
  filter (fun c => c <> "-"%char /\ c <> " "%char) body = body.
Proof.
  induction 1 as [|c body Hc _ IH]; [done|].
  rewrite filter_cons, decide_True by by apply digit_not_sep. by rewrite IH.
Qed.

Lemma forallb_isdigit_digits body :
  Forall (fun c => is_ascii_digit c = true) body ->
  forallb py_isdigit_char body = true.
Proof.
  induction 1 as [|c body Hc _ IH]; [done|]. simpl.
  unfold py_isdigit_char at 1. by rewrite Hc, IH.
Qed.

Lemma digit_char_spec d :
  0 <= d <= 9 ->
  is_ascii_digit (digit_char d) = true /\ digit_val (digit_char d) = d.
Proof.
  intros Hd. unfold is_ascii_digit, digit_val, digit_char.
  rewrite N_ascii_embedding by lia. rewrite Z2N.id by lia.
  split; [|lia]. apply andb_true_iff. split; lia.
Qed.

Lemma digit_char_val c :
  is_ascii_digit c = true -> digit_char (digit_val c) = c.
Proof.
  intros Hd. unfold digit_char, digit_val.
  replace (48 + (Z.of_N (N_of_ascii c) - 48)) with (Z.of_N (N_of_ascii c)) by lia.
  rewrite N2Z.id. apply ascii_N_embedding.
Qed.

(** [verify_isbn] on twelve digits and one more character. *)
Lemma verify_isbn_13 body c :
  length body = 12%nat ->
  Forall (fun c => is_ascii_digit c = true) body ->
  verify_isbn (string_of_list_ascii (body ++ [c])) =
  if decide (c <> "-"%char /\ c <> " "%char) then
    if py_isdigit_char c then
      if is_ascii_digit c then
        Ok ((10 - weighted_sum (fun i => if Nat.even i then 1 else 3)
                    (map digit_val body) mod 10) mod 10 =? digit_val c)
      else Raise ValueError
    else Ok false
  else Ok false.
Proof.
  intros Hl Hb. unfold verify_isbn. rewrite chars_str.
  rewrite filter_app, filter_sep_digits by done.
  rewrite filter_cons, filter_nil.
  destruct (decide (c <> "-"%char /\ c <> " "%char)) as [_|Hn].
  - rewrite decide_False by (rewrite length_app; simpl; lia).
    rewrite decide_True by (rewrite length_app; simpl; lia).
    rewrite forallb_app, forallb_isdigit_digits by done. simpl forallb.
    rewrite andb_true_r.
    destruct (py_isdigit_char c); simpl negb; cbv iota; [|done].
    rewrite <- Hl, take_app_length, drop_app_length.
    rewrite mapM_int_of_char by done. simpl.
    unfold int_of_char. by destruct (is_ascii_digit c).
  - rewrite app_nil_r.
    rewrite decide_False by lia. by rewrite decide_False by lia.
Qed.

(** X12: among the characters of the model, the code points 0 to 255,
    twelve ASCII digits have exactly one thirteenth character that makes
    [verify_isbn] return [True], and it is one of the ASCII digits. *)
Theorem verify_isbn_13_check_digit (body : list ascii) :
  length body = 12%nat ->
  Forall (fun c => is_ascii_digit c = true) body ->
  exists check,
    is_ascii_digit check = true /\
    forall c, verify_isbn (string_of_list_ascii (body ++ [c])) = Ok true
              <-> c = check.
Proof.
  intros Hl Hb.
  set (d := (10 - weighted_sum (fun i => if Nat.even i then 1 else 3)
                    (map digit_val body) mod 10) mod 10).
  assert (Hd : 0 <= d <= 9) by (pose proof (Z.mod_pos_bound
    (10 - weighted_sum (fun i => if Nat.even i then 1 else 3)
            (map digit_val body) mod 10) 10); unfold d; lia).
  destruct (digit_char_spec d Hd) as [Hc Hv].
  exists (digit_char d). split; [done|]. intros c.
  rewrite verify_isbn_13 by done. fold d. split.
  - case_decide; [|done].
    destruct (py_isdigit_char c); [|done].
    destruct (is_ascii_digit c) eqn:Ec; [|done].
    intros [= Heq%Z.eqb_eq]. rewrite Heq. symmetry. by apply digit_char_val.
  - intros ->. rewrite decide_True by by apply digit_not_sep.
    unfold py_isdigit_char. rewrite Hc. simpl. rewrite Hv.
    by rewrite Z.eqb_refl.
Qed.

Lemma verify_isbn_13_check_digit_witness :
  exists check,
    is_ascii_digit check = true /\
    forall c, verify_isbn (string_of_list_ascii (chars "978968670857" ++ [c]))
                = Ok true
              <-> c = check.
Proof.
  apply (verify_isbn_13_check_digit (chars "978968670857")).
  - reflexivity.
  - repeat constructor.
Defined.

(** [verify_isbn] on nine digits and one more character. *)
Lemma verify_isbn_10 body c :
  length body = 9%nat ->
  Forall (fun c => is_ascii_digit c = true) body ->
  verify_isbn (string_of_list_ascii (body ++ [c])) =
  if decide (c <> "-"%char /\ c <> " "%char) then
    if decide (c = "X"%char) then
      Ok ((weighted_sum (fun i => 10 - Z.of_nat i) (map digit_val body) + 10)
            mod 11 =? 0)
    else if is_ascii_digit c then
      Ok ((weighted_sum (fun i => 10 - Z.of_nat i) (map digit_val body)
           + digit_val c) mod 11 =? 0)
    else Ok false
  else Ok false.
Proof.
  intros Hl Hb. unfold verify_isbn. rewrite chars_str.
  rewrite filter_app, filter_sep_digits by done.
  rewrite filter_cons, filter_nil.
  destruct (decide (c <> "-"%char /\ c <> " "%char)) as [_|Hn].
  - rewrite decide_True by (rewrite length_app; simpl; lia).
    rewrite <- Hl, take_app_length, drop_app_length.
    rewrite forallb_isdigit_digits by done. simpl negb. rewrite orb_false_l.
    rewrite mapM_int_of_char by done.
    destruct (decide (c = "X"%char)) as [->|HX].
    + rewrite bool_decide_eq_true_2; [done|].
      apply Exists_cons_hd. vm_compute. by repeat constructor.
    + destruct (is_ascii_digit c) eqn:Ec.
      * rewrite bool_decide_eq_true_2.
        2:{ apply Exists_cons_hd. rewrite <- (digit_char_val c Ec).
            pose proof (is_ascii_digit_range c Ec) as Hr.
            unfold digit_range in Hr.
            assert (Hcases : digit_val c = 0 \/ digit_val c = 1 \/
              digit_val c = 2 \/ digit_val c = 3 \/ digit_val c = 4 \/
              digit_val c = 5 \/ digit_val c = 6 \/ digit_val c = 7 \/
              digit_val c = 8 \/ digit_val c = 9) by lia.
            destruct Hcases as [->|[->|[->|[->|[->|[->|[->|[->|[->| ->]]]]]]]]];
              vm_compute; by repeat constructor. }
        simpl. unfold int_of_char. by rewrite Ec.
      * rewrite bool_decide_eq_false_2; [done|].
        intros Hex. apply Exists_cons in Hex as [Hin|Hex];
          [|by apply Exists_nil in Hex].
        unfold chars in Hin. simpl in Hin.
        repeat (apply elem_of_cons in Hin as [->|Hin]; [done|]).
        by apply elem_of_nil in Hin.
  - rewrite app_nil_r.
    rewrite decide_False by lia. by rewrite decide_False by lia.
Qed.

(** X13: nine decimal digits have exactly one tenth character that makes
    [verify_isbn] return [True]; it is a decimal digit or [X]. *)
Theorem verify_isbn_10_check_char (body : list ascii) :
  length body = 9%nat ->
  Forall (fun c => is_ascii_digit c = true) body ->
  exists check,
    (is_ascii_digit check = true \/ check = "X"%char) /\
    forall c, verify_isbn (string_of_list_ascii (body ++ [c])) = Ok true
              <-> c = check.
Proof.
  intros Hl Hb.
  set (s := weighted_sum (fun i => 10 - Z.of_nat i) (map digit_val body)).
  set (d := (11 - s mod 11) mod 11).
  pose proof (Z.mod_pos_bound s 11) as Hs.
  pose proof (Z.mod_pos_bound (11 - s mod 11) 11) as Hd. fold d in Hd.
  assert (Hsum : forall v, 0 <= v <= 10 -> ((s + v) mod 11 = 0 <-> v = d)).
  { intros v Hv. unfold d. rewrite Z.add_mod by lia.
    rewrite (Z.mod_small v 11) by lia.
    destruct (decide (s mod 11 = 0)) as [E|E].
    - rewrite E. simpl. split.
      + intros Hm. destruct (decide (v = 0)) as [->|?]; [done|].
        destruct (decide (v = 11)); [lia|].
        rewrite Z.mod_small in Hm by lia. lia.
      + intros ->. done.
    - rewrite (Z.mod_small (11 - s mod 11)) by lia. split.
      + intros Hm. destruct (decide (s mod 11 + v < 11)).
        * rewrite Z.mod_small in Hm by lia. lia.
        * assert ((s mod 11 + v) mod 11 = s mod 11 + v - 11).
          { symmetry. apply (Z.mod_unique _ _ 1); lia. }
          lia.
      + intros ->. replace (s mod 11 + (11 - s mod 11)) with (1 * 11) by lia.
        by rewrite Z.mod_mul. }
  destruct (decide (d = 10)) as [Ed|Ed].
  - exists "X"%char. split; [by right|]. intros c.
    rewrite verify_isbn_10 by done. fold s. split.
    + case_decide; [|done]. case_decide; [done|].
      destruct (is_ascii_digit c) eqn:Ec; [|done].
      intros [= Heq%Z.eqb_eq]. pose proof (is_ascii_digit_range c Ec) as Hr.
      unfold digit_range in Hr. apply Hsum in Heq; lia.
    + intros ->. rewrite decide_True by done. rewrite decide_True by done.
      f_equal. apply Z.eqb_eq, Hsum; lia.
  - assert (Hd9 : 0 <= d <= 9) by lia.
    destruct (digit_char_spec d Hd9) as [Hc Hv].
    exists (digit_char d). split; [by left|]. intros c.
    rewrite verify_isbn_10 by done. fold s. split.
    + case_decide; [|done]. case_decide as HX.
      * intros [= Heq%Z.eqb_eq]. apply Hsum in Heq; lia.
      * destruct (is_ascii_digit c) eqn:Ec; [|done].
        intros [= Heq%Z.eqb_eq]. pose proof (is_ascii_digit_range c Ec) as Hr.
        unfold digit_range in Hr. apply Hsum in Heq; [|lia].
        rewrite <- Heq. symmetry. by apply digit_char_val.
    + intros ->. rewrite decide_True by by apply digit_not_sep.
      rewrite decide_False by (intros E; by rewrite E in Hc).
      rewrite Hc, Hv. f_equal. apply Z.eqb_eq, Hsum; lia.
Qed.

Lemma verify_isbn_10_check_char_witness :
  exists check,
    (is_ascii_digit check = true \/ check = "X"%char) /\
    forall c, verify_isbn (string_of_list_ascii (chars "968670857" ++ [c]))
                = Ok true
              <-> c = check.
Proof.
  apply (verify_isbn_10_check_char (chars "968670857")).
  - reflexivity.
  - repeat constructor.
Defined.

End VerifyIsbn.

Section VerifyIsbnRaises.
Import DataHandler.

Lemma int_of_char_raise c e : int_of_char c = Raise e -> e = ValueError.
Proof. unfold int_of_char. case_match; [done|congruence]. Qed.

Lemma mapM_int_of_char_raise cs e :
  result_mapM int_of_char cs = Raise e -> e = ValueError.
Proof.
  induction cs as [|c cs IH]; simpl; [done|].
  destruct (int_of_char c) as [v|e'] eqn:Ec; simpl.
  - destruct (result_mapM int_of_char cs) as [vs|e'']; simpl; [done|].
    intros [= <-]. by apply IH.
  - intros [= <-]. by apply int_of_char_raise in Ec.
Qed.

Lemma forallb_isdigit_ascii cs :
  Forall (fun c => ~ superscript_digit c) cs ->
  forallb py_isdigit_char cs = true ->
  Forall (fun c => is_ascii_digit c = true) cs.
Proof.
  induction 1 as [|c cs Hc _ IH]; simpl; [done|].
  intros [Hd Hr]%andb_true_iff. constructor; [|by apply IH].
  destruct (is_ascii_digit c) eqn:Ec; [done|]. by destruct Hc.
Qed.

Lemma verify_isbn_ok isbn :
  Forall (fun c => ~ superscript_digit c) (chars isbn) ->
  exists b, verify_isbn isbn = Ok b.
Proof.
  intros Hall. unfold verify_isbn.
  set (cs := filter _ (chars isbn)).
  assert (Hcs : Forall (fun c => ~ superscript_digit c) cs).
  { apply Forall_forall. intros c Hc.
    apply list_elem_of_filter in Hc as [_ Hc].
    rewrite Forall_forall in Hall. by apply Hall. }
  clearbody cs. case_decide as H10; [|case_decide as H13]; [| |by eexists].
  - destruct (forallb py_isdigit_char (take 9 cs)) eqn:Eb; simpl;
      [|by eexists].
    case_bool_decide as Hlast; simpl; [|by eexists].
    rewrite mapM_int_of_char
      by (apply forallb_isdigit_ascii; [by apply Forall_take|done]).
    simpl.
    assert (Hd : exists c, drop 9 cs = [c]).
    { pose proof (length_drop cs 9) as Hl. rewrite H10 in Hl.
      destruct (drop 9 cs) as [|c [|? ?]]; try done. by exists c. }
    destruct Hd as [c Hd]. rewrite Hd in *.
    case_decide; simpl; [by eexists|].
    apply Exists_cons in Hlast as [Hin|Hex]; [|by apply Exists_nil in Hex].
    assert (Hdig : is_ascii_digit c = true).
    { unfold chars in Hin. simpl in Hin.
      repeat (apply elem_of_cons in Hin as [->|Hin]; [done|]).
      by apply elem_of_nil in Hin. }
    unfold int_of_char. rewrite Hdig. simpl. by eexists.
  - destruct (forallb py_isdigit_char cs) eqn:Eb; simpl; [|by eexists].
    pose proof (forallb_isdigit_ascii cs Hcs Eb) as Hdigits.
    rewrite mapM_int_of_char by by apply Forall_take. simpl.
    assert (Hd : exists c, drop 12 cs = [c]).
    { pose proof (length_drop cs 12) as Hl. rewrite H13 in Hl.
      destruct (drop 12 cs) as [|c [|? ?]]; try done. by exists c. }
    destruct Hd as [c Hd]. rewrite Hd.
    assert (Hdig : is_ascii_digit c = true).
    { rewrite Forall_forall in Hdigits. apply Hdigits.
      apply (subseteq_drop 12 cs). rewrite Hd. by left. }
    unfold int_of_char. rewrite Hdig. simpl. by eexists.
Qed.

Lemma verify_isbn_raise isbn e : verify_isbn isbn = Raise e -> e = ValueError.
Proof.
  unfold verify_isbn. set (cs := filter _ (chars isbn)). clearbody cs.
  case_decide; [|case_decide]; [| |done].
  - case_match; [done|].
    destruct (result_mapM int_of_char (take 9 cs)) as [ds|e'] eqn:Eds; simpl.
    + destruct (drop 9 cs) as [|c [|? ?]]; simpl; try congruence.
      case_decide; simpl; [done|].
      destruct (int_of_char c) eqn:Ec; simpl; [done|].
      intros [= <-]. by apply int_of_char_raise in Ec.
    + intros [= <-]. by apply mapM_int_of_char_raise in Eds.
  - case_match; [done|].
    destruct (result_mapM int_of_char (take 12 cs)) as [ds|e'] eqn:Eds; simpl.
    + destruct (drop 12 cs) as [|c [|? ?]]; simpl; try congruence.
      destruct (int_of_char c) eqn:Ec; simpl; [done|].
      intros [= <-]. by apply int_of_char_raise in Ec.
    + intros [= <-]. by apply mapM_int_of_char_raise in Eds.
Qed.

Lemma verify_isbn_raise_superscript (isbn : string) (e : exn) :
  verify_isbn isbn = Raise e ->
  e = ValueError /\ Exists superscript_digit (chars isbn).
Proof.
  intros Hr. split; [by eapply verify_isbn_raise|].
  destruct (Forall_Exists_dec (fun c => ~ superscript_digit c) superscript_digit
              (fun c => match decide (superscript_digit c) with
                        | left H => right H
                        | right H => left H
                        end) (chars isbn)) as [Hall|Hex]; [|done].
  destruct (verify_isbn_ok isbn Hall) as [b Hb]. congruence.
Qed.

(** X14: [verify_isbn] raises nothing but [ValueError], and only on a
    string that holds one of the superscript digits, which [str.isdigit]
    accepts and [int] rejects. *)
Theorem verify_isbn_raises_on_superscript (isbn : string) (e : exn) :
  verify_isbn isbn = Raise e ->
  e = ValueError /\ Exists superscript_digit (chars isbn).
Proof. apply verify_isbn_raise_superscript. Qed.

Lemma verify_isbn_raises_on_superscript_witness :
  ValueError = ValueError /\
  Exists superscript_digit
    (chars (String (Ascii.ascii_of_nat 178) "780000000019")).
Proof.
  apply (verify_isbn_raises_on_superscript
           (String (Ascii.ascii_of_nat 178) "780000000019") ValueError).
  vm_compute. reflexivity.
Defined.

End VerifyIsbnRaises.

(** ** _get_isbn_position: the forms of an ISBN *)
Section IsbnPosition.
Import DataHandler.

Lemma int_of_digits_snoc s c :
  int_of_digits (s ++ [c]) = int_of_digits s * 10 + digit_val c.
Proof. unfold int_of_digits. by rewrite fold_left_app. Qed.

Lemma int_of_digits_app a b :
  int_of_digits (a ++ b) =
  int_of_digits a * 10 ^ Z.of_nat (length b) + int_of_digits b.
Proof.
  induction b as [|c b IH] using rev_ind.
  - rewrite app_nil_r. simpl. unfold int_of_digits at 3. simpl. lia.
  - rewrite app_assoc, !int_of_digits_snoc, IH, length_app. simpl.
    rewrite Nat2Z.inj_add, Z.pow_add_r by lia. simpl Z.of_nat.
    change (10 ^ 1) with 10. lia.
Qed.

Lemma int_of_digits_bound s :
  Forall (fun c => is_ascii_digit c = true) s ->
  0 <= int_of_digits s < 10 ^ Z.of_nat (length s).
Proof.
  induction s as [|c s IH] using rev_ind; intros Hs.
  - unfold int_of_digits. simpl. lia.
  - apply Forall_app in Hs as [Hs Hc]. apply Forall_inv in Hc.
    apply is_ascii_digit_range in Hc. unfold digit_range in Hc.
    rewrite int_of_digits_snoc, length_app. simpl.
    rewrite Nat2Z.inj_add, Z.pow_add_r by lia. simpl Z.of_nat.
    change (10 ^ 1) with 10. specialize (IH Hs). lia.
Qed.

Lemma digits_of_Forall isbn :
  Forall (fun c => is_ascii_digit c = true) (digits_of isbn).
Proof.
  apply Forall_forall. intros c Hc. unfold digits_of in Hc.
  apply list_elem_of_filter in Hc as [Hc _]. by apply Is_true_true.
Qed.

(** [_get_isbn_position] in terms of the digits of the string. *)
Lemma _get_isbn_position_digits isbn :
  _get_isbn_position isbn =
  match removelast (digits_of isbn) with
  | [] => None
  | base =>
      let base :=
        if decide (length base < 12)%nat then chars "978" ++ base else base in
      let position :=
        int_of_digits (drop (length base - 12) base) - 978000000000 in
      if decide (0 <= position < 2 ^ 32) then Some position else None
  end.
Proof.
  unfold _get_isbn_position, digits_of.
  destruct (decide (isbn = ""%string)) as [->|_]; [reflexivity|].
  by destruct (removelast _).
Qed.

(** X15: a string whose digits are nine digits and a check digit, with
    or without 978 in front, has the nine digits read as a number for
    position; with 979 in front the position is [10^9] more.  Characters
    that are not digits play no part. *)
Theorem _get_isbn_position_forms (isbn : string) (body : list ascii) (c : ascii) :
  length body = 9%nat ->
  (digits_of isbn = body ++ [c] \/
   digits_of isbn = chars "978" ++ body ++ [c] ->
   _get_isbn_position isbn = Some (int_of_digits body)) /\
  (digits_of isbn = chars "979" ++ body ++ [c] ->
   _get_isbn_position isbn = Some (1000000000 + int_of_digits body)).
Proof.
  intros Hl. rewrite _get_isbn_position_digits.
  pose proof (digits_of_Forall isbn) as Hd.
  assert (Hbody : forall pre, digits_of isbn = pre ++ body ++ [c] ->
            0 <= int_of_digits body < 1000000000).
  { intros pre E. rewrite E in Hd.
    apply Forall_app in Hd as [_ Hd]. apply Forall_app in Hd as [Hd _].
    apply int_of_digits_bound in Hd. by rewrite Hl in Hd. }
  split.
  - intros [E|E].
    + pose proof (Hbody [] E) as Hr. rewrite E, removelast_last.
      destruct body as [|b0 body']; [done|]. simpl length in *.
      cbv zeta. destruct (decide (_ < 12)%nat) as [_|Hn]; [|simpl in Hn; lia].
      replace (length (chars "978" ++ b0 :: body') - 12)%nat with 0%nat
        by (rewrite length_app; simpl; lia).
      rewrite drop_0, int_of_digits_app. simpl length. rewrite Hl.
      change (int_of_digits (chars "978")) with 978.
      change (10 ^ Z.of_nat 9) with 1000000000.
      rewrite decide_True by (change (2 ^ 32) with 4294967296; lia).
      f_equal. lia.
    + pose proof (Hbody _ E) as Hr. rewrite E.
      rewrite (app_assoc _ body [c]), removelast_last.
      change (chars "978" ++ body) with ("9"%char :: "7"%char :: "8"%char :: body).
      cbv beta iota.
      cbv zeta. destruct (decide (_ < 12)%nat) as [Hn|_]; [simpl in Hn; lia|].
      replace (length ("9"%char :: "7"%char :: "8"%char :: body) - 12)%nat
        with 0%nat by (simpl; lia).
      rewrite drop_0.
      change ("9"%char :: "7"%char :: "8"%char :: body)
        with (chars "978" ++ body).
      rewrite (int_of_digits_app (chars "978") body). rewrite Hl.
      change (int_of_digits (chars "978")) with 978.
      change (10 ^ Z.of_nat 9) with 1000000000.
      rewrite decide_True by (change (2 ^ 32) with 4294967296; lia).
      f_equal. lia.
  - intros E. pose proof (Hbody _ E) as Hr. rewrite E.
    rewrite (app_assoc _ body [c]), removelast_last.
    change (chars "979" ++ body) with ("9"%char :: "7"%char :: "9"%char :: body).
    cbv beta iota.
    cbv zeta. destruct (decide (_ < 12)%nat) as [Hn|_]; [simpl in Hn; lia|].
    replace (length ("9"%char :: "7"%char :: "9"%char :: body) - 12)%nat
      with 0%nat by (simpl; lia).
    rewrite drop_0.
    change ("9"%char :: "7"%char :: "9"%char :: body)
      with (chars "979" ++ body).
    rewrite (int_of_digits_app (chars "979") body). rewrite Hl.
    change (int_of_digits (chars "979")) with 979.
    change (10 ^ Z.of_nat 9) with 1000000000.
    rewrite decide_True by (change (2 ^ 32) with 4294967296; lia).
    f_equal. lia.
Qed.

Lemma _get_isbn_position_forms_witness :
  _get_isbn_position "978-0-00-000123-4" = Some (int_of_digits (chars "000000123")).
Proof.
  apply (proj1 (_get_isbn_position_forms "978-0-00-000123-4"
                  (chars "000000123") "4"%char eq_refl)).
  right. reflexivity.
Defined.

(** X16: a string with fewer than thirteen digits has a position only
    when it has exactly ten; an ISBN-10 whose check character is [X] has
    nine digits and so has none. *)
Theorem _get_isbn_position_digit_count (isbn : string) :
  length (digits_of isbn) <> 10%nat ->
  (length (digits_of isbn) < 13)%nat ->
  _get_isbn_position isbn = None.
Proof.
  intros H10 H13. rewrite _get_isbn_position_digits.
  pose proof (digits_of_Forall isbn) as Hd.
  induction (digits_of isbn) as [|d l _] using rev_ind; [done|].
  rewrite removelast_last. rewrite length_app in H10, H13.
  simpl in H10, H13. apply Forall_app in Hd as [Hd _].
  pose proof (int_of_digits_bound _ Hd) as Hb.
  destruct l as [|b0 l']; [done|]. set (base := b0 :: l') in *.
  cbv beta iota. cbv zeta. destruct (decide (_ < 12)%nat) as [_|Hn]; [|lia].
  assert (Hlen : length (chars "978" ++ base) = (3 + length base)%nat)
    by by rewrite length_app.
  assert (Hpos : (1 <= length base)%nat) by (unfold base; simpl; lia).
  destruct (decide (length base <= 8)%nat) as [H8|H8].
  - replace (length (chars "978" ++ base) - 12)%nat with 0%nat by lia.
    rewrite drop_0, int_of_digits_app.
    change (int_of_digits (chars "978")) with 978.
    assert (10 ^ Z.of_nat (length base) <= 10 ^ 8)
      by (apply Z.pow_le_mono_r; lia).
    change (10 ^ 8) with 100000000 in *.
    rewrite decide_False; [done|]. lia.
  - destruct (decide (length base = 10%nat)) as [E|E].
    + replace (length (chars "978" ++ base) - 12)%nat with 1%nat by lia.
      change (drop 1 (chars "978" ++ base)) with (chars "78" ++ base).
      rewrite int_of_digits_app. rewrite E in *.
      change (int_of_digits (chars "78")) with 78.
      change (10 ^ Z.of_nat 10) with 10000000000 in *.
      rewrite decide_False; [done|]. lia.
    + assert (E11 : length base = 11%nat) by lia.
      replace (length (chars "978" ++ base) - 12)%nat with 2%nat by lia.
      change (drop 2 (chars "978" ++ base)) with (chars "8" ++ base).
      rewrite int_of_digits_app. rewrite E11 in *.
      change (int_of_digits (chars "8")) with 8.
      change (10 ^ Z.of_nat 11) with 100000000000 in *.
      rewrite decide_False; [done|]. lia.
Qed.

Lemma _get_isbn_position_digit_count_witness :
  _get_isbn_position "968670857X" = None.
Proof.
  apply (_get_isbn_position_digit_count "968670857X").
  - vm_compute. lia.
  - vm_compute. lia.
Defined.

End IsbnPosition.

(** ** _create_bytes: what a flush writes *)
Section CreateBytes.
Import IsbnPropsDecoder DataHandler.

Lemma encode_chunk_stored h y chunk :
  encode_chunk h y chunk =
  encode_chunk (stored_holdings <$> h) (stored_year <$> y) chunk.
Proof.
  unfold encode_chunk.
  assert (Hh : bool_decide (is_Some (stored_holdings <$> h))
               = bool_decide (is_Some h)) by by destruct h.
  assert (Hy : bool_decide (is_Some (stored_year <$> y))
               = bool_decide (is_Some y)) by by destruct y.
  rewrite Hh, Hy.
  destruct h as [hv|], y as [yv|]; simpl; unfold stored_holdings, stored_year;
    repeat f_equal;
    try replace (Z.min 255 (Z.max 0 (Z.min 255 (Z.max 0 hv))))
      with (Z.min 255 (Z.max 0 hv)) by lia;
    try replace (Z.min 255 (Z.max 0 (2025 - (2025 - Z.min 255 (Z.max 0 (2025 - yv))))))
      with (Z.min 255 (Z.max 0 (2025 - yv))) by lia;
    done.
Qed.

Lemma encode_chunk_frame_stored h y chunk :
  (length chunk <= 15)%nat ->
  Forall (fun p => 0 <= p < 2 ^ 32) chunk ->
  exists bs, encode_chunk h y chunk = Ok bs /\ complete_frame bs /\
             decode_frame bs =
               mk_ISBNPropsRecord chunk (stored_holdings <$> h)
                                  (stored_year <$> y).
Proof.
  intros Hlen Hpos. rewrite encode_chunk_stored.
  apply encode_chunk_frame; [done|done|..].
  - intros v Hv. destruct h; simpl in Hv; [|done]. injection Hv as <-.
    unfold stored_holdings. lia.
  - intros v Hv. destruct y; simpl in Hv; [|done]. injection Hv as <-.
    unfold stored_year. lia.
Qed.

Lemma chunks_of_nonempty {A} (l : list A) :
  Forall (fun c => (1 <= length c)%nat) (chunks_of l).
Proof.
  unfold chunks_of, range_step, MAX_CHUNK_SIZE.
  rewrite map_map. apply Forall_map, Forall_forall. intros k Hk. simpl.
  apply list_elem_of_In, in_seq in Hk. unfold slice.
  rewrite length_take, length_drop.
  pose proof (Nat.div_mod_eq (length l - 0 + (15 - 1)) 15).
  pose proof (Nat.mod_upper_bound (length l - 0 + (15 - 1)) 15). lia.
Qed.

Lemma sorted_lt (P : gset Z) : StronglySorted Z.lt (sorted P).
Proof.
  destruct (sorted_spec P) as (Hs & Hnd & _).
  induction Hs as [|a l Hs IH Ha]; [constructor|].
  apply NoDup_cons in Hnd as [Hnin Hnd]. constructor; [by apply IH|].
  apply Forall_forall. intros x Hx. rewrite Forall_forall in Ha.
  specialize (Ha x Hx). assert (x <> a) by (intros ->; done). lia.
Qed.

(** What the encoder writes for a set of positions. *)
Lemma encode_positions_decodes (P : gset Z) (h y : option Z) :
  (forall p, p ∈ P -> 0 <= p < 2 ^ 32) ->
  match encode_positions P h y with
  | Ok (Some encoded) =>
      sorted P <> [] /\
      decode_stream encoded =
        (map (fun chunk => mk_ISBNPropsRecord chunk (stored_holdings <$> h)
                                              (stored_year <$> y))
             (chunks_of (sorted P)), EndOfStream)
  | Ok None => True
  | Raise _ => False
  end.
Proof.
  intros Hrange. unfold encode_positions.
  set (l := sorted P).
  assert (Hl : Forall (fun p => 0 <= p < 2 ^ 32) l).
  { apply Forall_forall. intros p Hp. apply Hrange.
    by apply (sorted_spec P) in Hp. }
  destruct (negb _) eqn:Eguard; [done|].
  apply negb_false_iff, andb_true_iff in Eguard as [Hlen _].
  apply Nat.ltb_lt in Hlen.
  rewrite (result_mapM_map (encode_chunk h y)
             (fun i => slice l i (i + MAX_CHUNK_SIZE))).
  fold (chunks_of l).
  destruct (result_mapM_ok (encode_chunk h y)
              (fun chunk bs =>
                 complete_frame bs /\
                 decode_frame bs =
                   mk_ISBNPropsRecord chunk (stored_holdings <$> h)
                                      (stored_year <$> y))
              (chunks_of l)) as (all_chunks & -> & HF).
  { eapply Forall_impl; [exact (chunks_of_Forall _ l Hl)|].
    intros chunk [Hc Hp]. by apply encode_chunk_frame_stored. }
  assert (Hdec : map decode_frame all_chunks
                 = map (fun chunk => mk_ISBNPropsRecord chunk
                          (stored_holdings <$> h) (stored_year <$> y))
                       (chunks_of l)).
  { clear -HF. induction HF as [|c bs cs bss [_ Hd] _ IH]; simpl; [done|].
    by rewrite Hd, IH. }
  assert (Hframes : Forall complete_frame all_chunks).
  { clear -HF. induction HF as [|c bs cs bss [Hc _] _ IH]; constructor; done. }
  simpl. destruct all_chunks as [|f fs] eqn:E; [done|]. rewrite <- E in *.
  split; [intros Hnil; rewrite Hnil in Hlen; simpl in Hlen; lia|].
  by rewrite complete_frames_decode, Hdec.
Qed.

Lemma rewrite_prefix_range p :
  0 <= p < 2 ^ 32 -> 0 <= rewrite_prefix p < 2 ^ 32.
Proof. unfold rewrite_prefix. case_decide; lia. Qed.

Lemma positions_of_range isbns q :
  q ∈ positions_of isbns -> 0 <= q < 2 ^ 32.
Proof.
  unfold positions_of. rewrite elem_of_list_to_set, list_elem_of_omap.
  intros (isbn & _ & Hq).
  destruct (_get_isbn_position isbn) as [p|] eqn:Ep; simpl in Hq; [|done].
  injection Hq as <-. apply rewrite_prefix_range.
  by eapply _get_isbn_position_range.
Qed.

Lemma verified_isbns_raise isbns e :
  verified_isbns isbns = Raise e ->
  e = ValueError /\
  exists isbn, isbn ∈ isbns /\ Exists superscript_digit (chars isbn).
Proof.
  unfold verified_isbns.
  assert (H : forall l,
            match result_mapM (fun isbn => ok ← verify_isbn isbn; Ok (isbn, ok)) l with
            | Ok _ => True
            | Raise e => exists isbn, isbn ∈ l /\ verify_isbn isbn = Raise e
            end).
  { induction l as [|isbn l IH]; simpl; [done|].
    destruct (verify_isbn isbn) as [ok|e'] eqn:Ev; simpl.
    - destruct (result_mapM _ l) as [oks|e'']; simpl; [done|].
      destruct IH as (i & Hi & Hr). exists i. split; [by right|done].
    - exists isbn. split; [by left|done]. }
  specialize (H (elements isbns)).
  destruct (result_mapM _ (elements isbns)) as [oks|e'] eqn:Em; simpl; [done|].
  intros [= <-]. destruct H as (isbn & Hin & Hr).
  apply verify_isbn_raise_superscript in Hr as [-> Hex].
  split; [done|]. exists isbn. split; [by apply elem_of_elements|done].
Qed.

Lemma _create_bytes_unfold h :
  _create_bytes h =
  if decide (isbns h = ∅) then Ok None
  else match verified_isbns (isbns h) with
       | Ok verified =>
           encode_positions
             (positions_of (IsbnFilter.filter_invalid_isbns verified))
             (DataHandler.holdings_count h) (DataHandler.year h)
       | Raise e => Raise e
       end.
Proof. reflexivity. Qed.

(** X17: a flush raises nothing but [ValueError], and only when one of the
    ISBN strings holds a superscript digit.  The bytes it returns decode to
    the end of the stream, into at least one record; every record has
    between one and fifteen positions and carries the clamped holdings
    count and the clamped year of the handler, and the positions of all
    records together increase strictly. *)
Theorem _create_bytes_decodes (h : handler) :
  match _create_bytes h with
  | Ok (Some encoded) =>
      exists decoded,
        decode_stream encoded = (decoded, EndOfStream) /\
        decoded <> [] /\
        Forall (fun r =>
                  (1 <= length (isbn_positions r) <= 15)%nat /\
                  IsbnPropsDecoder.holdings_count r
                    = stored_holdings <$> DataHandler.holdings_count h /\
                  IsbnPropsDecoder.year r
                    = stored_year <$> DataHandler.year h) decoded /\
        StronglySorted Z.lt (concat (map isbn_positions decoded))
  | Ok None => True
  | Raise e =>
      e = ValueError /\
      exists isbn, isbn ∈ isbns h /\ Exists superscript_digit (chars isbn)
  end.
Proof.
  rewrite _create_bytes_unfold. case_decide; [done|].
  destruct (verified_isbns (isbns h)) as [verified|e] eqn:Ev;
    [|by apply verified_isbns_raise].
  set (P := positions_of _).
  pose proof (encode_positions_decodes P (DataHandler.holdings_count h)
                (DataHandler.year h) (positions_of_range _)) as Hd.
  clearbody P.
  destruct (encode_positions P _ _) as [[encoded|]|e]; [|done..].
  destruct Hd as [Hne Hd]. eexists. split; [exact Hd|].
  split; [|split].
  - pose proof (chunks_of_concat (sorted P)) as Hc.
    destruct (chunks_of (sorted P)); [by rewrite <- Hc in Hne|done].
  - apply Forall_map.
    pose proof (chunks_of_Forall (fun _ => True) (sorted P)
                  ltac:(by apply Forall_forall)) as H15.
    pose proof (chunks_of_nonempty (sorted P)) as H1.
    rewrite Forall_forall in H15, H1. apply Forall_forall.
    intros chunk Hin. cbn [isbn_positions IsbnPropsDecoder.holdings_count
                           IsbnPropsDecoder.year]. split; [|done].
    split; [by apply H1|by apply H15].
  - rewrite map_map. cbn [isbn_positions]. rewrite map_id, chunks_of_concat.
    apply sorted_lt.
Qed.

End CreateBytes.

(** ** process: a change of group *)
Section GroupSwitch.
Import DataHandler.

#[local] Existing Instance same_book_equiv.

Lemma reset_same_book h oclc_id :
  same_book (incr_total_results (set_current_id (Some oclc_id) (_reset_state h)))
            (set_current_id (Some oclc_id) init).
Proof. by repeat split. Qed.

Lemma process_switch oclc_id h data :
  in_group oclc_id data ->
  is_Some (current_id h) -> current_id h <> Some oclc_id ->
  process h data =
  match _create_bytes h with
  | Ok result =>
      (_merge_record_data
         (incr_total_results (set_current_id (Some oclc_id) (_reset_state h)))
         data, Ok result)
  | Raise e => (h, Raise e)
  end.
Proof.
  unfold in_group, process. intros -> Hs Hne. by rewrite decide_True.
Qed.

(** X18: two groups of lines with different OCLC ids, fed one after the
    other to a fresh handler and followed by the flushing line: the first
    line of the second group returns the bytes of the first group, the
    flushing line returns the bytes of the second group, and every other
    line returns [None].  The second group is merged from a clean state:
    nothing of the first group enters its bytes. *)
Theorem process_two_groups (id1 id2 : string) (group1 group2 : list line) :
  id1 <> id2 -> group1 <> [] -> group2 <> [] ->
  Forall (in_group id1) group1 -> Forall (in_group id2) group2 ->
  (process_all init (group1 ++ group2 ++ [flush_line])).2 =
  (bytes1 ← _create_bytes (merged (set_current_id (Some id1) init) group1);
   bytes2 ← _create_bytes (merged (set_current_id (Some id2) init) group2);
   Ok (map (fun _ => None) group1 ++ [bytes1]
       ++ map (fun _ => None) (tail group2) ++ [bytes2])).
Proof.
  intros Hne Hn1 Hn2 Hg1 Hg2.
  destruct group2 as [|d2 group2]; [done|]. clear Hn2.
  apply Forall_cons in Hg2 as [Hd2 Hg2].
  rewrite process_all_app.
  destruct (process_all_in_group id1 group1 init Hg1) as (h1 & -> & Hsame1);
    [by left|].
  destruct group1 as [|d1 group1]; [done|]. clear Hn1.
  assert (Hc1 : current_id h1 = Some id1).
  { destruct Hsame1 as [-> _]. by rewrite merged_current_id. }
  rewrite <- (_create_bytes_same_book _ _ Hsame1).
  change ((d2 :: group2) ++ [flush_line])
    with ([d2] ++ group2 ++ [flush_line]).
  rewrite (process_all_app [d2]). simpl process_all at 1.
  rewrite (process_switch id2) by (rewrite ?Hc1; done || congruence).
  destruct (_create_bytes h1) as [bytes1|e]; [|done].
  set (h2 := _merge_record_data _ d2).
  assert (Hc2 : current_id h2 = Some id2) by done.
  rewrite process_all_app.
  destruct (process_all_in_group id2 group2 h2 Hg2) as (h3 & -> & Hsame3);
    [by right|].
  assert (Hsame : same_book h3
            (merged (set_current_id (Some id2) init) (d2 :: group2))).
  { etrans; [exact Hsame3|]. simpl merged.
    etrans; [|apply merged_same_book, merge_same_book, reset_same_book].
    destruct group2; [done|]. apply merged_same_book. by repeat split. }
  rewrite <- (_create_bytes_same_book _ _ Hsame).
  assert (Hc3 : current_id h3 = Some id2).
  { destruct Hsame as [-> _]. by rewrite merged_current_id. }
  simpl process_all. unfold process at 1. simpl oclc_number. cbv iota.
  rewrite Hc3. destruct (_create_bytes h3) as [bytes2|e]; [|done].
  done.
Qed.

Lemma process_two_groups_witness :
  (process_all init
     ([mk_line None (Some (mk_metadata (Some "1")
         (Some (mk_record_fields (Some ["9780000000019"]) None (Some 5)
                  None None None None))))]
      ++ [mk_line None (Some (mk_metadata (Some "2")
            (Some (mk_record_fields (Some ["0000000027"]) None None
                     None None (Some "2000") None))))]
      ++ [flush_line])).2 =
  (bytes1 ← _create_bytes (merged (set_current_id (Some "1") init)
     [mk_line None (Some (mk_metadata (Some "1")
         (Some (mk_record_fields (Some ["9780000000019"]) None (Some 5)
                  None None None None))))]);
   bytes2 ← _create_bytes (merged (set_current_id (Some "2") init)
     [mk_line None (Some (mk_metadata (Some "2")
            (Some (mk_record_fields (Some ["0000000027"]) None None
                     None None (Some "2000") None))))]);
   Ok (map (fun _ => None)
         [mk_line None (Some (mk_metadata (Some "1")
            (Some (mk_record_fields (Some ["9780000000019"]) None (Some 5)
                     None None None None))))]
       ++ [bytes1]
       ++ map (fun _ => None)
            (tail [mk_line None (Some (mk_metadata (Some "2")
               (Some (mk_record_fields (Some ["0000000027"]) None None
                        None None (Some "2000") None))))])
       ++ [bytes2])).
Proof.
  apply (process_two_groups "1" "2").
  - done.
  - done.
  - done.
  - repeat constructor.
  - repeat constructor.
Defined.

End GroupSwitch.

(** ** Worker.run: the buffers a worker puts *)
Section WorkerRun.
Import IsbnPropsDecoder DataHandler ProcessorWorker.

Lemma well_framed_nil : well_framed [].
Proof. by exists []. Qed.

Lemma well_framed_app a b : well_framed a -> well_framed b -> well_framed (a ++ b).
Proof.
  intros (fa & -> & Ha) (fb & -> & Hb). exists (fa ++ fb).
  split; [by rewrite concat_app|by apply Forall_app].
Qed.

Lemma well_framed_decode b :
  well_framed b <-> (decode_stream b).2 = EndOfStream.
Proof.
  split.
  - intros (frames & -> & Hf). by rewrite complete_frames_decode.
  - intros He. destruct (decode_stream b) as [records e] eqn:Ed.
    simpl in He. subst e.
    destruct (decode_stream_complete _ _ Ed) as (frames & -> & Hf & _).
    by exists frames.
Qed.

Lemma _create_bytes_well_framed h encoded :
  _create_bytes h = Ok (Some encoded) -> well_framed encoded.
Proof.
  rewrite _create_bytes_unfold. case_decide; [done|].
  destruct (verified_isbns (isbns h)) as [verified|e]; [|done].
  set (P := positions_of _).
  pose proof (encode_positions_decodes P (DataHandler.holdings_count h)
                (DataHandler.year h) (positions_of_range _)) as Hd.
  clearbody P. intros He. rewrite He in Hd. destruct Hd as [_ Hd].
  apply well_framed_decode. by rewrite Hd.
Qed.

Lemma process_well_framed h data h' result :
  process h data = (h', Ok (Some result)) -> well_framed result.
Proof.
  unfold process. destruct (oclc_number (get_metadata data)) as [oclc_id|].
  - case_decide; [|done].
    destruct (_create_bytes h) as [r|e] eqn:Ec; [|done].
    intros [= _ ->]. by eapply _create_bytes_well_framed.
  - destruct (current_id h); [|done].
    destruct (_create_bytes h) as [r|e] eqn:Ec; [|done].
    intros [= _ ->]. by eapply _create_bytes_well_framed.
Qed.

(** One pass of the loop. *)
Lemma run_loop_unfold end_id lines start_id tells is_set full prev h buf puts :
  run_loop end_id lines start_id tells is_set full prev h buf puts =
  let '(tell, tells) := ask (default 0 prev) tells in
  let moved := bool_decide (Some tell <> prev) in
  let '(stop, is_set) := if moved then ask false is_set else (false, is_set) in
  if stop then Ok (h, buf, puts)
  else
    let prev := if moved then Some tell else prev in
    match lines with
    | [] => Ok (h, buf, puts)
    | data :: lines' =>
        let reached_start :=
          match start_id with
          | Some s => bool_decide (aacid data = Some s)
          | None => true
          end in
        if negb reached_start then
          run_loop end_id lines' start_id tells is_set full prev h buf puts
        else if bool_decide (is_Some end_id /\ aacid data = end_id) then
          Ok (h, buf, puts)
        else
          match process h data with
          | (h', Ok (Some result)) =>
              let buf := buf ++ result in
              if (batch_size <? length buf)%nat then
                let '(put, full, is_set) := try_put full is_set in
                run_loop end_id lines' None tells is_set full prev h' []
                         (if put then puts ++ [buf] else puts)
              else
                run_loop end_id lines' None tells is_set full prev h' buf puts
          | (h', Ok None) =>
              run_loop end_id lines' None tells is_set full prev h' buf puts
          | (_, Raise e) => Raise e
          end
    end.
Proof. by destruct lines. Qed.

Lemma ask_never_set is_set :
  Forall (fun answer => answer = false) is_set ->
  exists is_set',
    ask false is_set = (false, is_set') /\
    Forall (fun answer => answer = false) is_set'.
Proof.
  intros [|b is_set' -> Hall]; simpl.
  - by exists [].
  - by exists is_set'.
Qed.

Lemma try_put_never_set full : forall is_set,
  Forall (fun answer => answer = false) is_set ->
  exists full' is_set',
    try_put full is_set = (true, full', is_set') /\
    Forall (fun answer => answer = false) is_set'.
Proof.
  induction full as [|f full IH]; intros is_set Hall;
    destruct (ask_never_set is_set Hall) as (is_set' & Ha & Hall').
  - simpl. rewrite Ha. by eexists _, _.
  - simpl. rewrite Ha. destruct f.
    + by apply IH.
    + by eexists _, _.
Qed.

(** The loop when the stop event is never found set: the bytes it adds
    are the results of [process] on the lines of the range. *)
Lemma run_loop_never_set end_id lines :
  forall start_id tells is_set full prev h buf puts,
  Forall (fun answer => answer = false) is_set ->
  match process_all h (until_end end_id
                         (match start_id with
                          | Some s => from_start s lines
                          | None => lines
                          end)) with
  | (h', Ok results) =>
      exists buf' new_puts,
        run_loop end_id lines start_id tells is_set full prev h buf puts
          = Ok (h', buf', puts ++ new_puts) /\
        concat new_puts ++ buf' = buf ++ concat (omap id results)
  | (_, Raise e) =>
      run_loop end_id lines start_id tells is_set full prev h buf puts
        = Raise e
  end.
Proof.
  induction lines as [|data lines IH];
    intros start_id tells is_set full prev h buf puts Hall;
    rewrite run_loop_unfold;
    destruct (ask (default 0 prev) tells) as [tell tells'];
    cbv zeta;
    set (moved := bool_decide (Some tell <> prev));
    assert (Hask : exists is_set',
              (if moved then ask false is_set else (false, is_set))
                = (false, is_set') /\
              Forall (fun answer => answer = false) is_set')
      by (destruct moved; [by apply ask_never_set|by exists is_set]);
    destruct Hask as (is_set' & -> & Hall'); cbv iota beta.
  - destruct start_id; simpl; exists buf, [];
      by rewrite !app_nil_r.
  - set (prev' := if moved then Some tell else prev). clearbody prev'.
    assert (Hstart :
      (exists s, start_id = Some s /\ aacid data <> Some s) \/
      ((match start_id with
        | Some s => bool_decide (aacid data = Some s)
        | None => true
        end) = true /\
       (match start_id with
        | Some s => from_start s (data :: lines)
        | None => data :: lines
        end) = data :: lines)).
    { destruct start_id as [s|]; [|by right]. simpl.
      case_bool_decide; [by right|left; by exists s]. }
    destruct Hstart as [(s & -> & Hne)|[-> ->]].
    + simpl from_start. rewrite bool_decide_eq_false_2 by done.
      simpl negb. cbv iota.
      by apply (IH (Some s)).
    + simpl negb. cbv iota. simpl until_end.
      case_bool_decide as Hend.
      * simpl. exists buf, []. by rewrite !app_nil_r.
      * simpl process_all.
        destruct (process h data) as [h1 [[result|]|e]] eqn:Ep; [| |done].
        -- destruct (batch_size <? length (buf ++ result))%nat eqn:Eb.
           ++ destruct (try_put_never_set full is_set' Hall')
                as (full' & is_set'' & -> & Hall'').
              specialize (IH None tells' is_set'' full' prev' h1 []
                            (puts ++ [buf ++ result]) Hall'').
              destruct (process_all h1 (until_end end_id lines))
                as [h' [results|e]]; [|done].
              destruct IH as (buf' & new_puts & -> & Hcat).
              exists buf', ((buf ++ result) :: new_puts).
              split; [by rewrite <- app_assoc|].
              simpl. rewrite <- !app_assoc. f_equal. f_equal. exact Hcat.
           ++ specialize (IH None tells' is_set' full prev' h1 (buf ++ result)
                            puts Hall').
              destruct (process_all h1 (until_end end_id lines))
                as [h' [results|e]]; [|done].
              destruct IH as (buf' & new_puts & -> & Hcat).
              exists buf', new_puts. split; [done|].
              simpl. by rewrite Hcat, <- app_assoc.
        -- specialize (IH None tells' is_set' full prev' h1 buf puts Hall').
           destruct (process_all h1 (until_end end_id lines))
             as [h' [results|e]]; [|done].
           destruct IH as (buf' & new_puts & -> & Hcat).
           exists buf', new_puts. split; [done|exact Hcat].
Qed.

(** The loop in any environment: every buffer it puts is longer than
    [batch_size], and buffers are cut between results. *)
Lemma run_loop_buffers end_id lines :
  forall start_id tells is_set full prev h buf puts h' buf' puts',
  run_loop end_id lines start_id tells is_set full prev h buf puts
    = Ok (h', buf', puts') ->
  exists new_puts,
    puts' = puts ++ new_puts /\
    Forall (fun b => (batch_size < length b)%nat) new_puts /\
    (well_framed buf -> well_framed buf' /\ Forall well_framed new_puts).
Proof.
  assert (Hstay : forall (h : handler) (buf : bytes) (puts : list bytes)
                         h' buf' puts',
            Ok (h, buf, puts) = Ok (h', buf', puts') ->
            exists new_puts,
              puts' = puts ++ new_puts /\
              Forall (fun b => (batch_size < length b)%nat) new_puts /\
              (well_framed buf -> well_framed buf' /\ Forall well_framed new_puts)).
  { intros h buf puts h' buf' puts' [= <- <- <-]. exists [].
    by rewrite app_nil_r. }
  induction lines as [|data lines IH];
    intros start_id tells is_set full prev h buf puts h' buf' puts';
    rewrite run_loop_unfold;
    destruct (ask (default 0 prev) tells) as [tell tells'];
    cbv zeta;
    destruct (if bool_decide (Some tell <> prev) then ask false is_set
              else (false, is_set)) as [stop is_set'];
    destruct stop; try apply Hstay.
  set (prev' := if bool_decide (Some tell <> prev) then Some tell else prev).
  clearbody prev'.
  destruct (negb _); [apply IH|].
  case_bool_decide; [apply Hstay|].
  destruct (process h data) as [h1 [[result|]|e]] eqn:Ep; [| |done].
  - pose proof (process_well_framed _ _ _ _ Ep) as Hwf.
    destruct (batch_size <? length (buf ++ result))%nat eqn:Eb.
    + destruct (try_put full is_set') as [[put full'] is_set''].
      intros Hrun. apply IH in Hrun as (new_puts & -> & Hlen & Hw).
      destruct (Hw well_framed_nil) as [Hbuf' Hnew].
      destruct put.
      * exists ((buf ++ result) :: new_puts).
        split; [by rewrite <- app_assoc|]. split.
        -- constructor; [by apply Nat.ltb_lt|done].
        -- intros Hbuf. split; [done|].
           constructor; [by apply well_framed_app|done].
      * exists new_puts. split; [done|]. split; [done|]. by intros _.
    + intros Hrun. apply IH in Hrun as (new_puts & -> & Hlen & Hw).
      exists new_puts. split; [done|]. split; [done|].
      intros Hbuf. apply Hw. by apply well_framed_app.
  - apply IH.
Qed.

Lemma run_unfold w env lines :
  run w env lines =
  match run_loop (end_id w) lines (start_id w)
                 (tells env) (is_set env) (full env) None
                 (data_handler w) [] [] with
  | Ok (h, bytes_buffer, puts) =>
      match process h flush_line with
      | (_, Ok (Some final_result)) => Ok (puts ++ [bytes_buffer ++ final_result])
      | (_, Ok None) => Ok (puts ++ [bytes_buffer])
      | (_, Raise e) => Raise e
      end
  | Raise e => Raise e
  end.
Proof.
  unfold run. by destruct (run_loop _ _ _ _ _ _ _ _ _ _) as [[[h buf] puts]|e].
Qed.

(** X19: when the worker never finds the stop event set, the buffers
    [run] puts, one after the other, are the bytes that [process] returns
    on the lines of the worker's range and on the flushing line, in order
    and without loss; an exception of [process] ends the run with that
    exception.  Neither the moves of the file position nor a full queue
    change what is put. *)
Theorem run_bytes (w : worker) (env : environment) (lines : list line) :
  never_set env ->
  match (process_all (data_handler w) (window w lines ++ [flush_line])).2 with
  | Ok results =>
      exists puts, run w env lines = Ok puts /\
                   concat puts = concat (omap id results)
  | Raise e => run w env lines = Raise e
  end.
Proof.
  intros Hnever. rewrite run_unfold. unfold window. rewrite process_all_app.
  pose proof (run_loop_never_set (end_id w) lines (start_id w)
                (tells env) (is_set env) (full env) None
                (data_handler w) [] [] Hnever) as Hl.
  destruct (process_all (data_handler w) _) as [h' [results|e]];
    [|by rewrite Hl].
  destruct Hl as (buf & puts & -> & Hcat). simpl in Hcat.
  simpl process_all. rewrite app_nil_l.
  destruct (process h' flush_line) as [h'' [[final|]|e]] eqn:Ep;
    cbn [snd]; [| |done].
  - exists (puts ++ [buf ++ final]). split; [done|].
    rewrite concat_app, omap_app. simpl. rewrite concat_app, <- Hcat. simpl.
    by rewrite !app_nil_r, app_assoc.
  - exists (puts ++ [buf]). split; [done|].
    rewrite concat_app, omap_app. simpl. by rewrite !app_nil_r.
Qed.

Lemma run_bytes_witness :
  match (process_all init
           (window (mk_worker 0 (Some "b") (Some "d") init)
              [mk_line (Some "a") (Some (mk_metadata (Some "1")
                 (Some (mk_record_fields (Some ["9780000000026"]) None None
                          None None None None))));
               mk_line (Some "b") (Some (mk_metadata (Some "1")
                 (Some (mk_record_fields (Some ["9780000000019"]) None (Some 5)
                          None None None None))));
               mk_line (Some "c") (Some (mk_metadata (Some "2")
                 (Some (mk_record_fields (Some ["9780000000026"]) None (Some 3)
                          None None None None))));
               mk_line (Some "d") (Some (mk_metadata (Some "3")
                 (Some (mk_record_fields (Some ["9780000000019"]) None None
                          None None None None))))]
            ++ [flush_line])).2 with
  | Ok results =>
      exists puts,
        run (mk_worker 0 (Some "b") (Some "d") init)
            (mk_environment [0; 0; 131072] [false; false] [true])
            [mk_line (Some "a") (Some (mk_metadata (Some "1")
               (Some (mk_record_fields (Some ["9780000000026"]) None None
                        None None None None))));
             mk_line (Some "b") (Some (mk_metadata (Some "1")
               (Some (mk_record_fields (Some ["9780000000019"]) None (Some 5)
                        None None None None))));
             mk_line (Some "c") (Some (mk_metadata (Some "2")
               (Some (mk_record_fields (Some ["9780000000026"]) None (Some 3)
                        None None None None))));
             mk_line (Some "d") (Some (mk_metadata (Some "3")
               (Some (mk_record_fields (Some ["9780000000019"]) None None
                        None None None None))))]
          = Ok puts /\
        concat puts = concat (omap id results)
  | Raise e =>
      run (mk_worker 0 (Some "b") (Some "d") init)
          (mk_environment [0; 0; 131072] [false; false] [true])
          [mk_line (Some "a") (Some (mk_metadata (Some "1")
             (Some (mk_record_fields (Some ["9780000000026"]) None None
                      None None None None))));
           mk_line (Some "b") (Some (mk_metadata (Some "1")
             (Some (mk_record_fields (Some ["9780000000019"]) None (Some 5)
                      None None None None))));
           mk_line (Some "c") (Some (mk_metadata (Some "2")
             (Some (mk_record_fields (Some ["9780000000026"]) None (Some 3)
                      None None None None))));
           mk_line (Some "d") (Some (mk_metadata (Some "3")
             (Some (mk_record_fields (Some ["9780000000019"]) None None
                      None None None None))))]
        = Raise e
  end.
Proof.
  apply (run_bytes (mk_worker 0 (Some "b") (Some "d") init)
           (mk_environment [0; 0; 131072] [false; false] [true])).
  repeat constructor.
Defined.

(** The run of the witness above: the line before the start line and the
    end line are left out, and the two groups between them are put as one
    buffer of two records. *)
Example run_two_groups :
  run (mk_worker 0 (Some "b") (Some "d") init)
      (mk_environment [0; 0; 131072] [false; false] [true])
      [mk_line (Some "a") (Some (mk_metadata (Some "1")
         (Some (mk_record_fields (Some ["9780000000026"]) None None
                  None None None None))));
       mk_line (Some "b") (Some (mk_metadata (Some "1")
         (Some (mk_record_fields (Some ["9780000000019"]) None (Some 5)
                  None None None None))));
       mk_line (Some "c") (Some (mk_metadata (Some "2")
         (Some (mk_record_fields (Some ["9780000000026"]) None (Some 3)
                  None None None None))));
       mk_line (Some "d") (Some (mk_metadata (Some "3")
         (Some (mk_record_fields (Some ["9780000000019"]) None None
                  None None None None))))]
  = Ok [["129"; "005"; "000"; "000"; "000"; "001";
         "129"; "003"; "000"; "000"; "000"; "002"]%byte].
Proof. vm_compute. reflexivity. Qed.

(** X20: in any environment, a run that ends normally puts at least one
    buffer; every buffer but the last is longer than [batch_size], and
    every buffer decodes on its own to the end of the stream: buffers are
    cut between records, also when the stop event ends the run. *)
Theorem run_buffers (w : worker) (env : environment) (lines : list line)
    (puts : list bytes) :
  run w env lines = Ok puts ->
  exists front last,
    puts = front ++ [last] /\
    Forall (fun b => (batch_size < length b)%nat) front /\
    Forall (fun b => (decode_stream b).2 = EndOfStream) puts.
Proof.
  rewrite run_unfold.
  destruct (run_loop _ _ _ _ _ _ _ _ _ _) as [[[h buf] front]|e] eqn:El;
    [|done].
  apply run_loop_buffers in El as (new_puts & -> & Hlen & Hw).
  destruct (Hw well_framed_nil) as [Hbuf Hputs]. simpl in *.
  destruct (process h flush_line) as [h' [[final|]|e]] eqn:Ep; [| |done].
  - intros [= <-]. exists new_puts, (buf ++ final).
    split; [done|]. split; [done|].
    apply Forall_app. split.
    + eapply Forall_impl; [exact Hputs|]. intros b. apply well_framed_decode.
    + constructor; [|done]. apply well_framed_decode.
      apply well_framed_app; [done|by eapply process_well_framed].
  - intros [= <-]. exists new_puts, buf.
    split; [done|]. split; [done|].
    apply Forall_app. split.
    + eapply Forall_impl; [exact Hputs|]. intros b. apply well_framed_decode.
    + constructor; [|done]. by apply well_framed_decode.
Qed.

Lemma run_buffers_witness :
  exists puts,
    run (mk_worker 0 None None init)
        (mk_environment [0; 65536] [false; false] [true; false])
        (alternating_lines 700) = Ok puts /\
    map length puts = [4098; 102]%nat /\
    exists front last,
      puts = front ++ [last] /\
      Forall (fun b => (batch_size < length b)%nat) front /\
      Forall (fun b => (decode_stream b).2 = EndOfStream) puts.
Proof.
  pose (puts := match run (mk_worker 0 None None init)
                        (mk_environment [0; 65536] [false; false]
                                        [true; false])
                        (alternating_lines 700) with
                | Ok puts => puts
                | Raise _ => []
                end).
  assert (Hrun : run (mk_worker 0 None None init)
                     (mk_environment [0; 65536] [false; false]
                                     [true; false])
                     (alternating_lines 700) = Ok puts)
    by (vm_compute; reflexivity).
  exists puts. split; [exact Hrun|]. split; [vm_compute; reflexivity|].
  exact (run_buffers _ _ _ _ Hrun).
Defined.

(** The same run when the stop event is found set before the put: the
    buffer of 4098 bytes is dropped, and only the last buffer is put. *)
Example run_stop_before_put :
  (fun puts => map length puts) <$>
    run (mk_worker 0 None None init)
        (mk_environment [0; 65536] [false; false; true] [true; false])
        (alternating_lines 700)
  = Ok [102%nat].
Proof. vm_compute. reflexivity. Qed.

End WorkerRun.

(** ** _merge_record_data: the state of a group *)
Section MergedState.
Import DataHandler.

(** X21: after the lines of a group are merged into a fresh handler, in
    whatever number, the ISBN strings are the union of the lines' strings,
    the holdings count is the largest holdings field of any line, and the
    year is the smallest of the years extracted line by line; no holdings
    field, or no extracted year, leaves the attribute at [None]. *)
Theorem merged_union_max_min (lines : list line) :
  isbns (merged init lines) = ⋃ (map line_isbns lines) /\
  max_of (holdings_count (merged init lines))
         (concat (map line_holdings lines)) /\
  min_of (year (merged init lines)) (omap line_year lines).
Proof.
  induction lines as [|data lines IH] using rev_ind.
  - done.
  - destruct IH as (Hi & Hh & Hy). rewrite merged_snoc.
    split; [|split].
    + rewrite merge_isbns, Hi, map_app, union_list_app_L. simpl.
      by rewrite (right_id_L ∅ (∪)).
    + rewrite map_app, concat_app. simpl. rewrite app_nil_r.
      by apply merge_holdings_max.
    + rewrite omap_app.
      replace (omap line_year [data]) with (omap id [line_year data])
        by (simpl; by destruct (line_year data)).
      by apply merge_year_min.
Qed.

End MergedState.

(** ** write_results: the file as a stream *)
Section OutputDecodes.
Import IsbnPropsDecoder ProcessorMain.

(** X22: when every buffer on the queue decodes on its own to the end of
    the stream, the file [write_results] writes decodes to the end of the
    stream as well, into the records of the buffers in the order the
    buffers arrived. *)
Theorem write_results_decodes (arrival : list (nat * bytes)) :
  Forall (fun p => (decode_stream p.2).2 = EndOfStream) arrival ->
  decode_stream (write_results (queue_of arrival)) =
    (concat (map (fun p => (decode_stream p.2).1) arrival), EndOfStream).
Proof.
  rewrite write_results_queue.
  induction 1 as [|[w b] arrival Hb _ IH]; simpl; [done|].
  simpl in Hb. destruct (decode_stream b) as [records e] eqn:Ed.
  simpl in Hb. subst e.
  rewrite (decode_stream_after_complete _ _ _ Ed), IH. done.
Qed.

Lemma write_results_decodes_witness :
  decode_stream
    (write_results
       (queue_of [(1%nat, ["065"; "010"; "000"; "000"; "007"; "208"]%byte);
                  (0%nat, [])])) =
    (concat (map (fun p => (decode_stream p.2).1)
               [(1%nat, ["065"; "010"; "000"; "000"; "007"; "208"]%byte);
                (0%nat, [])]), EndOfStream).
Proof.
  apply (write_results_decodes
           [(1%nat, ["065"; "010"; "000"; "000"; "007"; "208"]%byte);
            (0%nat, [])]).
  repeat constructor.
Defined.

End OutputDecodes.

(** ** get_pos and normalize_isbn on any string *)
Section GetPosAnyLength.
Import Common.

Lemma mapM_int_of_char_raise_iff cs :
  match result_mapM int_of_char cs with
  | Ok _ => Forall (fun c => is_ascii_digit c = true) cs
  | Raise e => e = ValueError /\ Exists (fun c => is_ascii_digit c = false) cs
  end.
Proof.
  induction cs as [|c cs IH]; [simpl; constructor|]. cbn [result_mapM].
  assert (Hc : match int_of_char c with
               | Ok _ => is_ascii_digit c = true
               | Raise e => e = ValueError /\ is_ascii_digit c = false
               end).
  { unfold int_of_char. by destruct (is_ascii_digit c). }
  destruct (int_of_char c) as [v|e]; simpl.
  - destruct (result_mapM int_of_char cs) as [ds|e]; simpl.
    + by constructor.
    + destruct IH as [-> IH]. split; [done|]. by apply Exists_cons_tl.
  - destruct Hc as [-> Hc]. split; [done|]. by apply Exists_cons_hd.
Qed.

(** X24: [get_pos] returns a point for a string of decimal digits and for
    no other string; on a string with any other character, a dash
    included, it raises [ValueError]. *)
Theorem get_pos_raises (isbn : string) :
  match get_pos isbn with
  | Ok _ => Forall (fun c => is_ascii_digit c = true) (chars isbn)
  | Raise e =>
      e = ValueError /\ Exists (fun c => is_ascii_digit c = false) (chars isbn)
  end.
Proof.
  unfold get_pos. pose proof (mapM_int_of_char_raise_iff (chars isbn)) as H.
  by destruct (result_mapM int_of_char (chars isbn)).
Qed.

Lemma chars_remove_dashes isbn :
  chars (remove_dashes isbn) = filter (fun c => c <> "-"%char) (chars isbn).
Proof. unfold remove_dashes, chars. apply list_ascii_of_string_of_list_ascii. Qed.

Lemma remove_dashes_no_prefix isbn pre :
  "-"%char ∈ chars pre -> String.prefix pre (remove_dashes isbn) = false.
Proof.
  intros Hin. destruct (String.prefix pre (remove_dashes isbn)) eqn:E; [|done].
  exfalso. apply prefix_correct in E.
  assert (Hsub : forall n m s c,
            c ∈ chars (substring n m s) -> c ∈ chars s).
  { clear. intros n m s. revert n m.
    induction s as [|a s IH]; intros [|n] [|m] c; simpl;
      try (by intros ?%elem_of_nil).
    - unfold chars. simpl. intros [->|Hc]%elem_of_cons; [by left|].
      right. by apply (IH 0%nat m).
    - intros Hc. right. by apply (IH n 0%nat).
    - intros Hc. right. by apply (IH n (S m)). }
  rewrite <- E in Hin. apply Hsub in Hin.
  rewrite chars_remove_dashes in Hin.
  apply list_elem_of_filter in Hin as [Hne _]. done.
Qed.

Lemma remove_dashes_idemp isbn :
  remove_dashes (remove_dashes isbn) = remove_dashes isbn.
Proof.
  unfold remove_dashes at 1. rewrite chars_remove_dashes.
  unfold remove_dashes. f_equal.
  induction (chars isbn) as [|c cs IH]; [done|].
  rewrite filter_cons. case_decide; [|done].
  rewrite filter_cons, decide_True by done. by rewrite IH.
Qed.

(** X25: [normalize_isbn] is idempotent, with dashes kept or removed: a
    normalized string is not normalized again into something else. *)
Theorem normalize_isbn_idempotent (isbn : string) (dashes : bool) :
  normalize_isbn (normalize_isbn isbn dashes) dashes
  = normalize_isbn isbn dashes.
Proof.
  destruct dashes.
  - unfold normalize_isbn. simpl negb. cbv iota.
    destruct (String.prefix "978-" isbn) eqn:E8; [done|].
    destruct (String.prefix "979-" isbn) eqn:E9; [done|].
    by rewrite E8, E9.
  - unfold normalize_isbn at 1. simpl negb. cbv iota.
    assert (E8 : String.prefix "978-" (normalize_isbn isbn false) = false).
    { unfold normalize_isbn. simpl negb. cbv iota.
      apply remove_dashes_no_prefix. vm_compute. by repeat constructor. }
    assert (E9 : String.prefix "979-" (normalize_isbn isbn false) = false).
    { unfold normalize_isbn. simpl negb. cbv iota.
      apply remove_dashes_no_prefix. vm_compute. by repeat constructor. }
    rewrite E8, E9. unfold normalize_isbn. simpl negb. cbv iota.
    apply remove_dashes_idemp.
Qed.

Lemma remove_dashes_cons d s :
  d <> "-"%char -> remove_dashes (String d s) = String d (remove_dashes s).
Proof.
  intros Hd. unfold remove_dashes, chars. cbn [list_ascii_of_string].
  by rewrite filter_cons, decide_True by done.
Qed.

Lemma remove_dashes_from_fourth isbn :
  remove_dashes (from_fourth isbn) =
  string_of_list_ascii (filter (fun c => c <> "-"%char) (drop 4 (chars isbn))).
Proof.
  unfold remove_dashes, from_fourth, chars.
  by rewrite list_ascii_of_string_of_list_ascii.
Qed.

Lemma prefix_chars pre : forall s,
  String.prefix pre s = true ->
  chars s = chars pre ++ drop (length (chars pre)) (chars s).
Proof.
  induction pre as [|c pre IH]; intros [|d s]; simpl; try done.
  case_match; [|done]. subst d. intros Hp. unfold chars in *. simpl.
  f_equal. by apply IH.
Qed.

Lemma filter_digits_no_dash cs :
  Forall (fun c => is_ascii_digit c = true \/ c = "-"%char) cs ->
  filter (fun c => c <> "-"%char) cs
  = filter (fun c => is_ascii_digit c = true) cs.
Proof.
  induction 1 as [|c cs Hc _ IH]; [done|].
  rewrite !filter_cons, IH.
  destruct Hc as [Hd| ->].
  - rewrite decide_True by (intros ->; by vm_compute in Hd).
    by rewrite decide_True.
  - rewrite decide_False by (intros Hn; by apply Hn).
    by rewrite decide_False by by vm_compute.
Qed.

Lemma get_pos_digits_11 d0 d1 d2 d3 d4 d5 d6 d7 d8 d9 d10 :
  get_pos_digits [d0; d1; d2; d3; d4; d5; d6; d7; d8; d9; d10] =
  (PyInt ((0 + d1 * 10000) mod 50000
          + d3 * 1000 + d5 * 100 + d7 * 10 + d9 * 1),
   PyFloat
     (round64
        (round64
           (inject_Z (2 * (0 + d0 * 10000) + (0 + d1 * 10000) / 50000
                      + d2 * 1000 + d4 * 100 + d6 * 10 + d8 * 1))
         + round64 (round64 (inject_Z d10) * round64 ((10 # 1) ^ (-1)))))).
Proof.
  unfold get_pos_digits, get_pos_init. cbn [fold_left].
  rewrite get_pos_step_row, get_pos_step_col_fold.
  rewrite get_pos_step_row, get_pos_step_col by done.
  rewrite get_pos_step_row, get_pos_step_col by done.
  rewrite get_pos_step_row, get_pos_step_col by done.
  rewrite get_pos_step_row, get_pos_step_col by done.
  rewrite get_pos_step_row.
  reflexivity.
Qed.

(** X26: a dashed ISBN-13 that starts with 978- or 979-, holds nothing
    but digits and dashes and has thirteen digits is normalized, dashes
    removed, into eleven digits on which [get_pos] returns a point of the
    canvas: [x] is an [int] below 50000, and [y] is a float, the last
    digit being added as tenths, with [0 <= y < 40000]. *)
Theorem normalize_isbn_on_canvas (isbn : string) :
  String.prefix "978-" isbn = true \/ String.prefix "979-" isbn = true ->
  Forall (fun c => is_ascii_digit c = true \/ c = "-"%char) (chars isbn) ->
  length (filter (fun c => is_ascii_digit c = true) (chars isbn)) = 13%nat ->
  exists (x : Z) (y : Q),
    get_pos (normalize_isbn isbn false) = Ok (PyInt x, PyFloat y) /\
    0 <= x < WIDTH /\ (0 <= y)%Q /\ (y < inject_Z HEIGHT)%Q.
Proof.
  intros Hpre Hall Hlen.
  set (rest := filter (fun c => c <> "-"%char) (drop 4 (chars isbn))).
  assert (Hrest : Forall (fun c => is_ascii_digit c = true) rest).
  { apply Forall_forall. intros c Hc.
    apply list_elem_of_filter in Hc as [Hne Hc].
    apply (subseteq_drop 4) in Hc. rewrite Forall_forall in Hall.
    by destruct (Hall c Hc). }
  assert (Hn : exists d, (d = "0"%char \/ d = "1"%char) /\
             normalize_isbn isbn false = string_of_list_ascii (d :: rest)).
  { unfold normalize_isbn. simpl negb. cbv iota.
    destruct (String.prefix "978-" isbn) eqn:E8.
    - exists "0"%char. split; [by left|].
      by rewrite remove_dashes_cons, remove_dashes_from_fourth.
    - destruct Hpre as [?|E9]; [done|]. rewrite E9.
      exists "1"%char. split; [by right|].
      by rewrite remove_dashes_cons, remove_dashes_from_fourth. }
  assert (Hten : length rest = 10%nat).
  { assert (Hsplit : exists pre, (pre = "978-"%string \/ pre = "979-"%string) /\
                       chars isbn = chars pre ++ drop 4 (chars isbn)).
    { destruct Hpre as [Hp|Hp]; apply prefix_chars in Hp;
        eexists; (split; [|exact Hp]); auto. }
    destruct Hsplit as (pre & Hpre' & Hsplit).
    unfold rest. rewrite filter_digits_no_dash
      by (rewrite Forall_forall in Hall |- *; intros c Hc;
          apply Hall; by apply (subseteq_drop 4)).
    rewrite Hsplit, filter_app, length_app in Hlen.
    assert (length (filter (fun c => is_ascii_digit c = true) (chars pre))
            = 3%nat) by (destruct Hpre' as [-> | ->]; reflexivity).
    lia. }
  destruct Hn as (d & Hd & ->).
  unfold get_pos, chars.
  rewrite list_ascii_of_string_of_list_ascii.
  rewrite mapM_int_of_char
    by (constructor; [by destruct Hd as [-> | ->]|done]).
  destruct rest as [|c1 [|c2 [|c3 [|c4 [|c5 [|c6 [|c7 [|c8 [|c9 [|c10 [|]]]]]]]]]]];
    try discriminate.
  simpl map. simpl mbind. rewrite get_pos_digits_11.
  repeat (apply Forall_cons in Hrest as [?%is_ascii_digit_range Hrest]).
  assert (Hd0 : 0 <= digit_val d <= 1)
    by (destruct Hd as [-> | ->]; by vm_compute).
  unfold digit_range in *.
  set (X := (0 + digit_val c1 * 10000) mod 50000 + digit_val c3 * 1000
            + digit_val c5 * 100 + digit_val c7 * 10 + digit_val c9 * 1).
  set (Y := 2 * (0 + digit_val d * 10000) + (0 + digit_val c1 * 10000) / 50000
            + digit_val c2 * 1000 + digit_val c4 * 100 + digit_val c6 * 10
            + digit_val c8 * 1).
  assert (HX : 0 <= X <= 49999).
  { unfold X.
    pose proof (Z.div_mod (0 + digit_val c1 * 10000) 50000 ltac:(lia)).
    pose proof (Z.mod_pos_bound (0 + digit_val c1 * 10000) 50000 ltac:(lia)).
    lia. }
  assert (HY : 0 <= Y <= 30000).
  { unfold Y.
    pose proof (Z.div_mod (0 + digit_val c1 * 10000) 50000 ltac:(lia)).
    pose proof (Z.mod_pos_bound (0 + digit_val c1 * 10000) 50000 ltac:(lia)).
    lia. }
  clearbody X Y.
  destruct pow10_minus_1 as [Hp1 Hp1'].
  destruct (digit_times_pow (digit_val c10) 103 _ ltac:(done) ltac:(lia)
              Hp1 Hp1') as [Hb0 Hb1].
  change (9 * 103) with 927 in *.
  destruct (int_plus_float Y 927 _ ltac:(lia) ltac:(lia) Hb0 Hb1)
    as [Hy0 Hy1].
  eexists _, _. split; [reflexivity|]. unfold WIDTH, HEIGHT.
  split; [lia|].
  assert (HYq : (0 <= inject_Z Y)%Q /\ (inject_Z Y <= 30000)%Q).
  { split; [change 0%Q with (inject_Z 0)|change 30000%Q with (inject_Z 30000)];
      rewrite <- Zle_Qle; lia. }
  assert (((927 # 1024) < 1)%Q) by reflexivity.
  change (inject_Z 40000) with 40000%Q.
  split; lra.
Qed.

Lemma normalize_isbn_on_canvas_witness :
  exists (x : Z) (y : Q),
    get_pos (normalize_isbn "978-0-00-000123-4" false)
      = Ok (PyInt x, PyFloat y) /\
    0 <= x < WIDTH /\ (0 <= y)%Q /\ (y < inject_Z HEIGHT)%Q.
Proof.
  apply (normalize_isbn_on_canvas "978-0-00-000123-4").
  - by left.
  - repeat constructor; (by left) || (by right).
  - reflexivity.
Defined.

End GetPosAnyLength.

(** ** get_pos on short strings: integers only *)
Section GetPosShort.
Import Common.

Lemma get_pos_step_room st d :
  digit_range d -> room st -> 1 <= digits_left st ->
  room (get_pos_step st d) /\
  digits_left (get_pos_step st d) = digits_left st - 1.
Proof.
  intros [Hd0 Hd9] (x & y & Hx & Hy & Hx0 & Hy0 & Hn & Hrow & Hxr & Hyr).
  destruct st as [sx sy n is_row]. unfold digits_left. simpl in *. subst sx sy.
  destruct is_row.
  - intros Hleft. assert (H0 : 0 <= n) by lia.
    rewrite get_pos_step_row, py_pow10_int by done. simpl.
    split; [|lia]. exists x, (y + d * 10 ^ n).
    assert (Hp : 10 ^ (n + 1) = 10 * 10 ^ n)
      by (rewrite Z.pow_add_r by lia; lia).
    pose proof (Z.pow_pos_nonneg 10 n ltac:(lia) H0).
    cbn [gp_x gp_y gp_n gp_is_row]. rewrite Hp in *.
    repeat split; first [done|lia|nia].
  - intros _. specialize (Hrow eq_refl).
    rewrite get_pos_step_col, py_pow10_int by lia. simpl.
    split; [|lia]. exists (x + d * 10 ^ n), y.
    assert (Hp : 10 ^ (n + 1) = 10 * 10 ^ n)
      by (rewrite Z.pow_add_r by lia; lia).
    pose proof (Z.pow_pos_nonneg 10 n ltac:(lia) Hrow).
    cbn [gp_x gp_y gp_n gp_is_row].
    replace (n - 1 + 1) with n by lia. rewrite Hp in *.
    repeat split; first [done|lia|nia].
Qed.

Lemma fold_get_pos_step_room digits : forall st,
  Forall digit_range digits -> room st ->
  Z.of_nat (length digits) <= digits_left st ->
  room (fold_left get_pos_step digits st).
Proof.
  induction digits as [|d digits IH]; intros st Hd Hst Hlen; [done|].
  apply Forall_cons in Hd as [Hd Hds]. simpl in *.
  destruct (get_pos_step_room st d Hd Hst ltac:(lia)) as [Hroom Hleft].
  apply IH; [done|done|lia].
Qed.

Lemma room_on_canvas st :
  room st ->
  exists x y : Z,
    gp_x st = PyInt x /\ gp_y st = PyInt y /\
    0 <= x < 50000 /\ 0 <= y < 40000.
Proof.
  intros (x & y & Hx & Hy & Hx0 & Hy0 & Hn & Hrow & Hxr & Hyr).
  exists x, y. split; [done|]. split; [done|].
  pose proof (Z.pow_pos_nonneg 10 (gp_n st + 1) ltac:(lia) ltac:(lia)).
  destruct (gp_is_row st).
  - lia.
  - pose proof (Z.pow_pos_nonneg 10 (gp_n st) ltac:(lia) (Hrow eq_refl)). lia.
Qed.

(** At most ten digits that start with 0 or 1. *)
Lemma get_pos_digits_short digits :
  (length digits <= 10)%nat ->
  Forall digit_range digits ->
  (forall d, head digits = Some d -> d <= 1) ->
  exists x y : Z,
    get_pos_digits digits = (PyInt x, PyInt y) /\
    0 <= x < 50000 /\ 0 <= y < 40000.
Proof.
  intros Hlen Hd Hfirst. unfold get_pos_digits.
  destruct digits as [|d0 [|d1 digits]].
  - exists 0, 0. simpl. repeat split; lia.
  - specialize (Hfirst d0 eq_refl). apply Forall_cons in Hd as [[Hd0 _] _].
    cbn [fold_left]. unfold get_pos_init. rewrite get_pos_step_row.
    exists 0, (0 + d0 * 10000). split; [reflexivity|]. lia.
  - specialize (Hfirst d0 eq_refl).
    apply Forall_cons in Hd as [[Hd0 _] Hd].
    apply Forall_cons in Hd as [[Hd1 Hd1'] Hd].
    cbn [fold_left]. unfold get_pos_init.
    rewrite get_pos_step_row, get_pos_step_col_fold.
    destruct (room_on_canvas
                (fold_left get_pos_step digits
                   (mk_get_pos_state
                      (PyInt ((0 + d1 * 10000) mod 50000))
                      (PyInt (2 * (0 + d0 * 10000) + (0 + d1 * 10000) / 50000))
                      3 true)))
      as (x & y & Hx & Hy & Hb).
    + apply fold_get_pos_step_room; [done| |].
      * exists ((0 + d1 * 10000) mod 50000),
               (2 * (0 + d0 * 10000) + (0 + d1 * 10000) / 50000).
        pose proof (Z.div_mod (0 + d1 * 10000) 50000 ltac:(lia)).
        pose proof (Z.mod_pos_bound (0 + d1 * 10000) 50000 ltac:(lia)).
        simpl. change (10 ^ (3 + 1)) with 10000.
        repeat split; try done; lia.
      * unfold digits_left. simpl in *. lia.
    + exists x, y. change (py_pow10 4) with (PyInt 10000).
      simpl py_add. simpl py_mul. simpl py_mod. simpl py_floordiv.
      by rewrite Hx, Hy.
Qed.

(** X23: for every string of at most ten decimal digits whose first digit
    is 0 or 1, the empty string included, [get_pos] returns two [int]s
    [(x, y)] on the 50000 by 40000 canvas; no float is involved. *)
Theorem get_pos_ten_digits (isbn : string) :
  (String.length isbn <= 10)%nat ->
  Forall (fun c => is_ascii_digit c = true) (chars isbn) ->
  (forall c, String.get 0 isbn = Some c -> c = "0"%char \/ c = "1"%char) ->
  exists x y : Z,
    get_pos isbn = Ok (PyInt x, PyInt y) /\
    0 <= x < WIDTH /\ 0 <= y < HEIGHT.
Proof.
  intros Hlen Hd Hfirst. unfold get_pos.
  rewrite mapM_int_of_char by done. simpl mbind.
  destruct (get_pos_digits_short (map digit_val (chars isbn)))
    as (x & y & -> & Hb).
  - by rewrite length_map, chars_length.
  - apply Forall_map. eapply Forall_impl; [exact Hd|].
    intros c Hc. by apply is_ascii_digit_range.
  - destruct isbn as [|c isbn]; [done|]. simpl. intros d [= <-].
    apply Forall_cons in Hd as [Hc _]. apply digit_val_le_1; [done|].
    by apply Hfirst.
  - by exists x, y.
Qed.

Lemma get_pos_ten_digits_witness :
  exists x y : Z,
    get_pos "0123456" = Ok (PyInt x, PyInt y) /\
    0 <= x < WIDTH /\ 0 <= y < HEIGHT.
Proof.
  apply (get_pos_ten_digits "0123456").
  - simpl. lia.
  - repeat constructor.
  - intros c [= <-]. by left.
Defined.

End GetPosShort.

(** ** process_stream: what the tensors hold *)
Section Tensors.
Import Common IsbnPropsDecoder RenderTileProps.
Implicit Types self : ISBNMatrixProcessor.
Implicit Types r : ISBNPropsRecord.

Lemma code_pos_inj c1 c2 :
  0 <= c1 -> 0 <= c2 -> get_isbn_code_pos c1 = get_isbn_code_pos c2 -> c1 = c2.
Proof.
  intros H1 H2 Heq.
  set (n := Z.to_nat (Z.max c1 c2)).
  assert (Hn : Z.max c1 c2 < 10 ^ Z.of_nat n).
  { unfold n. rewrite Z2Nat.id by lia. apply Z.pow_gt_lin_r; lia. }
  rewrite (get_isbn_code_pos_deinterleave n c1) in Heq by lia.
  rewrite (get_isbn_code_pos_deinterleave n c2) in Heq by lia.
  rewrite <- (interleave_deinterleave n c1) by lia.
  rewrite <- (interleave_deinterleave n c2) by lia.
  by rewrite Heq.
Qed.

(** Two positions share a prefix and a cell only when they are equal. *)
Lemma place_inj p q :
  p / 100000000 = q / 100000000 ->
  get_isbn_code_pos (p mod 100000000) = get_isbn_code_pos (q mod 100000000) ->
  p = q.
Proof.
  intros Hd Hm. apply code_pos_inj in Hm.
  - rewrite (Z.div_mod p 100000000), (Z.div_mod q 100000000) by lia. lia.
  - apply Z.mod_pos_bound. lia.
  - apply Z.mod_pos_bound. lia.
Qed.

(** *** One position *)

Lemma tensor_of_process_position r self q :
  exists matrix,
    tensors (process_position r self q) =
      <[q / 100000000 := matrix]> (tensors self) /\
    forall row col,
      cell matrix row col 0 =
        (if decide ((col, row) = get_isbn_code_pos (q mod 100000000))
         then merge_year
                (cell (default ∅ (tensors self !! (q / 100000000))) row col 0)
                (year r)
         else cell (default ∅ (tensors self !! (q / 100000000))) row col 0) /\
      cell matrix row col 1 =
        (if decide ((col, row) = get_isbn_code_pos (q mod 100000000))
         then merge_count
                (cell (default ∅ (tensors self !! (q / 100000000))) row col 1)
                (holdings_count r)
         else cell (default ∅ (tensors self !! (q / 100000000))) row col 1).
Proof.
  unfold process_position, merge_year, merge_count, tensor in *.
  destruct (get_isbn_code_pos (q mod 100000000)) as [c0 r0].
  set (m0 := default ∅ (tensors self !! (q / 100000000))).
  destruct (year r) as [y|], (holdings_count r) as [c|];
    try destruct (decide (c > 0)); cbn [tensors];
    eexists; (split; [reflexivity|]); intros row col; unfold cell, tensor;
    destruct (decide ((col, row) = (c0, r0))) as [[= -> ->]|Hne];
    repeat first [rewrite lookup_insert_eq
                 |rewrite lookup_insert_ne by congruence];
    try done.
Qed.

Lemma zero_holdings_of_process_position r self q :
  zero_holdings_mats (process_position r self q) =
    match holdings_count r with
    | Some c =>
        if decide (c > 0) then zero_holdings_mats self
        else <[q / 100000000 :=
                 {[ ((get_isbn_code_pos (q mod 100000000)).2,
                     (get_isbn_code_pos (q mod 100000000)).1) ]}
                 ∪ default ∅ (zero_holdings_mats self !! (q / 100000000))]>
               (zero_holdings_mats self)
    | None => zero_holdings_mats self
    end.
Proof.
  unfold process_position.
  destruct (get_isbn_code_pos (q mod 100000000)) as [c0 r0].
  destruct (holdings_count r) as [c|]; [|done].
  by destruct (decide (c > 0)).
Qed.

Lemma year_at_process_position r self q p :
  year_at (process_position r self q) p =
    if decide (p = q) then merge_year (year_at self p) (year r)
    else year_at self p.
Proof.
  destruct (tensor_of_process_position r self q) as (matrix & Ht & Hc).
  unfold year_at. rewrite Ht.
  destruct (get_isbn_code_pos (p mod 100000000)) as [col row] eqn:Hp.
  destruct (decide (p / 100000000 = q / 100000000)) as [Hd|Hd].
  - rewrite <- Hd at 1. rewrite lookup_insert_eq. simpl.
    destruct (Hc row col) as [-> _]. rewrite <- Hd.
    destruct (decide (p = q)) as [->|Hne].
    + by rewrite decide_True.
    + rewrite decide_False; [done|].
      intros Heq. apply Hne, place_inj; [done|congruence].
  - rewrite lookup_insert_ne by done.
    rewrite decide_False; [done|]. by intros ->.
Qed.

Lemma holdings_at_process_position r self q p :
  holdings_at (process_position r self q) p =
    if decide (p = q) then merge_count (holdings_at self p) (holdings_count r)
    else holdings_at self p.
Proof.
  destruct (tensor_of_process_position r self q) as (matrix & Ht & Hc).
  unfold holdings_at. rewrite Ht.
  destruct (get_isbn_code_pos (p mod 100000000)) as [col row] eqn:Hp.
  destruct (decide (p / 100000000 = q / 100000000)) as [Hd|Hd].
  - rewrite <- Hd at 1. rewrite lookup_insert_eq. simpl.
    destruct (Hc row col) as [_ ->]. rewrite <- Hd.
    destruct (decide (p = q)) as [->|Hne].
    + by rewrite decide_True.
    + rewrite decide_False; [done|].
      intros Heq. apply Hne, place_inj; [done|congruence].
  - rewrite lookup_insert_ne by done.
    rewrite decide_False; [done|]. by intros ->.
Qed.

Lemma zero_holdings_at_process_position r self q p :
  zero_holdings_at (process_position r self q) p <->
  zero_holdings_at self p \/
  (p = q /\ exists c, holdings_count r = Some c /\ c <= 0).
Proof.
  unfold zero_holdings_at. rewrite zero_holdings_of_process_position.
  destruct (get_isbn_code_pos (p mod 100000000)) as [col row] eqn:Hp.
  destruct (holdings_count r) as [c|].
  - destruct (decide (c > 0)) as [Hc|Hc].
    + split; [by left|]. intros [?|(_ & c' & [= <-] & ?)]; [done|lia].
    + destruct (decide (p / 100000000 = q / 100000000)) as [Hd|Hd].
      * rewrite <- Hd at 1. rewrite lookup_insert_eq. simpl.
        rewrite elem_of_union, elem_of_singleton, <- Hd.
        split.
        -- intros [Heq|?]; [|by left]. right. split; [|exists c; split; [done|lia]].
           apply place_inj; [done|]. rewrite Hp.
           destruct (get_isbn_code_pos (q mod 100000000)). simpl in Heq.
           congruence.
        -- intros [?|[-> _]]; [by right|]. left. by rewrite Hp.
      * rewrite lookup_insert_ne by done.
        split; [by left|]. by intros [?|[-> _]].
  - split; [by left|]. by intros [?|(_ & c' & [=] & _)].
Qed.

Lemma dom_tensors_process_position r self q :
  dom (tensors (process_position r self q)) =
    {[ q / 100000000 ]} ∪ dom (tensors self).
Proof.
  destruct (tensor_of_process_position r self q) as (matrix & -> & _).
  apply dom_insert_L.
Qed.

(** *** The positions of one record *)

Lemma fold_left_view {S : Type} (step : S -> Z -> S) (V : S -> Z)
    (f : Z -> Z) (p : Z) :
  (forall a, f (f a) = f a) ->
  (forall s q, V (step s q) = if decide (p = q) then f (V s) else V s) ->
  forall l s,
    V (fold_left step l s) = if decide (p ∈ l) then f (V s) else V s.
Proof.
  intros Hf Hstep l. induction l as [|q l IH]; intros s; simpl fold_left.
  - rewrite decide_False; [done|]. apply not_elem_of_nil.
  - rewrite IH, Hstep.
    destruct (decide (p ∈ l)) as [Hl|Hl], (decide (p = q)) as [->|Hq].
    + rewrite Hf. rewrite decide_True; [done|]. by left.
    + rewrite decide_True; [done|]. by right.
    + rewrite decide_True; [done|]. by left.
    + rewrite decide_False; [done|]. by intros [?|?]%elem_of_cons.
Qed.

Lemma merge_year_idemp y a : merge_year (merge_year a y) y = merge_year a y.
Proof. unfold merge_year. destruct y; lia. Qed.

Lemma merge_count_idemp c a :
  merge_count (merge_count a c) c = merge_count a c.
Proof.
  unfold merge_count. destruct c as [c|]; [|done].
  destruct (decide (c > 0)); [|done].
  repeat case_decide; lia.
Qed.

Lemma year_at_process_record r self p :
  year_at (process_record self r) p =
    if decide (p ∈ isbn_positions r) then merge_year (year_at self p) (year r)
    else year_at self p.
Proof.
  unfold process_record.
  destruct (decide (year r = None /\ holdings_count r = Some 0)) as [[-> _]|_].
  - simpl. by destruct (decide _).
  - apply (fold_left_view (process_position r) (fun s => year_at s p)
             (fun a => merge_year a (year r))).
    + apply merge_year_idemp.
    + intros s q. apply year_at_process_position.
Qed.

Lemma holdings_at_process_record r self p :
  holdings_at (process_record self r) p =
    if decide (p ∈ isbn_positions r)
    then merge_count (holdings_at self p) (holdings_count r)
    else holdings_at self p.
Proof.
  unfold process_record.
  destruct (decide (year r = None /\ holdings_count r = Some 0)) as [[_ ->]|_].
  - simpl. by destruct (decide _).
  - apply (fold_left_view (process_position r) (fun s => holdings_at s p)
             (fun a => merge_count a (holdings_count r))).
    + apply merge_count_idemp.
    + intros s q. apply holdings_at_process_position.
Qed.

Lemma zero_holdings_at_positions r p l : forall self,
  zero_holdings_at (fold_left (process_position r) l self) p <->
  zero_holdings_at self p \/
  (p ∈ l /\ exists c, holdings_count r = Some c /\ c <= 0).
Proof.
  induction l as [|q l IH]; intros self; simpl.
  - split; [by left|]. by intros [?|[?%elem_of_nil _]].
  - rewrite IH, zero_holdings_at_process_position, elem_of_cons. tauto.
Qed.

Lemma zero_holdings_at_process_record r self p :
  zero_holdings_at (process_record self r) p <->
  zero_holdings_at self p \/
  (p ∈ isbn_positions r /\
   ~ (year r = None /\ holdings_count r = Some 0) /\
   exists c, holdings_count r = Some c /\ c <= 0).
Proof.
  unfold process_record.
  destruct (decide (year r = None /\ holdings_count r = Some 0)) as [Hs|Hn].
  - split; [by left|]. intros [?|(_ & ? & _)]; done.
  - rewrite zero_holdings_at_positions. tauto.
Qed.

Lemma dom_tensors_positions r l : forall self,
  dom (tensors (fold_left (process_position r) l self)) =
    list_to_set ((fun q => q / 100000000) <$> l) ∪ dom (tensors self).
Proof.
  induction l as [|q l IH]; intros self; simpl.
  - by rewrite (left_id_L ∅ (∪)).
  - rewrite IH, dom_tensors_process_position, !(assoc_L (∪)).
    f_equal. apply (comm_L (∪)).
Qed.

(** *** The records of a stream *)

Lemma records_at_snoc p rs r :
  records_at p (rs ++ [r]) =
    records_at p rs ++ (if decide (p ∈ isbn_positions r) then [r] else []).
Proof.
  unfold records_at. by rewrite filter_app.
Qed.

Lemma year_code_min m y :
  Z.max (Z.min 255 (2025 - m + 1)) (Z.min 255 (2025 - y + 1)) =
    Z.min 255 (2025 - Z.min m y + 1).
Proof. lia. Qed.

Lemma is_min_snoc m l y : is_min m l -> is_min (Z.min m y) (l ++ [y]).
Proof.
  intros [Hin Hall]. split.
  - apply elem_of_app. destruct (Z.min_spec m y) as [[_ ->]|[_ ->]];
      [by left|right; by left].
  - apply Forall_app. split; [|constructor; [lia|done]].
    eapply Forall_impl; [exact Hall|]. simpl. intros; lia.
Qed.

Lemma is_max_snoc m l c : is_max m l -> is_max (Z.max m c) (l ++ [c]).
Proof.
  intros [Hin Hall]. split.
  - apply elem_of_app. destruct (Z.max_spec m c) as [[_ ->]|[_ ->]];
      [right; by left|by left].
  - apply Forall_app. split; [|constructor; [lia|done]].
    eapply Forall_impl; [exact Hall|]. simpl. intros; lia.
Qed.

Lemma decoded_in_range (stream : bytes) :
  Forall record_in_range (decode_stream stream).1.
Proof.
  destruct (stream_frames_exist stream) as (frames & tail & -> & Hf & Ht).
  rewrite decode_stream_frames by done. simpl.
  apply Forall_fmap. eapply Forall_impl; [exact Hf|].
  intros [|b body] Hc; [done|]. simpl.
  apply decode_record_in_range, byte_val_range.
Qed.

Lemma process_stream_records self stream :
  (process_stream self stream).1 =
    fold_left process_record (decode_stream stream).1 self.
Proof. unfold process_stream. by destruct (decode_stream stream). Qed.

Lemma year_at_init p : year_at init p = 0.
Proof. unfold year_at. by destruct (get_isbn_code_pos _). Qed.

Lemma holdings_at_init p : holdings_at init p = 0.
Proof. unfold holdings_at. by destruct (get_isbn_code_pos _). Qed.

(** X27: after [process_stream] on a fresh processor, the year byte at the
    place of a position is 0 when no decoded record with a year lists the
    position; otherwise it is [min(255, 2025 - y + 1)] for the smallest
    year [y] of the records that list it. *)
Theorem process_stream_year_channel (stream : bytes) (p : Z) :
  exists oldest,
    min_of oldest (years_at p (decode_stream stream).1) /\
    year_at (process_stream init stream).1 p =
      match oldest with
      | Some y => Z.min 255 (2025 - y + 1)
      | None => 0
      end.
Proof.
  rewrite process_stream_records.
  generalize (decoded_in_range stream).
  generalize (decode_stream stream).1 as rs.
  induction rs as [|r rs IH] using rev_ind; intros Hr.
  - exists None. split; [done|]. apply year_at_init.
  - apply Forall_app in Hr as [Hrs Hr%Forall_inv].
    destruct (IH Hrs) as (o & Hmin & Hy).
    rewrite fold_left_app. simpl. rewrite year_at_process_record, Hy.
    unfold years_at in *. rewrite records_at_snoc, omap_app.
    destruct (decide (p ∈ isbn_positions r)) as [Hp|Hp]; simpl;
      [|exists o; by rewrite app_nil_r].
    destruct (year r) as [y|] eqn:Ey; simpl;
      [|exists o; by rewrite app_nil_r].
    destruct Hr as (_ & _ & _ & Hyr). specialize (Hyr y Ey).
    destruct o as [m|]; simpl in *.
    + exists (Some (Z.min m y)). split; [by apply is_min_snoc|].
      apply year_code_min.
    + exists (Some y). rewrite Hmin. split; [|lia].
      split; [by left|]. by constructor.
Qed.

(** X28: after [process_stream] on a fresh processor, the holdings byte at
    the place of a position is 0 when no decoded record with a holdings
    count above zero lists the position; otherwise it is [256 - c] for the
    largest such count [c], a value between 1 and 255. *)
Theorem process_stream_holdings_channel (stream : bytes) (p : Z) :
  exists most,
    max_of most (holdings_at_least_one p (decode_stream stream).1) /\
    holdings_at (process_stream init stream).1 p =
      match most with
      | Some c => 256 - c
      | None => 0
      end /\
    match most with Some c => 1 <= c <= 255 | None => True end.
Proof.
  rewrite process_stream_records.
  generalize (decoded_in_range stream).
  generalize (decode_stream stream).1 as rs.
  induction rs as [|r rs IH] using rev_ind; intros Hr.
  - exists None. split; [done|]. split; [apply holdings_at_init|done].
  - apply Forall_app in Hr as [Hrs Hr%Forall_inv].
    destruct (IH Hrs) as (o & Hmax & Hh & Ho).
    rewrite fold_left_app. simpl. rewrite holdings_at_process_record, Hh.
    unfold holdings_at_least_one in *.
    rewrite records_at_snoc, omap_app, filter_app.
    destruct (decide (p ∈ isbn_positions r)) as [Hp|Hp]; simpl;
      [|exists o; by rewrite app_nil_r].
    destruct (holdings_count r) as [c|] eqn:Ec; simpl;
      [|exists o; by rewrite app_nil_r].
    destruct Hr as (_ & _ & Hcr & _). specialize (Hcr c Ec).
    rewrite filter_cons, filter_nil.
    destruct (decide (c > 0)) as [Hc|Hc];
      [|exists o; by rewrite app_nil_r].
    destruct o as [m|]; simpl in *.
    + exists (Some (Z.max m c)). split; [by apply is_max_snoc|].
      split; [|lia]. unfold merge_count. repeat case_decide; lia.
    + exists (Some c). rewrite Hmax. split; [|split; [|lia]].
      * split; [by left|]. by constructor.
      * unfold merge_count. repeat case_decide; lia.
Qed.

(** X29: after [process_stream] on a fresh processor, a position is marked
    in the zero-holdings matrix exactly when some decoded record lists it
    with a holdings count of 0 and a year: a record with holdings 0 and no
    year leaves no mark. *)
Theorem process_stream_zero_holdings (stream : bytes) (p : Z) :
  zero_holdings_at (process_stream init stream).1 p <->
  exists r, r ∈ (decode_stream stream).1 /\ p ∈ isbn_positions r /\
            holdings_count r = Some 0 /\ year r <> None.
Proof.
  rewrite process_stream_records.
  generalize (decoded_in_range stream).
  generalize (decode_stream stream).1 as rs.
  induction rs as [|r rs IH] using rev_ind; intros Hr.
  - unfold zero_holdings_at. simpl.
    destruct (get_isbn_code_pos _). rewrite lookup_empty. simpl.
    split; [by intros ?%elem_of_empty|]. by intros (r & ?%elem_of_nil & _).
  - apply Forall_app in Hr as [Hrs Hr%Forall_inv].
    rewrite fold_left_app. simpl.
    rewrite zero_holdings_at_process_record, (IH Hrs).
    destruct Hr as (_ & _ & Hcr & _).
    split.
    + intros [(r' & Hin & ?)|(Hp & Hn & c & Hc & Hle)].
      * exists r'. split; [|done]. apply elem_of_app. by left.
      * exists r. specialize (Hcr c Hc). assert (c = 0) as -> by lia.
        split; [apply elem_of_app; right; by left|].
        split; [done|]. split; [done|]. intros Hy. by apply Hn.
    + intros (r' & [Hin|Heq%list_elem_of_singleton]%elem_of_app & Hp & Hc & Hy).
      * left. by exists r'.
      * subst r'. right. split; [done|]. split; [by intros [? _]|]. by exists 0.
Qed.

Lemma dom_tensors_process_record r self :
  dom (tensors (process_record self r)) =
    (if decide (year r = None /\ holdings_count r = Some 0) then ∅
     else list_to_set ((fun q => q / 100000000) <$> isbn_positions r))
    ∪ dom (tensors self).
Proof.
  unfold process_record. destruct (decide _).
  - by rewrite (left_id_L ∅ (∪)).
  - apply dom_tensors_positions.
Qed.

(** X30: after [process_stream] on a fresh processor, [tensors] has a key
    exactly for the prefixes [p // 10^8] of the positions of the decoded
    records that are not skipped (a record without year and without
    holdings count is not skipped), and every key is between 0 and 42. *)
Theorem process_stream_prefixes (stream : bytes) (k : Z) :
  (k ∈ dom (tensors (process_stream init stream).1) <->
   exists r p, r ∈ (decode_stream stream).1 /\ p ∈ isbn_positions r /\
               ~ (year r = None /\ holdings_count r = Some 0) /\
               k = p / 100000000) /\
  (k ∈ dom (tensors (process_stream init stream).1) -> 0 <= k <= 42).
Proof.
  rewrite process_stream_records.
  assert (Hiff : forall rs,
    k ∈ dom (tensors (fold_left process_record rs init)) <->
    exists r p, r ∈ rs /\ p ∈ isbn_positions r /\
                ~ (year r = None /\ holdings_count r = Some 0) /\
                k = p / 100000000).
  { induction rs as [|r rs IH] using rev_ind.
    - simpl. rewrite dom_empty_L.
      split; [by intros ?%elem_of_empty|]. by intros (r & p & ?%elem_of_nil & _).
    - rewrite fold_left_app. simpl.
      rewrite dom_tensors_process_record, elem_of_union, IH.
      split.
      + intros [Hk|(r' & p & Hin & ?)].
        * destruct (decide _) as [|Hn]; [by apply elem_of_empty in Hk|].
          apply elem_of_list_to_set, list_elem_of_fmap in Hk as (p & -> & Hp).
          exists r, p. split; [|done]. apply elem_of_app. right. by left.
        * exists r', p. split; [|done]. apply elem_of_app. by left.
      + intros (r' & p & [Hin|Heq%list_elem_of_singleton]%elem_of_app
                & Hp & Hn & ->).
        * right. by exists r', p.
        * subst r'. left. rewrite decide_False by done.
          apply elem_of_list_to_set, list_elem_of_fmap. by exists p. }
  split; [apply Hiff|].
  intros (r & p & Hr & Hp & _ & ->)%Hiff.
  pose proof (decoded_in_range stream) as Hall.
  rewrite Forall_forall in Hall. destruct (Hall r Hr) as (_ & Hpos & _).
  rewrite Forall_forall in Hpos. specialize (Hpos p Hp).
  change (2 ^ 32) with 4294967296 in Hpos.
  split.
  - apply Z.div_pos; lia.
  - apply Z.lt_succ_r, Z.div_lt_upper_bound; lia.
Qed.

End Tensors.
